(** * A shallow embedding of [src/medium/visuals.py]

    The module builds plotly figure descriptions from pandas data frames.
    The embedding follows the Python code function by function:

    - a cell of a data frame is a [value]: a number (a Python float, here a
      rational) or a string;
    - a data frame is a [table]: its column names and its rows;
    - a Python object that can be shared and mutated (the data frame passed
      by the caller, or its [copy]) lives in a [store] and is reached by a
      location, so that an in-place [sort_values] or a column assignment
      through the caller's reference is visible to the caller;
    - a raised exception is [Err]; state changes made before the exception
      stay, as in Python;
    - the numeric routines of numpy, scipy and statsmodels are parameters of
      the Section [Visuals] (the behaviour of these libraries is not code of
      this repository); concrete rational instances are given at the end. *)

From Stdlib Require Import String Ascii List Bool ZArith QArith Qabs Lia.
From Stdlib Require Import Sorting.Sorted Sorting.Permutation.
Import ListNotations.

Local Open Scope string_scope.
Local Open Scope list_scope.

(* ------------------------------------------------------------------ *)
(** ** Python strings: [str.replace('_', ' ')] and [str.title()] *)

Definition ascii_code (c : ascii) : nat := nat_of_ascii c.

Definition is_upper (c : ascii) : bool :=
  (65 <=? ascii_code c)%nat && (ascii_code c <=? 90)%nat.

Definition is_lower (c : ascii) : bool :=
  (97 <=? ascii_code c)%nat && (ascii_code c <=? 122)%nat.

(** A character is "cased" when it has an upper or lower case form. *)
Definition is_cased (c : ascii) : bool := is_upper c || is_lower c.

Definition to_upper (c : ascii) : ascii :=
  if is_lower c then ascii_of_nat (ascii_code c - 32) else c.

Definition to_lower (c : ascii) : ascii :=
  if is_upper c then ascii_of_nat (ascii_code c + 32) else c.

(** [s.replace('_', ' ')] *)
Fixpoint replace_us (s : string) : string :=
  match s with
  | EmptyString => EmptyString
  | String c r =>
      String (if Ascii.eqb c "_"%char then " "%char else c) (replace_us r)
  end.

(** CPython's [str.title]: a cased character following a cased character
    is lowered, any other one is upper-cased; [previous_is_cased] is reset
    by every uncased character. *)
Fixpoint title_aux (previous_is_cased : bool) (s : string) : string :=
  match s with
  | EmptyString => EmptyString
  | String c r =>
      String (if previous_is_cased then to_lower c else to_upper c)
             (title_aux (is_cased c) r)
  end.

Definition py_title (s : string) : string := title_aux false s.

(** The transformation [s.replace('_', ' ').title()] used for titles. *)
Definition pretty (s : string) : string := py_title (replace_us s).

Definition str_of_nat_digit (n : nat) : ascii := ascii_of_nat (48 + n).

(** [str(n)] of a non-negative Python int. *)
Fixpoint digits_aux (fuel : nat) (n : nat) (acc : string) : string :=
  match fuel with
  | O => acc
  | S f =>
      let acc' := String (str_of_nat_digit (n mod 10)) acc in
      if (n <? 10)%nat then acc' else digits_aux f (n / 10) acc'
  end.

Definition str_nat (n : nat) : string := digits_aux (S n) n EmptyString.

Definition str_Z (z : Z) : string :=
  match z with
  | Zneg p => String "-"%char (str_nat (Pos.to_nat p))
  | _ => str_nat (Z.to_nat z)
  end.

(* ------------------------------------------------------------------ *)
(** ** Values, exceptions and tables *)

Inductive value : Type :=
| VNum (q : Q)
| VStr (s : string).

Inductive exn : Type :=
| KeyError (key : string)
| TypeError
| ValueError
| IndexError
| AttributeError
| UnboundLocalError (var : string).

Inductive result (A : Type) : Type :=
| Ok (a : A)
| Err (e : exn).
Arguments Ok {A} a.
Arguments Err {A} e.

Definition res_bind {A B} (m : result A) (k : A -> result B) : result B :=
  match m with
  | Ok a => k a
  | Err e => Err e
  end.

Notation "'let?' x ':=' m 'in' k" := (res_bind m (fun x => k))
  (at level 200, x name, m at level 100, k at level 200).

(** [map] over a list in the exception monad, left to right. *)
Fixpoint map_res {A B} (f : A -> result B) (l : list A) : result (list B) :=
  match l with
  | [] => Ok []
  | a :: l' =>
      let? b := f a in
      let? bs := map_res f l' in
      Ok (b :: bs)
  end.

(** [enumerate] followed by a loop body. *)
Fixpoint map_res_i {A B} (f : nat -> A -> result B) (i : nat) (l : list A)
  : result (list B) :=
  match l with
  | [] => Ok []
  | a :: l' =>
      let? b := f i a in
      let? bs := map_res_i f (S i) l' in
      Ok (b :: bs)
  end.

(** A data frame: the column labels and the rows, each row holding one
    cell per column. *)
Record table : Type := mk_table {
  columns : list string;
  rows : list (list value)
}.

Definition wf_table (t : table) : Prop :=
  Forall (fun r => length r = length (columns t)) (rows t).

Fixpoint col_index (cols : list string) (c : string) : option nat :=
  match cols with
  | [] => None
  | c' :: cs =>
      if String.eqb c' c then Some O
      else option_map S (col_index cs c)
  end.

Definition cell (i : nat) (r : list value) : value := nth i r (VStr "").

(** [df[c]] for a single label: [KeyError] when the label is missing. *)
Definition get_col (t : table) (c : string) : result (list value) :=
  match col_index (columns t) c with
  | None => Err (KeyError c)
  | Some i => Ok (map (cell i) (rows t))
  end.

(** [df[c] = vals] (and [df.loc[:, c] = vals]): overwrite the column when it
    exists, append it otherwise; [vals] is aligned with the rows. *)
Fixpoint set_nth {A} (i : nat) (l : list A) (a : A) : list A :=
  match l, i with
  | [], _ => []
  | _ :: l', O => a :: l'
  | b :: l', S j => b :: set_nth j l' a
  end.

Definition set_col (t : table) (c : string) (vals : list value) : table :=
  match col_index (columns t) c with
  | Some i =>
      mk_table (columns t)
               (map (fun '(r, v) => set_nth i r v) (combine (rows t) vals))
  | None =>
      mk_table (columns t ++ [c])
               (map (fun '(r, v) => r ++ [v]) (combine (rows t) vals))
  end.

(** Comparison of cells as pandas sorts them: numbers by value, strings by
    code points; a column mixing numbers and strings cannot be sorted. *)
Definition is_num (v : value) : bool :=
  match v with VNum _ => true | VStr _ => false end.

Definition comparable (vs : list value) : bool :=
  forallb is_num vs || forallb (fun v => negb (is_num v)) vs.

Definition vleb (a b : value) : bool :=
  match a, b with
  | VNum p, VNum q => Qle_bool p q
  | VStr s, VStr s' => String.leb s s'
  | _, _ => true
  end.

(** [==] on cells. *)
Definition veqb (a b : value) : bool :=
  match a, b with
  | VNum p, VNum q => Qeq_bool p q
  | VStr s, VStr s' => String.eqb s s'
  | _, _ => false
  end.

(** A stable sort on a key: an element goes before the first element whose
    key is not smaller, so that equal keys keep their order. *)
Fixpoint insert_by {A} (key : A -> value) (a : A) (l : list A) : list A :=
  match l with
  | [] => [a]
  | b :: l' => if vleb (key a) (key b) then a :: l else b :: insert_by key a l'
  end.

Fixpoint sort_by_key {A} (key : A -> value) (l : list A) : list A :=
  match l with
  | [] => []
  | a :: l' => insert_by key a (sort_by_key key l')
  end.

(** [df.sort_values(c)] as a new frame. *)
Definition sort_by (t : table) (c : string) : result table :=
  match col_index (columns t) c with
  | None => Err (KeyError c)
  | Some i =>
      if comparable (map (cell i) (rows t))
      then Ok (mk_table (columns t) (sort_by_key (cell i) (rows t)))
      else Err TypeError
  end.

Fixpoint dedup_sorted (l : list value) : list value :=
  match l with
  | a :: ((b :: _) as l') => if veqb a b then dedup_sorted l' else a :: dedup_sorted l'
  | _ => l
  end.

(** The keys of [df.groupby(c)], sorted (pandas' default [sort=True]).
    pandas sorts the distinct keys with [safe_sort], which orders a column
    mixing numbers and strings as [_sort_mixed] does: the numbers in
    increasing order, then the strings in increasing order. *)
Definition group_keys (ks : list value) : list value :=
  dedup_sorted (sort_by_key (fun v => v) (filter is_num ks)) ++
  dedup_sorted (sort_by_key (fun v => v) (filter (fun v => negb (is_num v)) ks)).

(** The group of key [k] on column [i]: the rows with that key, in their
    original order. *)
Definition group_of (t : table) (i : nat) (k : value) : table :=
  mk_table (columns t) (filter (fun r => veqb (cell i r) k) (rows t)).

(** [df.groupby(c)] iterated as [(name, group)] pairs: one group per
    distinct key, in key order.  Each group is a new frame. *)
Definition groupby (t : table) (c : string) : result (list (value * table)) :=
  match col_index (columns t) c with
  | None => Err (KeyError c)
  | Some i => Ok (map (fun k => (k, group_of t i k)) (group_keys (map (cell i) (rows t))))
  end.

(** Python's [+] on two cells. *)
Definition py_add (a b : value) : result value :=
  match a, b with
  | VNum p, VNum q => Ok (VNum (p + q))
  | VStr s, VStr s' => Ok (VStr (s ++ s')%string)
  | _, _ => Err TypeError
  end.

Fixpoint cumsum_from (acc : value) (l : list value) : result (list value) :=
  match l with
  | [] => Ok []
  | v :: l' =>
      let? s := py_add acc v in
      let? rest := cumsum_from s l' in
      Ok (s :: rest)
  end.

(** [Series.cumsum()]. *)
Definition cumsum (l : list value) : result (list value) :=
  match l with
  | [] => Ok []
  | v :: l' =>
      let? rest := cumsum_from v l' in
      Ok (v :: rest)
  end.

(** The conversion of a column to a float array done by the numeric
    libraries. *)
Definition to_float (v : value) : result Q :=
  match v with VNum q => Ok q | VStr _ => Err TypeError end.

Definition to_floats (vs : list value) : result (list Q) := map_res to_float vs.

(* ------------------------------------------------------------------ *)
(** ** Mutable Python objects: a store of data frames *)

Definition loc := nat.

Record store : Type := mk_store {
  heap : loc -> table;
  next : loc
}.

Definition empty_table : table := mk_table [] [].

(** A store holding one frame at location 0. *)
Definition store_of (t : table) : store :=
  mk_store (fun l => if Nat.eqb l 0 then t else empty_table) 1%nat.

(** A computation may raise; the mutations it made before raising stay. *)
Definition M (A : Type) : Type := store -> result A * store.

Definition ret {A} (a : A) : M A := fun st => (Ok a, st).

Definition raise {A} (e : exn) : M A := fun st => (Err e, st).

Definition bind {A B} (m : M A) (k : A -> M B) : M B :=
  fun st =>
    match m st with
    | (Ok a, st') => k a st'
    | (Err e, st') => (Err e, st')
    end.

Notation "'let*' x ':=' m 'in' k" := (bind m (fun x => k))
  (at level 200, x name, m at level 100, k at level 200).

Definition lift {A} (r : result A) : M A :=
  match r with Ok a => ret a | Err e => raise e end.

Definition load (l : loc) : M table := fun st => (Ok (heap st l), st).

Definition store_at (l : loc) (t : table) : M unit :=
  fun st =>
    (Ok tt, mk_store (fun l' => if Nat.eqb l' l then t else heap st l') (next st)).

Definition alloc (t : table) : M loc :=
  fun st =>
    (Ok (next st),
     mk_store (fun l' => if Nat.eqb l' (next st) then t else heap st l')
              (S (next st))).

(** [df.copy()]: a new object holding the same frame. *)
Definition copy (l : loc) : M loc := let* t := load l in alloc t.

(** [df.sort_values(c, inplace=True)]. *)
Definition sort_values_inplace (l : loc) (c : string) : M unit :=
  let* t := load l in
  let* t' := lift (sort_by t c) in
  store_at l t'.

(** [df[c] = vals] through the reference [l]. *)
Definition assign_col (l : loc) (c : string) (vals : list value) : M unit :=
  let* t := load l in
  store_at l (set_col t c vals).

(* ------------------------------------------------------------------ *)
(** ** Figure descriptions (plotly [go.Figure], [go.Layout], traces)

    Styling that no branch of the code makes depend on its inputs (marker
    sizes and colours, fonts, line dashes, figure size) is left out. *)

Inductive trace_kind : Type := Histogram | Scatter.

(** The data of a trace: one column, or a frame of several columns (what
    [df[[c1; c2]]] gives). *)
Inductive tdata : Type :=
| Col (vs : list value)
| Frame (cs : list (list value)).

Record trace : Type := mk_trace {
  tr_kind : trace_kind;
  tr_x : option tdata;
  tr_y : option tdata;
  tr_name : option value;
  tr_text : option (list value);
  tr_mode : option string;
  tr_yaxis : option string;
  tr_symbol : option nat;
  tr_marker_size : option (list value)
}.

Record axis : Type := mk_axis {
  ax_title : option string;
  ax_type : option string;
  ax_rangeselector : bool;
  ax_rangeslider : bool
}.

Definition axis_titled (title : string) (type : option string) : axis :=
  mk_axis (Some title) type false false.

(** A text annotation; a coordinate [None] is a NaN. *)
Record annotation : Type := mk_annotation {
  an_x : option Q;
  an_y : option Q;
  an_text : string
}.

(** A button of an update menu: its label, the visibility of the traces, and
    the title and annotations it switches to. *)
Record button : Type := mk_button {
  bt_label : string;
  bt_visible : list bool;
  bt_title : string;
  bt_annotations : list (option annotation)
}.

Record layout : Type := mk_layout {
  lo_title : option string;
  lo_xaxis : axis;
  lo_yaxis : axis;
  lo_yaxis2 : option axis;
  lo_annotations : option (list annotation);
  lo_updatemenus : list (list button)
}.

Record figure : Type := mk_figure {
  fig_data : list trace;
  fig_layout : layout
}.

Definition histogram (xs : list value) (name : option value) : trace :=
  mk_trace Histogram (Some (Col xs)) None name None None None None None.

Definition scatter (xs : tdata) (ys : tdata) (name : option value)
    (text : option (list value)) (mode : string) : trace :=
  mk_trace Scatter (Some xs) (Some ys) name text (Some mode) None None None.

(* ------------------------------------------------------------------ *)
(** ** [make_update_menu] *)

Definition make_update_menu (base_title : string)
    (article_annotations response_annotations : option annotation)
  : list (list button) :=
  [[ mk_button "both" [true; true] base_title
       [article_annotations; response_annotations];
     mk_button "articles" [true; false] ("Article " ++ base_title)%string
       [article_annotations];
     mk_button "responses" [false; true] ("Response " ++ base_title)%string
       [response_annotations] ]].

(* ------------------------------------------------------------------ *)
(** ** [make_hist] *)

Definition make_hist (df : loc) (x : string) (category : option string)
  : M figure :=
  let* data :=
    match category with
    | Some c =>
        let* t := load df in
        let* groups := lift (groupby t c) in
        lift (map_res (fun '(name, group) =>
                         let? xs := get_col group x in
                         Ok (histogram xs (Some name))) groups)
    | None =>
        let* t := load df in
        let* xs := lift (get_col t x) in
        ret [histogram xs None]
    end in
  let title :=
    match category with
    | Some c =>
        if negb (String.eqb c "")
        then (pretty x ++ " Distribution by " ++ pretty c)%string
        else (pretty x ++ " Distribution")%string
    | None => (pretty x ++ " Distribution")%string
    end in
  let layout := mk_layout (Some title) (axis_titled (pretty x) None)
                          (axis_titled "Count" None) None None [] in
  ret (mk_figure data layout).

(* ------------------------------------------------------------------ *)
(** ** [make_cum_plot]

    [y] is a column label or a list of labels; the code tells them apart by
    [len(y) == 2]. *)

Inductive ysel : Type :=
| YCol (s : string)
| YList (l : list string).

Definition py_len (y : ysel) : nat :=
  match y with YCol s => String.length s | YList l => length l end.

(** [y[i]]: a one-character string for a string, an element for a list. *)
Definition py_getitem (y : ysel) (i : nat) : result string :=
  match y with
  | YCol s =>
      match String.get i s with
      | Some c => Ok (String c EmptyString)
      | None => Err IndexError
      end
  | YList l =>
      match nth_error l i with
      | Some s => Ok s
      | None => Err IndexError
      end
  end.

(** [df[y]]. *)
Definition select (t : table) (y : ysel) : result tdata :=
  match y with
  | YCol s => let? vs := get_col t s in Ok (Col vs)
  | YList l => let? cs := map_res (get_col t) l in Ok (Frame cs)
  end.

(** [.cumsum()] on a column or, column by column, on a frame. *)
Definition cumsum_data (d : tdata) : result tdata :=
  match d with
  | Col vs => let? cs := cumsum vs in Ok (Col cs)
  | Frame cs => let? cs' := map_res cumsum cs in Ok (Frame cs')
  end.

(** [y.replace('_', ' ').title()]: lists have no [replace]. *)
Definition y_pretty (y : ysel) : result string :=
  match y with
  | YCol s => Ok (pretty s)
  | YList _ => Err AttributeError
  end.

Definition cum_trace (xs : list value) (ys : tdata) (name : option value)
    (text : list value) (yaxis : option string) (symbol : option nat) : trace :=
  mk_trace Scatter (Some (Col xs)) (Some ys) name (Some text)
           (Some "lines+markers") yaxis symbol None.

Definition make_cum_plot (df : loc) (y : ysel) (category : option string)
  : M figure :=
  let* data :=
    match category with
    | Some c =>
        let* t := load df in
        let* groups := lift (groupby t c) in
        lift (map_res_i (fun i '(name, group) =>
                let? g := sort_by group "published_date" in
                let? xs := get_col g "published_date" in
                let? ys := select g y in
                let? cys := cumsum_data ys in
                let? text := get_col g "title" in
                Ok (cum_trace xs cys (Some name) text None (Some (i + 2)%nat)))
              O groups)
    | None =>
        let* _ := sort_values_inplace df "published_date" in
        let* t := load df in
        if Nat.eqb (py_len y) 2 then
          lift (let? xs0 := get_col t "published_date" in
                let? y0 := py_getitem y 0 in
                let? c0 := get_col t y0 in
                let? s0 := cumsum c0 in
                let? text0 := get_col t "title" in
                let? xs1 := get_col t "published_date" in
                let? y1 := py_getitem y 1 in
                let? c1 := get_col t y1 in
                let? s1 := cumsum c1 in
                let? text1 := get_col t "title" in
                Ok [cum_trace xs0 (Col s0) (Some (VStr (py_title y0))) text0 None None;
                    cum_trace xs1 (Col s1) (Some (VStr (py_title y1))) text1
                              (Some "y2") None])
        else
          lift (let? xs := get_col t "published_date" in
                let? ys := select t y in
                let? cys := cumsum_data ys in
                let? text := get_col t "title" in
                Ok [cum_trace xs cys None text None None])
    end in
  let* layout :=
    lift (if Nat.eqb (py_len y) 2 then
            let? y0 := py_getitem y 0 in
            let? y1 := py_getitem y 1 in
            Ok (mk_layout
                  (Some ("Cumulative " ++ py_title y0 ++ " and " ++ py_title y1)%string)
                  (axis_titled "Published Date" (Some "date"))
                  (axis_titled (py_title y0) None)
                  (Some (axis_titled (py_title y1) None)) None [])
          else
            let? yt := y_pretty y in
            Ok (mk_layout
                  (Some match category with
                        | Some c => ("Cumulative " ++ yt ++ " by " ++ pretty c)%string
                        | None => ("Cumulative " ++ yt)%string
                        end)
                  (axis_titled "Published Date" (Some "date"))
                  (axis_titled yt None) None None [])) in
  ret (mk_figure data layout).

(* ------------------------------------------------------------------ *)
(** ** [make_scatter_plot] *)

(** plotly's check of [marker.size]: numbers of at least 0, a
    [ValueError] otherwise.  [marker.color] then holds numbers, which the
    colour scale accepts. *)
Definition marker_size_ok (v : value) : bool :=
  match v with VNum q => Qle_bool 0 q | VStr _ => false end.

Definition log_suffix (flag : bool) : string :=
  if flag then " (log scale)" else "".

Definition log_type (flag : bool) : option string :=
  if flag then Some "log" else None.

Definition make_scatter_plot (df : loc) (x y : string)
    (fits : option (list string)) (xlog ylog : bool)
    (category scale : option string) (sizeref : Q)
    (annotations : option (list annotation)) : M figure :=
  let* td :=
    match category with
    | Some c =>
        let title := (pretty y ++ " vs " ++ pretty x ++ " by " ++ pretty c)%string in
        let* t := load df in
        let* groups := lift (groupby t c) in
        let* data :=
          lift (map_res_i (fun i '(name, group) =>
                  let? xs := get_col group x in
                  let? ys := get_col group y in
                  let? text := get_col group "title" in
                  Ok (mk_trace Scatter (Some (Col xs)) (Some (Col ys)) (Some name)
                               (Some text) (Some "markers") None (Some (i + 2)%nat)
                               None))
                O groups) in
        ret (title, data)
    | None =>
        match scale with
        | Some s =>
            let title :=
              (pretty y ++ " vs " ++ pretty x ++ " Scaled by " ++ py_title s)%string in
            let* t := load df in
            let* data :=
              lift (let? xs := get_col t x in
                    let? ys := get_col t y in
                    let? text := get_col t "title" in
                    let? size := get_col t s in
                    let? color := get_col t s in
                    if forallb marker_size_ok size
                    then Ok [mk_trace Scatter (Some (Col xs)) (Some (Col ys)) None
                                      (Some text) (Some "markers") None None (Some size)]
                    else Err ValueError) in
            ret (title, data)
        | None =>
            let* _ := sort_values_inplace df x in
            let title := (pretty y ++ " vs " ++ pretty x)%string in
            let* t := load df in
            let* obs :=
              lift (let? xs := get_col t x in
                    let? ys := get_col t y in
                    let? text := get_col t "title" in
                    Ok (scatter (Col xs) (Col ys) (Some (VStr "observations"))
                                (Some text) "markers")) in
            match fits with
            | Some fs =>
                let* fit_traces :=
                  lift (map_res (fun fit =>
                                   let? xs := get_col t x in
                                   let? fv := get_col t fit in
                                   Ok (scatter (Col xs) (Col fv) (Some (VStr fit))
                                               None "lines+markers")) fs) in
                ret ((title ++ " with Fit")%string, obs :: fit_traces)
            | None => ret (title, [obs])
            end
        end
    end in
  let '(title, data) := td in
  let layout :=
    mk_layout (Some title)
              (axis_titled (pretty x ++ log_suffix xlog)%string (log_type xlog))
              (axis_titled (pretty y ++ log_suffix ylog)%string (log_type ylog))
              None annotations [] in
  ret (mk_figure data layout).

(* ------------------------------------------------------------------ *)
(** ** Numeric helpers of the fitting functions *)

(** The fields of [scipy.stats.linregress]'s result that the code reads. *)
Record linregress_result : Type := mk_linregress {
  lr_slope : Q;
  lr_intercept : Q;
  lr_rvalue : Q;
  lr_pvalue : Q
}.

(** The row of the [fit_stats] frame of [make_poly_fits]. *)
Record fit_stat : Type := mk_fit_stat {
  fs_fit : string;
  fs_rmse : Q;
  fs_params : list Q
}.

(** The [summary] returned by [make_linear_regression]: the statsmodels
    summary of the fit (here its parameters) or the [param]/[value] frame. *)
Inductive summary : Type :=
| OLSSummary (params : list Q)
| ParamTable (params : list (string * Q)).

(** [np.poly1d(z)(v)], [z] holding the highest power first. *)
Definition polyval (z : list Q) (v : Q) : Q :=
  fold_left (fun acc c => acc * v + c) z 0.

Definition fit_name (i : nat) : string := "fit degree = " ++ str_nat i.

(** [float(params)] of a one-element Series. *)
Definition float_of_params (ps : list Q) : result Q :=
  match ps with [p] => Ok p | _ => Err TypeError end.

Definition qmax (a b : Q) : Q := if Qle_bool a b then b else a.
Definition qmin (a b : Q) : Q := if Qle_bool a b then a else b.

(** [Series.max()] of a numeric column, [None] (NaN) when it is empty;
    a string column fails in the arithmetic that follows. *)
Definition num_max (vs : list value) : result (option Q) :=
  let? qs := to_floats vs in
  match qs with
  | [] => Ok None
  | q :: qs' => Ok (Some (fold_left qmax qs' q))
  end.

(** Python's [int()] of a float: truncation toward zero. *)
Definition py_int (q : Q) : Z := Z.quot (Qnum q) (Zpos (Qden q)).

(** [int(s.min())] and [int(s.max())]: the NaN of an empty column cannot
    be converted. *)
Definition int_of_min (vs : list value) : result Z :=
  let? qs := to_floats vs in
  match qs with
  | [] => Err ValueError
  | q :: qs' => Ok (py_int (fold_left qmin qs' q))
  end.

Definition int_of_max (vs : list value) : result Z :=
  let? qs := to_floats vs in
  match qs with
  | [] => Err ValueError
  | q :: qs' => Ok (py_int (fold_left qmax qs' q))
  end.

(** [np.array(range(a, b))]. *)
Definition rangeZ (a b : Z) : list Z :=
  map (fun n => (a + Z.of_nat n)%Z) (seq 0 (Z.to_nat (b - a))).

(** The builtin [max] of an array: [ValueError] when it is empty. *)
Definition builtin_max (l : list Z) : result Z :=
  match l with
  | [] => Err ValueError
  | a :: l' => Ok (fold_left Z.max l' a)
  end.

(** [data[data["response"] == v].copy()]. *)
Definition rows_where (t : table) (c : string) (v : value) : result table :=
  match col_index (columns t) c with
  | None => Err (KeyError c)
  | Some i => Ok (mk_table (columns t) (filter (fun r => veqb (cell i r) v) (rows t)))
  end.

(** Reading a key of a Python dict held as an association list. *)
Fixpoint dict_get {A} (d : list (string * A)) (k : string) : result A :=
  match d with
  | [] => Err (KeyError k)
  | (k', a) :: d' => if String.eqb k' k then Ok a else dict_get d' k
  end.

Definition with_range_controls (a : axis) : axis :=
  mk_axis (ax_title a) (ax_type a) true true.

(* ------------------------------------------------------------------ *)
(** ** The fitting functions, over the numeric libraries *)

Section Visuals.

(** [np.polyfit(x, y, deg, full=True)]: the coefficients, highest power
    first, and the residuals array. *)
Variable polyfit : list Q -> list Q -> nat -> result (list Q * list Q).

(** [np.sqrt] on floats. *)
Variable py_sqrt : Q -> Q.

(** [sm.OLS(y, x).fit().params]: least squares without a constant column. *)
Variable ols_params : list Q -> list Q -> result (list Q).

(** [scipy.stats.linregress(x, y)]. *)
Variable linregress : list Q -> list Q -> result linregress_result.

(** [f"{v:.2f}"]. *)
Variable format_2f : Q -> string.

(** The loop [for i in range(1, degree + 1)] of [make_poly_fits], with the
    three lists it appends to. *)
Fixpoint fits_loop (df : loc) (x y : string) (degrees : list nat)
    (fit_list : list string) (rmse : list Q) (fit_params : list (list Q))
  : M (list string * list Q * list (list Q)) :=
  match degrees with
  | [] => ret (fit_list, rmse, fit_params)
  | i :: degrees' =>
      let name := fit_name i in
      let fit_list' := fit_list ++ [name] in
      let* t := load df in
      let* zres := lift (let? xv := get_col t x in
                         let? yv := get_col t y in
                         let? xs := to_floats xv in
                         let? ys := to_floats yv in
                         polyfit xs ys i) in
      let '(z, res) := zres in
      let fit_params' := fit_params ++ [z] in
      let* t := load df in
      let* xs := lift (let? xv := get_col t x in to_floats xv) in
      let* _ := assign_col df name (map (fun v => VNum (polyval z v)) xs) in
      let* r := lift (match res with r :: _ => Ok r | [] => Err IndexError end) in
      fits_loop df x y degrees' fit_list' (rmse ++ [py_sqrt r]) fit_params'
  end.

Fixpoint zip3 (a : list string) (b : list Q) (c : list (list Q)) : list fit_stat :=
  match a, b, c with
  | n :: a', r :: b', p :: c' => mk_fit_stat n r p :: zip3 a' b' c'
  | _, _, _ => []
  end.

Definition make_poly_fits (df : loc) (x y : string) (degree : Z)
  : M (list fit_stat * figure) :=
  let* df := copy df in
  let* lists := fits_loop df x y (seq 1 (Z.to_nat degree)) [] [] [] in
  let '(fit_list, rmse, fit_params) := lists in
  let fit_stats := zip3 fit_list rmse fit_params in
  let* figure := make_scatter_plot df x y (Some fit_list) false false None None 2 None in
  ret (fit_stats, figure).

Definition make_linear_regression (df : loc) (x y : string) (intercept_0 : bool)
  : M (figure * summary) :=
  let* es :=
    if intercept_0 then
      let* t := load df in
      let* params := lift (let? yv := get_col t y in
                           let? xv := get_col t x in
                           let? ys := to_floats yv in
                           let? xs := to_floats xv in
                           ols_params ys xs) in
      (* fittedvalues: the exog column times the parameters *)
      let* xs := lift (let? xv := get_col t x in to_floats xv) in
      let* _ := assign_col df "fit_values"
                  (map (fun xi => VNum (xi * hd 0 params)) xs) in
      let summary := OLSSummary params in
      let* slope := lift (float_of_params params) in
      ret (("$" ++ y ++ " = " ++ format_2f slope ++ " * " ++ replace_us x ++ "$")%string,
           summary)
    else
      let* t := load df in
      let* lr := lift (let? xv := get_col t x in
                       let? yv := get_col t y in
                       let? xs := to_floats xv in
                       let? ys := to_floats yv in
                       linregress xs ys) in
      let intercept := lr_intercept lr in
      let slope := lr_slope lr in
      let summary := ParamTable [("pvalue", lr_pvalue lr); ("rvalue", lr_rvalue lr);
                                 ("slope", slope); ("intercept", intercept)] in
      let* t := load df in
      let* fit := lift (let? xv := get_col t x in
                        map_res (fun v => let? q := to_float v in
                                          Ok (VNum (q * slope + intercept))) xv) in
      let* _ := assign_col df "fit_values" fit in
      ret (("$" ++ y ++ " = " ++ format_2f slope ++ " * " ++ replace_us x ++ " + "
               ++ format_2f intercept ++ "$")%string, summary)
  in
  let '(equation, summary) := es in
  let* t := load df in
  let* mx := lift (let? xv := get_col t x in num_max xv) in
  let* my := lift (let? yv := get_col t y in num_max yv) in
  let annotations :=
    [mk_annotation (option_map (Qmult (3 # 4)) mx) (option_map (Qmult (9 # 10)) my)
                   equation] in
  let* figure := make_scatter_plot df x y (Some ["fit_values"]) false false None None 2
                                   (Some annotations) in
  ret (figure, summary).

(** The body of the regression loop of [make_iplot] on one frame: the
    fitted line over [range(int(min), int(max))] and its annotation. *)
Definition regression_part (df : table) (x y trace_name : string)
    (eq_pos : Q * Q) : result (trace * annotation) :=
  let? xv := get_col df x in
  let? yv := get_col df y in
  let? xs := to_floats xv in
  let? ys := to_floats yv in
  let? regression := linregress xs ys in
  let slope := lr_slope regression in
  let intercept := lr_intercept regression in
  let rvalue := lr_rvalue regression in
  let? lo := int_of_min xv in
  let? hi := int_of_max xv in
  let xi := rangeZ lo hi in
  let line := map (fun i => inject_Z i * slope + intercept) xi in
  let trace := mk_trace Scatter (Some (Col (map (fun i => VNum (inject_Z i)) xi)))
                        (Some (Col (map VNum line))) (Some (VStr trace_name))
                        None (Some "lines") None None None in
  let? mxi := builtin_max xi in
  let? my := num_max yv in
  Ok (trace,
      mk_annotation (Some (inject_Z mxi * fst eq_pos))
                    (option_map (fun m => m * snd eq_pos) my)
                    ("$R^2 = " ++ format_2f rvalue ++ "; Y = " ++ format_2f slope
                       ++ "X + " ++ format_2f intercept ++ "$")%string).

Definition iplot_axis (c : string) : axis := axis_titled (pretty c) None.

Definition make_iplot (data : loc) (x y base_title : string) (time : bool)
    (eq_pos : Q * Q) : M figure :=
  let* t := load data in
  let* responses := lift (rows_where t "response" (VStr "response")) in
  let* articles := lift (rows_where t "response" (VStr "article")) in
  let* pl :=
    match rows responses with
    | _ :: _ =>
        let* plot_data :=
          lift (let? ax := get_col articles x in
                let? ay := get_col articles y in
                let? atext := get_col articles "title" in
                let? rx := get_col responses x in
                let? ry := get_col responses y in
                Ok [scatter (Col ax) (Col ay) (Some (VStr "articles")) (Some atext)
                            "markers";
                    scatter (Col rx) (Col ry) (Some (VStr "responses")) None
                            "markers"]) in
        (* [annotations] is bound only by the [if not time] branch *)
        let* pa :=
          if negb time then
            let* parts :=
              lift (map_res (fun '(df, name) =>
                               let? p := regression_part df x y
                                           (name ++ " linear fit")%string eq_pos in
                               Ok (name, p))
                            [(articles, "articles"); (responses, "responses")]) in
            ret (plot_data ++ map (fun '(_, (tr, _)) => tr) parts,
                 Some (map (fun '(name, (_, an)) => (name, an)) parts))
          else ret (plot_data, None) in
        let '(plot_data, annotations_binding) := pa in
        let* annotations :=
          match annotations_binding with
          | Some a => ret a
          | None => raise (UnboundLocalError "annotations")
          end in
        let* art := lift (dict_get annotations "articles") in
        let* rsp := lift (dict_get annotations "responses") in
        ret (plot_data,
             mk_layout (Some base_title) (iplot_axis x) (iplot_axis y) None
                       (Some (map snd annotations))
                       (make_update_menu base_title (Some art) (Some rsp)))
    | [] =>
        let* obs :=
          lift (let? dx := get_col t x in
                let? dy := get_col t y in
                let? text := get_col t "title" in
                Ok (scatter (Col dx) (Col dy) (Some (VStr "observations")) (Some text)
                            "markers")) in
        let* p := lift (regression_part t x y "linear fit" eq_pos) in
        let '(trace, an) := p in
        ret ([obs; trace],
             mk_layout (Some base_title) (iplot_axis x) (iplot_axis y) None
                       (Some [an]) [])
    end in
  let '(plot_data, layout) := pl in
  if time then
    ret (mk_figure plot_data
           (mk_layout (lo_title layout) (with_range_controls (lo_xaxis layout))
                      (lo_yaxis layout) (lo_yaxis2 layout) (lo_annotations layout)
                      (lo_updatemenus layout)))
  else ret (mk_figure plot_data layout).

End Visuals.

(* ------------------------------------------------------------------ *)
(** ** Rational instances of the numeric routines

    Exact-arithmetic counterparts of the library routines, used to run the
    functions above on concrete inputs. *)

Module NumericQ.

Definition sumQ (l : list Q) : Q := fold_left Qplus l 0.

(** The Vandermonde row of [v] for degree [d], highest power first. *)
Definition vander_row (d : nat) (v : Q) : list Q :=
  map (fun k => v ^ Z.of_nat (d - k)) (seq 0 (S d)).

Definition dot (a b : list Q) : Q := sumQ (map (fun '(p, q) => p * q) (combine a b)).

Definition column (k : nat) (m : list (list Q)) : list Q := map (fun r => nth k r 0) m.

(** Gauss elimination on an augmented square system; [None] when the
    matrix is singular. *)
Fixpoint pick_pivot (m : list (list Q)) : option (list Q * list (list Q)) :=
  match m with
  | [] => None
  | r :: m' =>
      if Qeq_bool (hd 0 r) 0 then
        match pick_pivot m' with
        | Some (p, rest) => Some (p, r :: rest)
        | None => None
        end
      else Some (r, m')
  end.

Fixpoint solve (fuel : nat) (m : list (list Q)) : option (list Q) :=
  match fuel with
  | O => Some []
  | S f =>
      match m with
      | [] => Some []
      | _ =>
          match pick_pivot m with
          | None => None
          | Some (p, rest) =>
              let a := hd 0 p in
              let rest' := map (fun r => map (fun '(u, w) => Qred (w - hd 0 r / a * u))
                                              (combine (tl p) (tl r))) rest in
              match solve f rest' with
              | None => None
              | Some sol =>
                  let b := last p 0 in
                  let coeffs := removelast (tl p) in
                  Some (Qred ((b - dot coeffs sol) / a) :: sol)
              end
          end
      end
  end.

(** Least squares through the normal equations.  As numpy documents for
    [lstsq], the residuals array is empty when the rank is deficient or
    there are no more points than coefficients. *)
Definition polyfit_Q (xs ys : list Q) (d : nat) : result (list Q * list Q) :=
  match xs with
  | [] => Err TypeError
  | _ =>
      if negb (Nat.eqb (length xs) (length ys)) then Err TypeError else
      let V := map (vander_row d) xs in
      let A := map (fun j => map (fun k => dot (column j V) (column k V)) (seq 0 (S d)) ++
                             [dot (column j V) ys]) (seq 0 (S d)) in
      match solve (S d) A with
      | None => Ok (repeat 0 (S d), [])
      | Some z =>
          if (length xs <=? S d)%nat then Ok (z, [])
          else Ok (z, [Qred (sumQ (map (fun '(v, w) => (w - polyval z v) ^ 2)
                                        (combine xs ys)))])
      end
  end.

(** A square root to six decimals. *)
Definition sqrt_Q (q : Q) : Q :=
  Z.sqrt (Qnum q * Zpos (Qden q) * 10 ^ 12) # (Qden q * 10 ^ 6).

Definition ols_Q (ys xs : list Q) : result (list Q) :=
  match xs with
  | [] => Err ValueError
  | _ => Ok [Qred (dot xs ys / dot xs xs)]
  end.

(** The least-squares line; as recent scipy releases do, identical x values
    are refused.  The p-value is not computed. *)
Definition linregress_Q (xs ys : list Q) : result linregress_result :=
  match xs with
  | [] => Err ValueError
  | _ =>
      let n := inject_Z (Z.of_nat (length xs)) in
      let mx := sumQ xs / n in
      let my := sumQ ys / n in
      let sxx := sumQ (map (fun v => (v - mx) ^ 2) xs) in
      let syy := sumQ (map (fun v => (v - my) ^ 2) ys) in
      let sxy := dot (map (fun v => v - mx) xs) (map (fun v => v - my) ys) in
      if Qeq_bool sxx 0 then Err ValueError else
      let slope := Qred (sxy / sxx) in
      Ok (mk_linregress slope (Qred (my - slope * mx))
                        (if Qeq_bool syy 0 then 0 else Qred (sxy / sqrt_Q (sxx * syy))) 0)
  end.

(** [f"{q:.2f}"] on the exact value: round half to even at two decimals. *)
Definition two_digits (n : Z) : string :=
  String (str_of_nat_digit (Z.to_nat (n / 10))) (String (str_of_nat_digit (Z.to_nat (n mod 10))) "").

Definition format_2f_Q (q : Q) : string :=
  let a := Qabs q in
  let num := (Qnum a * 100)%Z in
  let den := Zpos (Qden a) in
  let fl := (num / den)%Z in
  let rm := (num mod den)%Z in
  let r := if (2 * rm <? den)%Z then fl
           else if (den <? 2 * rm)%Z then (fl + 1)%Z
           else if Z.even fl then fl else (fl + 1)%Z in
  ((if Qlt_le_dec q 0 then "-" else "") ++ str_Z (r / 100) ++ "." ++ two_digits (r mod 100))%string.

End NumericQ.

(* ------------------------------------------------------------------ *)
(** ** Sample frames *)

Module Samples.

(** Four posts: two tags, three articles and one response. *)
Definition articles : table :=
  mk_table ["published_date"; "title"; "reads"; "tag"; "response"]
    [[VNum 3; VStr "c"; VNum 5; VStr "b"; VStr "article"];
     [VNum 1; VStr "a"; VNum 2; VStr "a"; VStr "response"];
     [VNum 2; VStr "b"; VNum 7; VStr "b"; VStr "article"];
     [VNum 4; VStr "d"; VNum 1; VStr "a"; VStr "article"]].

(** Two points: as many as the coefficients of a line. *)
Definition two_points : table :=
  mk_table ["x"; "y"; "title"]
    [[VNum 0; VNum 1; VStr "p"];
     [VNum 1; VNum 3; VStr "q"]].

(** A frame with a column labelled by the empty string. *)
Definition blank_label : table :=
  mk_table ["claps"; ""]
    [[VNum 10; VStr "u"];
     [VNum 20; VStr "v"]].

(** A frame whose value column has a two-character label. *)
Definition short_label : table :=
  mk_table ["published_date"; "title"; "id"]
    [[VNum 2; VStr "b"; VNum 7];
     [VNum 1; VStr "a"; VNum 5]].

(** Three articles and no response. *)
Definition all_articles : table :=
  mk_table ["published_date"; "title"; "reads"; "response"]
    [[VNum 1; VStr "a"; VNum 2; VStr "article"];
     [VNum 2; VStr "b"; VNum 7; VStr "article"];
     [VNum 4; VStr "d"; VNum 1; VStr "article"]].

(** Two articles whose [x] values have the same integer part. *)
Definition same_integer_part : table :=
  mk_table ["x"; "y"; "title"; "response"]
    [[VNum 3; VNum 1; VStr "p"; VStr "article"];
     [VNum (7 # 2); VNum 2; VStr "q"; VStr "article"]].

(** Three articles and two responses. *)
Definition mixed : table :=
  mk_table ["published_date"; "title"; "reads"; "response"]
    [[VNum 1; VStr "a"; VNum 2; VStr "article"];
     [VNum 2; VStr "b"; VNum 7; VStr "article"];
     [VNum 4; VStr "d"; VNum 1; VStr "article"];
     [VNum 2; VStr "e"; VNum 3; VStr "response"];
     [VNum 5; VStr "f"; VNum 6; VStr "response"]].

(** A column named like the first fit of [make_poly_fits]. *)
Definition fit_named_column : table :=
  mk_table ["x"; "fit degree = 1"; "title"]
    [[VNum 0; VNum 0; VStr "a"];
     [VNum 1; VNum 1; VStr "b"];
     [VNum 2; VNum 4; VStr "c"];
     [VNum 3; VNum 9; VStr "d"]].

(** A column named like the column [make_linear_regression] writes. *)
Definition fit_values_column : table :=
  mk_table ["x"; "fit_values"; "title"]
    [[VNum 0; VNum 0; VStr "a"];
     [VNum 1; VNum 1; VStr "b"];
     [VNum 2; VNum 4; VStr "c"];
     [VNum 3; VNum 9; VStr "d"]].

(** A [tag] column mixing numbers and strings. *)
Definition mixed_tags : table :=
  mk_table ["published_date"; "title"; "reads"; "tag"]
    [[VNum 1; VStr "a"; VNum 2; VStr "b"];
     [VNum 2; VStr "b"; VNum 7; VNum 7];
     [VNum 3; VStr "c"; VNum 5; VStr "a"];
     [VNum 4; VStr "d"; VNum 1; VNum 7]].

End Samples.

(* ------------------------------------------------------------------ *)
(** * Predicates used by the properties *)

(** [m] changes no object of the store but the one at [w]. *)
Definition only_writes {A} (w : loc) (m : M A) : Prop :=
  forall st l, l <> w -> heap (snd (m st)) l = heap st l.

(** The order of cells as a relation, and its strict part. *)
Definition vle (a b : value) : Prop := vleb a b = true.

Definition vlt (a b : value) : Prop := vleb a b = true /\ veqb a b = false.

(** The order of the keys of [groupby]: a number before a string, and two
    keys of one kind by [vlt]. *)
Definition key_lt (a b : value) : Prop :=
  (is_num a = is_num b /\ vlt a b) \/ (is_num a = true /\ is_num b = false).

(** [m] leaves the whole store as it found it. *)
Definition reads_only {A} (m : M A) : Prop := forall st, snd (m st) = st.

(** The running sums of a list of numbers: the [k]-th is the sum of its
    first [k + 1] elements. *)
Definition prefix_sums (qs : list Q) : list Q :=
  map (fun k => fold_left Qplus (firstn (S k) qs) 0) (seq 0 (length qs)).

(* ------------------------------------------------------------------ *)
(** * The failure sites of the entry points

    Each predicate below lists, in the order the code makes them, the calls
    of an entry point that can raise: table lookups, sorts and groupings,
    conversions to floats, the numeric routines, plotly's checks.  It holds
    of an exception [e] when one of these calls raises [e] and every call
    made before it has returned. *)

(** The first failing call of a sequence: [r] raises [e], or it returns a
    value [a] and a later call of the sequence raises [e]. *)
Definition fails_first {A} (e : exn) (r : result A) (rest : A -> Prop) : Prop :=
  r = Err e \/ exists a, r = Ok a /\ rest a.

(** A loop whose body fails on an element [a], with [e], after running to
    the end on every element before it. *)
Definition loop_fails {A} (fails : A -> exn -> Prop) (l : list A) (e : exn) : Prop :=
  exists pre a post, l = pre ++ a :: post /\
    (forall b e', In b pre -> ~ fails b e') /\ fails a e.

(** [make_hist]: [group[x]] in the loop over the groups. *)
Definition hist_group_fails (x : string) (ng : value * table) (e : exn) : Prop :=
  get_col (snd ng) x = Err e.

Definition make_hist_fails (t : table) (x : string) (category : option string)
    (e : exn) : Prop :=
  match category with
  | Some c =>
      fails_first e (groupby t c) (fun groups => loop_fails (hist_group_fails x) groups e)
  | None => get_col t x = Err e
  end.

(** [make_cum_plot]: the body of the loop over the groups, the branch
    without category, and the layout. *)
Definition cum_group_fails (y : ysel) (ng : value * table) (e : exn) : Prop :=
  fails_first e (sort_by (snd ng) "published_date") (fun g =>
  fails_first e (get_col g "published_date") (fun _ =>
  fails_first e (select g y) (fun ys =>
  fails_first e (cumsum_data ys) (fun _ =>
  get_col g "title" = Err e)))).

Definition cum_data_fails (t : table) (y : ysel) (category : option string)
    (e : exn) : Prop :=
  match category with
  | Some c =>
      fails_first e (groupby t c) (fun groups => loop_fails (cum_group_fails y) groups e)
  | None =>
      fails_first e (sort_by t "published_date") (fun t' =>
      if Nat.eqb (py_len y) 2 then
        fails_first e (get_col t' "published_date") (fun _ =>
        fails_first e (py_getitem y 0) (fun y0 =>
        fails_first e (get_col t' y0) (fun c0 =>
        fails_first e (cumsum c0) (fun _ =>
        fails_first e (get_col t' "title") (fun _ =>
        fails_first e (get_col t' "published_date") (fun _ =>
        fails_first e (py_getitem y 1) (fun y1 =>
        fails_first e (get_col t' y1) (fun c1 =>
        fails_first e (cumsum c1) (fun _ =>
        get_col t' "title" = Err e)))))))))
      else
        fails_first e (get_col t' "published_date") (fun _ =>
        fails_first e (select t' y) (fun ys =>
        fails_first e (cumsum_data ys) (fun _ =>
        get_col t' "title" = Err e))))
  end.

Definition cum_layout_fails (y : ysel) (e : exn) : Prop :=
  if Nat.eqb (py_len y) 2
  then fails_first e (py_getitem y 0) (fun _ => py_getitem y 1 = Err e)
  else y_pretty y = Err e.

Definition make_cum_plot_fails (t : table) (y : ysel) (category : option string)
    (e : exn) : Prop :=
  cum_data_fails t y category e \/
  ((forall e', ~ cum_data_fails t y category e') /\ cum_layout_fails y e).

(** [make_scatter_plot]: the body of the loop over the groups, the scaled
    branch with plotly's check of the marker sizes, and the sorted branch
    with its loop over the fits. *)
Definition scatter_group_fails (x y : string) (ng : value * table) (e : exn) : Prop :=
  fails_first e (get_col (snd ng) x) (fun _ =>
  fails_first e (get_col (snd ng) y) (fun _ =>
  get_col (snd ng) "title" = Err e)).

Definition scatter_fit_fails (t : table) (x : string) (fit : string) (e : exn) : Prop :=
  fails_first e (get_col t x) (fun _ => get_col t fit = Err e).

Definition make_scatter_plot_fails (t : table) (x y : string)
    (fits : option (list string)) (category scale : option string) (e : exn) : Prop :=
  match category with
  | Some c =>
      fails_first e (groupby t c) (fun groups =>
        loop_fails (scatter_group_fails x y) groups e)
  | None =>
      match scale with
      | Some s =>
          fails_first e (get_col t x) (fun _ =>
          fails_first e (get_col t y) (fun _ =>
          fails_first e (get_col t "title") (fun _ =>
          fails_first e (get_col t s) (fun size =>
          fails_first e (get_col t s) (fun _ =>
          (exists v, In v size /\ marker_size_ok v = false) /\ e = ValueError)))))
      | None =>
          fails_first e (sort_by t x) (fun t' =>
          fails_first e (get_col t' x) (fun _ =>
          fails_first e (get_col t' y) (fun _ =>
          fails_first e (get_col t' "title") (fun _ =>
          match fits with
          | Some fs => loop_fails (scatter_fit_fails t' x) fs e
          | None => False
          end))))
      end
  end.

(** [make_poly_fits]: one pass of its loop on the copied frame [T], and
    the frame that pass leaves when none of its calls raises. *)
Definition fit_pass_fails
    (polyfit : list Q -> list Q -> nat -> result (list Q * list Q))
    (T : table) (x y : string) (i : nat) (e : exn) : Prop :=
  fails_first e (get_col T x) (fun xv =>
  fails_first e (get_col T y) (fun yv =>
  fails_first e (to_floats xv) (fun xs =>
  fails_first e (to_floats yv) (fun ys =>
  fails_first e (polyfit xs ys i) (fun zres =>
  fails_first e (get_col T x) (fun xv' =>
  fails_first e (to_floats xv') (fun _ =>
  snd zres = [] /\ e = IndexError))))))).

Definition fit_pass
    (polyfit : list Q -> list Q -> nat -> result (list Q * list Q))
    (T : table) (x y : string) (i : nat) : result table :=
  let? xv := get_col T x in
  let? yv := get_col T y in
  let? xs := to_floats xv in
  let? ys := to_floats yv in
  let? zres := polyfit xs ys i in
  let? xv' := get_col T x in
  let? xs' := to_floats xv' in
  match snd zres with
  | _ :: _ => Ok (set_col T (fit_name i) (map (fun v => VNum (polyval (fst zres) v)) xs'))
  | [] => Err IndexError
  end.

Fixpoint fit_frames
    (polyfit : list Q -> list Q -> nat -> result (list Q * list Q))
    (T : table) (x y : string) (ds : list nat) : result table :=
  match ds with
  | [] => Ok T
  | i :: ds' => let? T' := fit_pass polyfit T x y i in fit_frames polyfit T' x y ds'
  end.

Definition make_poly_fits_fails
    (polyfit : list Q -> list Q -> nat -> result (list Q * list Q))
    (t : table) (x y : string) (degree : Z) (e : exn) : Prop :=
  (exists ds1 i ds2 T,
     seq 1 (Z.to_nat degree) = ds1 ++ i :: ds2 /\
     fit_frames polyfit t x y ds1 = Ok T /\ fit_pass_fails polyfit T x y i e) \/
  (exists T,
     fit_frames polyfit t x y (seq 1 (Z.to_nat degree)) = Ok T /\
     make_scatter_plot_fails T x y (Some (map fit_name (seq 1 (Z.to_nat degree)))) None None e).

(** [make_linear_regression]: the two fits, then the maxima of the
    annotation and the scatter plot on the frame holding [fit_values]. *)
Definition regression_tail_fails (t : table) (x y : string) (e : exn) : Prop :=
  fails_first e (get_col t x) (fun xv =>
  fails_first e (num_max xv) (fun _ =>
  fails_first e (get_col t y) (fun yv =>
  fails_first e (num_max yv) (fun _ =>
  make_scatter_plot_fails t x y (Some ["fit_values"]) None None e)))).

Definition make_linear_regression_fails
    (ols_params : list Q -> list Q -> result (list Q))
    (linregress : list Q -> list Q -> result linregress_result)
    (t : table) (x y : string) (intercept_0 : bool) (e : exn) : Prop :=
  if intercept_0 then
    fails_first e (get_col t y) (fun yv =>
    fails_first e (get_col t x) (fun xv =>
    fails_first e (to_floats yv) (fun ys =>
    fails_first e (to_floats xv) (fun xs =>
    fails_first e (ols_params ys xs) (fun params =>
    fails_first e (get_col t x) (fun xv' =>
    fails_first e (to_floats xv') (fun xs' =>
    fails_first e (float_of_params params) (fun _ =>
    regression_tail_fails
      (set_col t "fit_values" (map (fun xi => VNum (xi * hd 0 params)) xs')) x y e))))))))
  else
    fails_first e (get_col t x) (fun xv =>
    fails_first e (get_col t y) (fun yv =>
    fails_first e (to_floats xv) (fun xs =>
    fails_first e (to_floats yv) (fun ys =>
    fails_first e (linregress xs ys) (fun lr =>
    fails_first e (get_col t x) (fun xv' =>
    fails_first e (to_floats xv') (fun xs' =>
    regression_tail_fails
      (set_col t "fit_values"
         (map (fun q => VNum (q * lr_slope lr + lr_intercept lr)) xs')) x y e))))))).

(** [make_iplot]: the regression on one frame, and the whole call. *)
Definition regression_fails
    (linregress : list Q -> list Q -> result linregress_result)
    (T : table) (x y : string) (e : exn) : Prop :=
  fails_first e (get_col T x) (fun xv =>
  fails_first e (get_col T y) (fun yv =>
  fails_first e (to_floats xv) (fun xs =>
  fails_first e (to_floats yv) (fun ys =>
  fails_first e (linregress xs ys) (fun _ =>
  fails_first e (int_of_min xv) (fun lo =>
  fails_first e (int_of_max xv) (fun hi =>
  fails_first e (builtin_max (rangeZ lo hi)) (fun _ =>
  num_max yv = Err e)))))))).

Definition make_iplot_fails
    (linregress : list Q -> list Q -> result linregress_result)
    (t : table) (x y : string) (time : bool) (e : exn) : Prop :=
  fails_first e (rows_where t "response" (VStr "response")) (fun responses =>
  fails_first e (rows_where t "response" (VStr "article")) (fun articles =>
  match rows responses with
  | _ :: _ =>
      fails_first e (get_col articles x) (fun _ =>
      fails_first e (get_col articles y) (fun _ =>
      fails_first e (get_col articles "title") (fun _ =>
      fails_first e (get_col responses x) (fun _ =>
      fails_first e (get_col responses y) (fun _ =>
      if time then e = UnboundLocalError "annotations"
      else regression_fails linregress articles x y e \/
           ((forall e', ~ regression_fails linregress articles x y e') /\
            regression_fails linregress responses x y e))))))
  | [] =>
      fails_first e (get_col t x) (fun _ =>
      fails_first e (get_col t y) (fun _ =>
      fails_first e (get_col t "title") (fun _ =>
      regression_fails linregress t x y e)))
  end)).

(* ------------------------------------------------------------------ *)
(** * Properties *)

(** ** The monad *)

Lemma bind_ok_inv {A B} (m : M A) (k : A -> M B) st b st' :
  bind m k st = (Ok b, st') ->
  exists a st0, m st = (Ok a, st0) /\ k a st0 = (Ok b, st').
Proof.
  unfold bind. destruct (m st) as [[a|e] st0]; intros H; [eauto | discriminate].
Qed.

Lemma bind_ok {A B} (m : M A) (k : A -> M B) st a st0 :
  m st = (Ok a, st0) -> bind m k st = k a st0.
Proof. unfold bind. intros ->. reflexivity. Qed.

Lemma bind_err {A B} (m : M A) (k : A -> M B) st e st0 :
  m st = (Err e, st0) -> bind m k st = (Err e, st0).
Proof. unfold bind. intros ->. reflexivity. Qed.

Lemma lift_ok {A} (a : A) st : lift (Ok a) st = (Ok a, st).
Proof. reflexivity. Qed.

Lemma lift_err {A} (e : exn) st : @lift A (Err e) st = (Err e, st).
Proof. reflexivity. Qed.

Lemma append_empty_r_local (s : string) : (s ++ "")%string = s.
Proof. induction s as [|c s IH]; cbn; [reflexivity | now rewrite IH]. Qed.

Lemma get_col_missing (t : table) (c : string) :
  col_index (columns t) c = None -> get_col t c = Err (KeyError c).
Proof. unfold get_col. intros ->. reflexivity. Qed.

Lemma get_col_present (t : table) (c : string) (i : nat) :
  col_index (columns t) c = Some i -> get_col t c = Ok (map (cell i) (rows t)).
Proof. unfold get_col. intros ->. reflexivity. Qed.

(** ** C5: the log-axis switches of [make_scatter_plot] *)

(** C5: in the figure returned by [make_scatter_plot], the x axis has type
    ['log'] exactly when [xlog] is set, and its title then ends in
    [" (log scale)"]; with [xlog] unset the type is unset and there is no
    suffix.  The same holds for the y axis and [ylog]. *)
Theorem scatter_plot_log_axes (df : loc) (x y : string)
    (fits : option (list string)) (xlog ylog : bool)
    (category scale : option string) (sizeref : Q)
    (annotations : option (list annotation)) (st st' : store) (fig : figure) :
  make_scatter_plot df x y fits xlog ylog category scale sizeref annotations st
    = (Ok fig, st') ->
  let xa := lo_xaxis (fig_layout fig) in
  let ya := lo_yaxis (fig_layout fig) in
  (ax_type xa = Some "log" <-> xlog = true) /\
  (xlog = true -> ax_title xa = Some (pretty x ++ " (log scale)")%string) /\
  (xlog = false -> ax_type xa = None /\ ax_title xa = Some (pretty x)) /\
  (ax_type ya = Some "log" <-> ylog = true) /\
  (ylog = true -> ax_title ya = Some (pretty y ++ " (log scale)")%string) /\
  (ylog = false -> ax_type ya = None /\ ax_title ya = Some (pretty y)).
Proof.
  unfold make_scatter_plot. intros H.
  apply bind_ok_inv in H. destruct H as ([title data] & st0 & _ & H).
  cbn in H. inversion H; subst; clear H. cbn.
  destruct xlog, ylog; cbn; rewrite ?append_empty_r_local;
    repeat split; intros; try congruence; try reflexivity.
Qed.

(** Runs a concrete call whose result is an existential of the goal, and
    names the resulting equation. *)
Ltac run_call E :=
  match goal with
  | |- ?A = ?B /\ _ => assert (E : A = B) by (vm_compute; reflexivity); split; [exact E|]
  end.

Lemma scatter_plot_log_axes_witness :
  exists fig st',
    make_scatter_plot 0%nat "reads" "published_date" None true false None None 2 None
      (store_of Samples.articles) = (Ok fig, st') /\
    ax_type (lo_xaxis (fig_layout fig)) = Some "log" /\
    ax_type (lo_yaxis (fig_layout fig)) = None.
Proof.
  eexists; eexists. run_call E.
  destruct (scatter_plot_log_axes _ _ _ _ _ _ _ _ _ _ _ _ _ E)
    as (Hx & _ & _ & _ & _ & Hy).
  split; [apply Hx; reflexivity | apply Hy; reflexivity].
Defined.

(** ** C4: the titles of [make_hist] *)

(** C4 (divergence): with the category given as the empty label, the data
    is grouped by that column ([category is not None]) but the title tests
    the truth of [category], so the figure is titled as if no category had
    been given: "Claps Distribution", not "Claps Distribution by ". *)
Theorem make_hist_blank_category_title :
  match fst (make_hist 0%nat "claps" (Some "") (store_of Samples.blank_label)) with
  | Ok fig =>
      length (fig_data fig) = 2%nat /\
      lo_title (fig_layout fig) = Some "Claps Distribution"
  | Err _ => False
  end.
Proof. vm_compute. split; reflexivity. Qed.

(** The titles of [make_hist] for an absent or non-empty category. *)
Lemma make_hist_titles (df : loc) (x : string) (category : option string)
    (st st' : store) (fig : figure) :
  make_hist df x category st = (Ok fig, st') ->
  category <> Some "" ->
  lo_title (fig_layout fig) =
    Some match category with
         | Some c => (pretty x ++ " Distribution by " ++ pretty c)%string
         | None => (pretty x ++ " Distribution")%string
         end /\
  ax_title (lo_xaxis (fig_layout fig)) = Some (pretty x) /\
  ax_title (lo_yaxis (fig_layout fig)) = Some "Count".
Proof.
  unfold make_hist. intros H Hc.
  apply bind_ok_inv in H. destruct H as (data & st0 & _ & H).
  cbn in H. inversion H; subst; clear H. cbn.
  destruct category as [c|]; [|auto].
  destruct (String.eqb c "") eqn:E.
  - apply String.eqb_eq in E. congruence.
  - auto.
Qed.

(** ** C1: the caller's frame *)

(** C1 (divergence): [make_cum_plot] without a category sorts the caller's
    frame in place: after the call the caller's rows are in published-date
    order. *)
Theorem make_cum_plot_sorts_caller_frame :
  heap (snd (make_cum_plot 0%nat (YCol "reads") None (store_of Samples.articles))) 0%nat
    <> Samples.articles /\
  rows (heap (snd (make_cum_plot 0%nat (YCol "reads") None
                     (store_of Samples.articles))) 0%nat)
    = [[VNum 1; VStr "a"; VNum 2; VStr "a"; VStr "response"];
       [VNum 2; VStr "b"; VNum 7; VStr "b"; VStr "article"];
       [VNum 3; VStr "c"; VNum 5; VStr "b"; VStr "article"];
       [VNum 4; VStr "d"; VNum 1; VStr "a"; VStr "article"]].
Proof. vm_compute. split; [discriminate | reflexivity]. Qed.

(** [make_linear_regression] adds its [fit_values] column to the caller's
    frame. *)
Lemma make_linear_regression_adds_caller_column :
  columns (heap (snd (make_linear_regression NumericQ.ols_Q NumericQ.linregress_Q
                        NumericQ.format_2f_Q 0%nat "published_date" "reads" true
                        (store_of Samples.articles))) 0%nat)
    = ["published_date"; "title"; "reads"; "tag"; "response"; "fit_values"].
Proof. vm_compute. reflexivity. Qed.

(** ** C2: a two-character label is read as two labels *)

(** C2 (divergence): [make_cum_plot] tests [len(y) == 2] to recognise a
    list of two labels; the label ["id"] has length 2 too, so the code looks
    up the columns ["i"] and ["d"] and raises instead of plotting the
    cumulative sum of the column ["id"]. *)
Theorem make_cum_plot_two_char_label :
  fst (make_cum_plot 0%nat (YCol "id") None (store_of Samples.short_label))
    = Err (KeyError "i").
Proof. vm_compute. reflexivity. Qed.

(** ** C6: polynomial fits *)

(** C6 (counterexamples).  With two points, the degree-1 fit has as many
    coefficients as points, numpy returns an empty residuals array, and
    [res[0]] raises [IndexError]: no fit table and no figure are returned.
    And when [y] is named like a fit ("fit degree = 1", the values of
    [x ^ 2] at 0, 1, 2, 3), the degree-1 fit overwrites column [y] with its
    line [3 x - 1] before the degree-2 fit reads it: the second row of the
    table holds the coefficients [0, 3, -1] of that line, not those of the
    degree-2 fit of the data, [1, 0, 0]. *)
Theorem make_poly_fits_counterexamples :
  fst (make_poly_fits NumericQ.polyfit_Q NumericQ.sqrt_Q 0%nat "x" "y" 1
         (store_of Samples.two_points)) = Err IndexError /\
  (exists stats fig,
     fst (make_poly_fits NumericQ.polyfit_Q NumericQ.sqrt_Q 0%nat "x" "fit degree = 1" 2
            (store_of Samples.fit_named_column)) = Ok (stats, fig) /\
     map fs_params stats = [[3; -1]; [0; 3; -1]]) /\
  get_col Samples.fit_named_column "x" = Ok (map VNum [0; 1; 2; 3]) /\
  get_col Samples.fit_named_column "fit degree = 1" = Ok (map VNum [0; 1; 4; 9]) /\
  NumericQ.polyfit_Q [0; 1; 2; 3] [0; 1; 4; 9] 2 = Ok ([1; 0; 0], [0]).
Proof.
  split; [vm_compute; reflexivity|]. split; [|vm_compute; repeat split; reflexivity].
  vm_compute. do 2 eexists. split; reflexivity.
Qed.

(** ** C9: [make_iplot] with responses and a time axis *)

Lemma col_index_In (cols : list string) (c : string) :
  In c cols -> exists i, col_index cols c = Some i.
Proof.
  induction cols as [|c' cols IH]; cbn; [tauto|].
  intros [->|H].
  - rewrite String.eqb_refl. eauto.
  - destruct (String.eqb c' c); [eauto|].
    destruct (IH H) as (i & ->). cbn. eauto.
Qed.

Lemma rows_where_columns (t t' : table) (c : string) (v : value) :
  rows_where t c v = Ok t' -> columns t' = columns t.
Proof.
  unfold rows_where. destruct (col_index (columns t) c); intros H; inversion H; reflexivity.
Qed.

Lemma get_col_In (t : table) (c : string) :
  In c (columns t) -> exists vs, get_col t c = Ok vs.
Proof.
  intros H. destruct (col_index_In _ _ H) as (i & Hi). rewrite (get_col_present _ _ _ Hi). eauto.
Qed.

Lemma rows_where_hit (t : table) (c s : string) (vs : list value) :
  get_col t c = Ok vs -> In (VStr s) vs ->
  exists t', rows_where t c (VStr s) = Ok t' /\ rows t' <> [].
Proof.
  unfold get_col, rows_where. destruct (col_index (columns t) c) as [i|]; [|discriminate].
  intros H Hin. inversion H; subst; clear H.
  eexists; split; [reflexivity|]. cbn.
  apply in_map_iff in Hin. destruct Hin as (r & Hr & Hin).
  intros Hnil. assert (In r (filter (fun r => veqb (cell i r) (VStr s)) (rows t))) as Hf.
  { apply filter_In. split; [exact Hin|]. rewrite Hr. cbn. apply String.eqb_refl. }
  rewrite Hnil in Hf. exact Hf.
Qed.

(** C9: when the frame has a row whose [response] is ["response"],
    [make_iplot] with [time] set raises: [annotations] is bound only in
    the [if not time] branch, so reading it raises [UnboundLocalError] (an
    earlier [KeyError] when a column is missing). *)
Theorem iplot_time_with_responses_raises
    (linregress : list Q -> list Q -> result linregress_result)
    (format_2f : Q -> string) (data : loc) (x y base_title : string)
    (eq_pos : Q * Q) (st : store) (vs : list value) :
  get_col (heap st data) "response" = Ok vs -> In (VStr "response") vs ->
  (exists e, fst (make_iplot linregress format_2f data x y base_title true eq_pos st) = Err e) /\
  (In x (columns (heap st data)) -> In y (columns (heap st data)) ->
   In "title" (columns (heap st data)) ->
   fst (make_iplot linregress format_2f data x y base_title true eq_pos st)
     = Err (UnboundLocalError "annotations")).
Proof.
  intros Hc Hin.
  destruct (rows_where_hit _ _ _ _ Hc Hin) as (resp & Hr & Hne).
  unfold make_iplot.
  rewrite (bind_ok _ _ st (heap st data) st) by reflexivity.
  rewrite (bind_ok _ _ st resp st) by (rewrite Hr; reflexivity).
  destruct (rows_where (heap st data) "response" (VStr "article")) as [arts|e] eqn:Ha;
    [| split; [eexists; unfold bind; cbn; reflexivity
              | exfalso; unfold rows_where in Ha, Hr;
                destruct col_index; discriminate]].
  rewrite (bind_ok _ _ st arts st) by reflexivity.
  destruct (rows resp) as [|r0 rs] eqn:Hrows; [congruence|].
  split.
  - unfold bind, lift, ret, raise; cbn.
    repeat match goal with
           | |- context [match ?r with Ok _ => _ | Err _ => _ end] => destruct r; cbn
           end; eauto.
  - intros Hx Hy Ht.
    pose proof (rows_where_columns _ _ _ _ Ha) as Ca.
    pose proof (rows_where_columns _ _ _ _ Hr) as Cr.
    destruct (get_col_In arts x) as (ax & Hax); [congruence|].
    destruct (get_col_In arts y) as (ay & Hay); [congruence|].
    destruct (get_col_In arts "title") as (at' & Hat); [congruence|].
    destruct (get_col_In resp x) as (rx & Hrx); [congruence|].
    destruct (get_col_In resp y) as (ry & Hry); [congruence|].
    unfold bind, lift, ret, raise; cbn.
    rewrite Hax, Hay, Hat, Hrx, Hry. reflexivity.
Qed.

Lemma iplot_time_with_responses_raises_witness :
  fst (make_iplot NumericQ.linregress_Q NumericQ.format_2f_Q 0%nat "published_date" "reads"
         "Reads" true (3 # 4, 1 # 4) (store_of Samples.articles))
    = Err (UnboundLocalError "annotations").
Proof.
  refine (proj2 (iplot_time_with_responses_raises NumericQ.linregress_Q NumericQ.format_2f_Q
                   0%nat "published_date" "reads" "Reads" (3 # 4, 1 # 4)
                   (store_of Samples.articles)
                   [VStr "article"; VStr "response"; VStr "article"; VStr "article"]
                   _ _) _ _ _).
  - vm_compute. reflexivity.
  - cbn. tauto.
  - cbn. tauto.
  - cbn. tauto.
  - cbn. tauto.
Defined.

(** ** Which objects a computation writes *)

Lemma only_writes_ret {A} w (a : A) : only_writes w (ret a).
Proof. intros st l _. reflexivity. Qed.

Lemma only_writes_raise {A} w e : only_writes w (@raise A e).
Proof. intros st l _. reflexivity. Qed.

Lemma only_writes_lift {A} w (r : result A) : only_writes w (lift r).
Proof. destruct r; intros st l _; reflexivity. Qed.

Lemma only_writes_load w l0 : only_writes w (load l0).
Proof. intros st l _. reflexivity. Qed.

Lemma only_writes_store_at w t : only_writes w (store_at w t).
Proof.
  intros st l Hl. cbn. destruct (Nat.eqb l w) eqn:E; [|reflexivity].
  apply Nat.eqb_eq in E. congruence.
Qed.

Lemma only_writes_bind {A B} w (m : M A) (k : A -> M B) :
  only_writes w m -> (forall a, only_writes w (k a)) -> only_writes w (bind m k).
Proof.
  intros Hm Hk st l Hl. unfold bind.
  specialize (Hm st l Hl). destruct (m st) as [[a|e] st0] eqn:E; cbn in *.
  - rewrite Hk by exact Hl. exact Hm.
  - exact Hm.
Qed.

Create HintDb writes.

#[local] Hint Resolve only_writes_ret only_writes_raise only_writes_lift only_writes_load
  only_writes_store_at : writes.

Ltac writes_tac :=
  repeat match goal with
         | |- only_writes _ (bind _ _) => apply only_writes_bind; [|intros ?]
         | |- only_writes _ (match ?x with _ => _ end) => destruct x
         | |- only_writes _ (let '(_, _) := ?x in _) => destruct x
         | |- only_writes _ (if ?b then _ else _) => destruct b
         | |- only_writes _ _ => solve [eauto with writes]
         | |- only_writes _ _ => progress unfold sort_values_inplace, assign_col
         end.

Lemma only_writes_sort_values w c : only_writes w (sort_values_inplace w c).
Proof. writes_tac. Qed.

Lemma only_writes_assign_col w c vals : only_writes w (assign_col w c vals).
Proof. writes_tac. Qed.

#[local] Hint Resolve only_writes_sort_values only_writes_assign_col : writes.

Lemma only_writes_scatter_plot df x y fits xlog ylog category scale sizeref annotations :
  only_writes df (make_scatter_plot df x y fits xlog ylog category scale sizeref annotations).
Proof. unfold make_scatter_plot. writes_tac. Qed.

Lemma only_writes_fits_loop polyfit py_sqrt df x y degrees fit_list rmse fit_params :
  only_writes df (fits_loop polyfit py_sqrt df x y degrees fit_list rmse fit_params).
Proof.
  revert fit_list rmse fit_params.
  induction degrees as [|i degrees IH]; intros; cbn [fits_loop]; writes_tac.
Qed.

(** ** C10: [make_poly_fits] works on a copy *)

(** C10: whatever its outcome, [make_poly_fits] leaves the caller's frame as
    it was: the fit columns and the sort of the nested [make_scatter_plot]
    go to the copy. *)
Theorem make_poly_fits_keeps_caller_frame polyfit py_sqrt (df : loc) (x y : string)
    (degree : Z) (st : store) :
  (df < next st)%nat ->
  heap (snd (make_poly_fits polyfit py_sqrt df x y degree st)) df = heap st df.
Proof.
  intros Hdf. unfold make_poly_fits.
  unfold bind at 1. cbn [copy].
  set (st1 := snd (copy df st)).
  assert (Hc : copy df st = (Ok (next st), st1)) by reflexivity.
  rewrite Hc.
  assert (Hw : only_writes (next st)
                 (let* lists := fits_loop polyfit py_sqrt (next st) x y
                                  (seq 1 (Z.to_nat degree)) [] [] [] in
                  let '(fit_list, rmse, fit_params) := lists in
                  let* figure := make_scatter_plot (next st) x y (Some fit_list) false false
                                   None None 2 None in
                  ret (zip3 fit_list rmse fit_params, figure))).
  { apply only_writes_bind; [apply only_writes_fits_loop|].
    intros [[fl rm] fp]. apply only_writes_bind;
      [apply only_writes_scatter_plot | intros; apply only_writes_ret]. }
  rewrite (Hw st1 df) by lia.
  subst st1. cbn. destruct (Nat.eqb df (next st)) eqn:E; [|reflexivity].
  apply Nat.eqb_eq in E. lia.
Qed.

Lemma make_poly_fits_keeps_caller_frame_witness :
  (0 < next (store_of Samples.articles))%nat /\
  heap (snd (make_poly_fits NumericQ.polyfit_Q NumericQ.sqrt_Q 0%nat "published_date" "reads" 2
               (store_of Samples.articles))) 0%nat = Samples.articles.
Proof.
  split; [cbn; lia|].
  apply (make_poly_fits_keeps_caller_frame NumericQ.polyfit_Q NumericQ.sqrt_Q 0%nat
           "published_date" "reads" 2 (store_of Samples.articles)).
  cbn. lia.
Defined.

(** ** C8: failures are not caught *)

Ltac unfold_calls := unfold make_hist, make_cum_plot, make_scatter_plot, make_linear_regression, make_iplot, bind, lift, ret, raise, load, copy, alloc, sort_values_inplace, store_at, assign_col; cbn -[get_col groupby sort_by rows_where].

(** Closes [chain = Err e -> sites] for a chain of calls and the list of
    its failure sites, running the calls one after the other. *)
Ltac sites_of_err :=
  repeat match goal with
  | E : ?r = Ok ?a |- _ -> ?r = Err _ \/ (exists _, ?r = Ok _ /\ _) =>
      let Hk := fresh "Hk" in
      intros Hk; right; exists a; split; [exact E|]; cbn beta; revert Hk
  | |- _ -> Ok ?a = Err _ \/ (exists _, Ok ?a = Ok _ /\ _) =>
      let Hk := fresh "Hk" in
      intros Hk; right; exists a; split; [reflexivity|]; cbn beta; revert Hk
  | |- res_bind ?r _ = Err _ -> ?r = Err _ =>
      destruct r; cbn [res_bind]; [intros [=] | intros [= <-]; reflexivity]
  | |- res_bind ?r _ = Err _ -> _ =>
      let E := fresh "E" in let Hk := fresh "Hk" in
      destruct r as [?a|?e0] eqn:E; cbn [res_bind];
      [ intros Hk; right; eexists; split; [reflexivity|]; cbn beta; revert Hk
      | intros [= <-]; left; reflexivity ]
  end;
  try solve [intros [=]]; try (intros [= <-]; reflexivity).

(** Runs the first call of a list of failure sites in the goal. *)
Ltac err_step H :=
  match type of H with
  | fails_first _ ?r _ =>
      let E := fresh "E" in
      destruct H as [E|(? & E & H)]; rewrite ?E; cbn [res_bind];
      [try reflexivity; try congruence|]
  end.

(** Runs the calls of a list of failure sites up to the failing one. *)
Ltac err_of_sites H := repeat err_step H.

Lemma map_res_loop_fails {A B} (f : A -> result B) (fails : A -> exn -> Prop) l e :
  (forall a e', fails a e' -> f a = Err e') ->
  (forall a e', f a = Err e' -> fails a e') ->
  loop_fails fails l e -> map_res f l = Err e.
Proof.
  intros Hs Hc (pre & a & post & -> & Hpre & Ha).
  induction pre as [|b pre IH]; cbn.
  - rewrite (Hs _ _ Ha). reflexivity.
  - destruct (f b) as [v|e'] eqn:Eb.
    + cbn. rewrite IH; [reflexivity|]. intros; apply Hpre; right; assumption.
    + exfalso. apply (Hpre b e'); [left; reflexivity | apply Hc; exact Eb].
Qed.

Lemma map_res_i_loop_fails {A B} (f : nat -> A -> result B) (fails : A -> exn -> Prop)
    i l e :
  (forall i a e', fails a e' -> f i a = Err e') ->
  (forall i a e', f i a = Err e' -> fails a e') ->
  loop_fails fails l e -> map_res_i f i l = Err e.
Proof.
  intros Hs Hc (pre & a & post & -> & Hpre & Ha). revert i.
  induction pre as [|b pre IH]; intros i; cbn.
  - rewrite (Hs _ _ _ Ha). reflexivity.
  - destruct (f i b) as [v|e'] eqn:Eb.
    + cbn. rewrite IH; [reflexivity|]. intros; apply Hpre; right; assumption.
    + exfalso. apply (Hpre b e'); [left; reflexivity | apply (Hc i); exact Eb].
Qed.

Lemma make_hist_propagates df x category st e :
  make_hist_fails (heap st df) x category e -> fst (make_hist df x category st) = Err e.
Proof.
  destruct category as [c|]; unfold make_hist_fails; intros H.
  - destruct H as [E|(groups & E & H)]; unfold_calls; rewrite E; cbn; [reflexivity|].
    erewrite map_res_loop_fails; [reflexivity| | |exact H].
    + intros [n g] e' He. cbn. unfold hist_group_fails in He. cbn in He. rewrite He. reflexivity.
    + intros [n g] e'. unfold hist_group_fails. cbn. sites_of_err.
  - unfold_calls. rewrite H. reflexivity.
Qed.

Lemma make_scatter_plot_propagates df x y fits xlog ylog category scale sizeref
    annotations st e :
  make_scatter_plot_fails (heap st df) x y fits category scale e ->
  fst (make_scatter_plot df x y fits xlog ylog category scale sizeref annotations st)
    = Err e.
Proof.
  unfold make_scatter_plot_fails. intros H.
  destruct category as [c|].
  - destruct H as [E|(groups & E & H)]; unfold_calls; rewrite E; cbn; [reflexivity|].
    erewrite map_res_i_loop_fails; [reflexivity| | |exact H].
    + intros i [n g] e' He. unfold scatter_group_fails in He. cbn in He |- *.
      err_of_sites He. rewrite He. reflexivity.
    + intros i [n g] e'. unfold scatter_group_fails, fails_first. cbn. sites_of_err.
  - destruct scale as [s|].
    + unfold_calls. err_of_sites H. destruct H as [(v & Hv & Hsz) ->].
      match goal with E : ?r = Ok ?a, E' : ?r = Ok ?b |- _ =>
        assert (a = b) by congruence; subst end.
      replace (forallb marker_size_ok _) with false; [reflexivity|].
      symmetry. apply not_true_iff_false. rewrite forallb_forall. intros Hall.
      rewrite (Hall v Hv) in Hsz. discriminate.
    + unfold_calls. destruct H as [E|(t' & E & H)]; rewrite E; cbn; [reflexivity|].
      unfold store_at. cbn. rewrite Nat.eqb_refl.
      err_of_sites H. destruct fits as [fs|]; [|destruct H].
      erewrite map_res_loop_fails; [reflexivity| | |exact H].
      * intros fit e' He. unfold scatter_fit_fails in He. err_of_sites He.
        rewrite He. reflexivity.
      * intros fit e'. unfold scatter_fit_fails, fails_first. sites_of_err.
Qed.

Lemma loop_fails_cons {A} (fails : A -> exn -> Prop) a l e :
  (forall e', ~ fails a e') -> loop_fails fails l e -> loop_fails fails (a :: l) e.
Proof.
  intros Ha (pre & b & post & -> & Hpre & Hb).
  exists (a :: pre), b, post. split; [reflexivity|]. split; [|exact Hb].
  intros c e' [<-|Hc]; [apply Ha | exact (Hpre c e' Hc)].
Qed.

Lemma map_res_i_loop_ok {A B} (f : nat -> A -> result B) (fails : A -> exn -> Prop) i l :
  (forall i a e', f i a = Err e' -> fails a e') ->
  (forall e', ~ loop_fails fails l e') -> exists bs, map_res_i f i l = Ok bs.
Proof.
  intros Hc Hno. revert i. induction l as [|a l IH]; intros i; cbn; [eauto|].
  assert (Ha : forall e', ~ fails a e').
  { intros e' Hf. apply (Hno e'). exists [], a, l. split; [reflexivity|].
    split; [intros ? ? []|exact Hf]. }
  destruct (f i a) as [b|e'] eqn:Ea.
  - destruct (IH (fun e'' Hl => Hno e'' (loop_fails_cons _ _ _ _ Ha Hl)) (S i)) as (bs & Hbs).
    rewrite Hbs. cbn. eauto.
  - exfalso. apply (Ha e'). apply (Hc i). exact Ea.
Qed.

Lemma cum_group_complete y i ng e :
  (let '(name, group) := ng in
   let? g := sort_by group "published_date" in
   let? xs := get_col g "published_date" in
   let? ys := select g y in
   let? cys := cumsum_data ys in
   let? text := get_col g "title" in
   Ok (cum_trace xs cys (Some name) text None (Some (i + 2)%nat))) = Err e ->
  cum_group_fails y ng e.
Proof.
  destruct ng as [n g]. unfold cum_group_fails, fails_first. cbn [snd]. sites_of_err.
Qed.

Lemma make_cum_plot_propagates df y category st e :
  make_cum_plot_fails (heap st df) y category e -> fst (make_cum_plot df y category st) = Err e.
Proof.
  unfold make_cum_plot_fails. intros [H|[Hno H]].
  - destruct category as [c|].
    + destruct H as [E|(groups & E & H)]; unfold_calls; rewrite E; cbn; [reflexivity|].
      erewrite map_res_i_loop_fails; [reflexivity| | |exact H].
      * intros i [n g] e' He. unfold cum_group_fails in He. cbn in He |- *.
        err_of_sites He. rewrite He. reflexivity.
      * intros i ng e'. apply cum_group_complete.
    + cbn in H. unfold_calls.
      destruct H as [E|(t' & E & H)]; rewrite E; cbn; [reflexivity|].
      rewrite Nat.eqb_refl. destruct (py_len y =? 2)%nat; err_of_sites H; first [rewrite H; reflexivity | congruence].
  - unfold cum_layout_fails in H. destruct category as [c|].
    + destruct (groupby (heap st df) c) as [groups|e0] eqn:E;
        [|exfalso; apply (Hno e0); left; exact E].
      unfold_calls. rewrite E. cbn.
      match goal with |- context [map_res_i ?f O groups] =>
        destruct (map_res_i_loop_ok f (cum_group_fails y) O groups) as (bs & Hbs) end.
      { intros i ng e'. apply cum_group_complete. }
      { intros e' Hl; apply (Hno e'); right; exists groups; split; [exact E | exact Hl]. }
      rewrite Hbs. cbn.
      destruct (py_len y =? 2)%nat; err_of_sites H; first [rewrite H; reflexivity | congruence].
    + destruct (sort_by (heap st df) "published_date") as [t'|e0] eqn:E;
        [|exfalso; apply (Hno e0); left; exact E].
      unfold_calls. rewrite E. cbn. rewrite Nat.eqb_refl.
      destruct (py_len y =? 2)%nat eqn:Hl.
      * match goal with |- context [match ?c with Ok _ => _ | Err _ => _ end] =>
          destruct c eqn:Ec end.
        -- cbn. err_of_sites H; first [rewrite H; reflexivity | congruence].
        -- exfalso; apply (Hno e0); right; exists t'; split; [exact E|].
           rewrite Hl. unfold fails_first. revert Ec. sites_of_err.
      * match goal with |- context [match ?c with Ok _ => _ | Err _ => _ end] =>
          destruct c eqn:Ec end.
        -- cbn. rewrite H. reflexivity.
        -- exfalso; apply (Hno e0); right; exists t'; split; [exact E|].
           rewrite Hl. unfold fails_first. revert Ec. sites_of_err.
Qed.

Section PolyFits.
Variable polyfit : list Q -> list Q -> nat -> result (list Q * list Q).
Variable py_sqrt : Q -> Q.

Lemma fit_pass_complete T x y i e :
  fit_pass polyfit T x y i = Err e -> fit_pass_fails polyfit T x y i e.
Proof.
  unfold fit_pass, fit_pass_fails, fails_first. sites_of_err.
  match goal with |- context [snd ?z] => destruct (snd z) end;
    [intros [= <-]; split; reflexivity | intros [=]].
Qed.

Lemma fits_loop_pass (c : loc) x y i ds fl rm fp st T' :
  fit_pass polyfit (heap st c) x y i = Ok T' ->
  exists rm' fp' st',
    fits_loop polyfit py_sqrt c x y (i :: ds) fl rm fp st
      = fits_loop polyfit py_sqrt c x y ds (fl ++ [fit_name i]) rm' fp' st' /\
    heap st' c = T'.
Proof.
  unfold fit_pass. intros H. unfold res_bind in H.
  repeat match type of H with
  | context [match ?r with Ok _ => _ | Err _ => _ end] =>
      let E := fresh "E" in destruct r eqn:E; [|discriminate H]
  end.
  match type of H with context [snd ?p] => destruct p as [z res] end. cbn [fst snd] in H.
  destruct res as [|r0 res]; [discriminate H|]. injection H as <-.
  do 3 eexists. split.
  - cbn [fits_loop]. unfold bind, load, lift, ret, raise, assign_col, store_at.
    repeat match goal with E : ?r = Ok _ |- context [?r] => rewrite E; cbn [res_bind] end.
    cbn beta iota. reflexivity.
  - cbn. now rewrite Nat.eqb_refl.
Qed.
Lemma fits_loop_pass_fails (c : loc) x y i ds fl rm fp st e :
  fit_pass_fails polyfit (heap st c) x y i e ->
  fst (fits_loop polyfit py_sqrt c x y (i :: ds) fl rm fp st) = Err e.
Proof.
  unfold fit_pass_fails. intros H.
  cbn [fits_loop]. unfold bind, load, lift, ret, raise, assign_col, store_at.
  err_of_sites H.
  destruct H as [Hr ->].
  match goal with E : polyfit _ _ _ = Ok ?p |- _ => destruct p as [z res] end.
  cbn [snd] in Hr. subst res.
  repeat match goal with E : ?r = Ok _ |- context [?r] => rewrite E; cbn [res_bind] end.
  reflexivity.
Qed.

Lemma fits_loop_frames_fails (c : loc) x y ds1 i ds2 fl rm fp st T e :
  fit_frames polyfit (heap st c) x y ds1 = Ok T ->
  fit_pass_fails polyfit T x y i e ->
  fst (fits_loop polyfit py_sqrt c x y (ds1 ++ i :: ds2) fl rm fp st) = Err e.
Proof.
  revert fl rm fp st. induction ds1 as [|j ds1 IH]; intros fl rm fp st Hf Hp; cbn in Hf.
  - injection Hf as <-. apply fits_loop_pass_fails. exact Hp.
  - destruct (fit_pass polyfit (heap st c) x y j) as [T1|e1] eqn:Ej; cbn in Hf; [|discriminate].
    destruct (fits_loop_pass c x y j (ds1 ++ i :: ds2) fl rm fp st T1 Ej)
      as (rm' & fp' & st' & Hrun & Hh).
    cbn [app]. rewrite Hrun. apply IH; [rewrite Hh; exact Hf | exact Hp].
Qed.

Lemma fits_loop_frames_ok (c : loc) x y ds fl rm fp st T :
  fit_frames polyfit (heap st c) x y ds = Ok T ->
  exists (rm' : list Q) (fp' : list (list Q)) (st' : store),
    fits_loop polyfit py_sqrt c x y ds fl rm fp st
      = (Ok (fl ++ map fit_name ds, rm', fp'), st') /\ heap st' c = T.
Proof.
  revert fl rm fp st. induction ds as [|j ds IH]; intros fl rm fp st Hf; cbn in Hf.
  - injection Hf as <-. exists rm, fp, st. rewrite app_nil_r. split; reflexivity.
  - destruct (fit_pass polyfit (heap st c) x y j) as [T1|e1] eqn:Ej; cbn in Hf; [|discriminate].
    destruct (fits_loop_pass c x y j ds fl rm fp st T1 Ej) as (rm1 & fp1 & st1 & Hrun & Hh).
    rewrite Hrun. rewrite <- Hh in Hf. destruct (IH (fl ++ [fit_name j]) rm1 fp1 st1 Hf) as (rm' & fp' & st' & Hr & Hh').
    exists rm', fp', st'. rewrite Hr, <- app_assoc. split; [reflexivity | exact Hh'].
Qed.

Lemma make_poly_fits_propagates df x y degree st e :
  make_poly_fits_fails polyfit (heap st df) x y degree e ->
  fst (make_poly_fits polyfit py_sqrt df x y degree st) = Err e.
Proof.
  unfold make_poly_fits. intros H.
  set (st1 := snd (copy df st)).
  assert (Hc : copy df st = (Ok (next st), st1)) by reflexivity.
  assert (H1 : heap st1 (next st) = heap st df) by (cbn; now rewrite Nat.eqb_refl).
  rewrite (bind_ok _ _ _ _ _ Hc). clearbody st1.
  destruct H as [(ds1 & i & ds2 & T & Hseq & Hf & Hp) | (T & Hf & Hs)].
  - rewrite Hseq. rewrite <- H1 in Hf.
    pose proof (fits_loop_frames_fails (next st) x y ds1 i ds2 [] [] [] st1 T e Hf Hp) as Hl.
    unfold bind at 1. destruct (fits_loop _ _ _ _ _ _ _ _ _ st1) as [r st2]. cbn in Hl. subst r.
    reflexivity.
  - rewrite <- H1 in Hf.
    destruct (fits_loop_frames_ok (next st) x y _ [] [] [] st1 T Hf) as (rm & fp & st2 & Hr & Hh).
    rewrite (bind_ok _ _ _ _ _ Hr). cbn beta iota.
    pose proof (make_scatter_plot_propagates (next st) x y
                  (Some ([] ++ map fit_name (seq 1 (Z.to_nat degree)))) false false None None 2
                  None st2 e) as Hsc.
    rewrite Hh in Hsc. specialize (Hsc Hs).
    unfold bind at 1. destruct (make_scatter_plot _ _ _ _ _ _ _ _ _ _ st2) as [r st3].
    cbn in Hsc. subst r. reflexivity.
Qed.
End PolyFits.

Lemma map_res_to_floats (f : Q -> value) (l : list value) :
  map_res (fun v => let? q := to_float v in Ok (f q)) l =
  let? qs := to_floats l in Ok (map f qs).
Proof.
  unfold to_floats. induction l as [|v l IH]; cbn; [reflexivity|].
  destruct (to_float v); cbn; [|reflexivity].
  rewrite IH. destruct (map_res to_float l); reflexivity.
Qed.

Ltac merge_ok :=
  repeat match goal with
  | E : ?r = Ok ?a, E' : ?r = Ok ?b |- _ =>
      assert_fails (constr_eq a b);
      let Heq := fresh "Heq" in
      assert (Heq : b = a) by congruence; subst b; clear E'
  end.

(** The scatter plot called at the end of a function raises what its own
    calls raise. *)
Ltac scatter_tail H :=
  match goal with
  | |- context [make_scatter_plot ?a ?b ?c ?d ?e1 ?f ?g ?h ?i ?j ?s] =>
      let Hsc := fresh "Hsc" in
      pose proof (make_scatter_plot_propagates a b c d e1 f g h i j s) as Hsc;
      cbn [heap] in Hsc; rewrite ?Nat.eqb_refl in Hsc;
      specialize (Hsc _ H);
      destruct (make_scatter_plot a b c d e1 f g h i j s) as [?r ?st'];
      cbn in Hsc; subst; reflexivity
  end.

Section Regression.
Variable ols_params : list Q -> list Q -> result (list Q).
Variable linregress : list Q -> list Q -> result linregress_result.
Variable format_2f : Q -> string.

Lemma make_linear_regression_propagates df x y intercept_0 st e :
  make_linear_regression_fails ols_params linregress (heap st df) x y intercept_0 e ->
  fst (make_linear_regression ols_params linregress format_2f df x y intercept_0 st) = Err e.
Proof.
  unfold make_linear_regression_fails. intros H.
  unfold make_linear_regression, bind, lift, ret, raise, load, assign_col, store_at.
  destruct intercept_0.
  - cbn -[get_col to_floats num_max float_of_params set_col make_scatter_plot].
    err_of_sites H. merge_ok. cbn [heap]. rewrite Nat.eqb_refl.
    unfold regression_tail_fails in H. err_of_sites H. scatter_tail H.
  - cbn -[get_col to_floats num_max set_col make_scatter_plot].
    do 5 err_step H.
    cbn -[get_col to_floats num_max set_col make_scatter_plot map_res].
    err_step H. rewrite map_res_to_floats.
    err_of_sites H. merge_ok. cbn [heap]. rewrite Nat.eqb_refl.
    unfold regression_tail_fails in H. err_of_sites H. scatter_tail H.
Qed.
End Regression.

Section Iplot.
Variable linregress : list Q -> list Q -> result linregress_result.
Variable format_2f : Q -> string.

Lemma regression_part_complete T x y name eq_pos e :
  regression_part linregress format_2f T x y name eq_pos = Err e ->
  regression_fails linregress T x y e.
Proof.
  unfold regression_part, regression_fails, fails_first. cbv zeta. sites_of_err.
Qed.

Lemma regression_part_propagates T x y name eq_pos e :
  regression_fails linregress T x y e ->
  regression_part linregress format_2f T x y name eq_pos = Err e.
Proof.
  unfold regression_fails, regression_part. cbv zeta. intros H.
  err_of_sites H. first [rewrite H; reflexivity | congruence].
Qed.

Lemma make_iplot_propagates data x y base_title time eq_pos st e :
  make_iplot_fails linregress (heap st data) x y time e ->
  fst (make_iplot linregress format_2f data x y base_title time eq_pos st) = Err e.
Proof.
  unfold make_iplot_fails. intros H.
  unfold make_iplot, bind, lift, ret, raise, load.
  cbn -[get_col rows_where regression_part].
  do 2 err_step H.
  match type of H with context [rows ?r] => destruct (rows r) as [|row rs] eqn:Er end.
  - cbn -[get_col rows_where regression_part]. do 3 err_step H.
    rewrite (regression_part_propagates _ _ _ _ _ _ H). reflexivity.
  - cbn -[get_col rows_where regression_part]. do 5 err_step H.
    destruct time.
    + subst e. reflexivity.
    + cbn -[get_col rows_where regression_part]. destruct H as [H|[Hno H]].
      * rewrite (regression_part_propagates _ _ _ _ _ _ H). reflexivity.
      * match goal with |- context [regression_part linregress format_2f ?a x y ?n eq_pos] =>
          destruct (regression_part linregress format_2f a x y n eq_pos) as [p|e0] eqn:Ea;
          [|exfalso; apply (Hno e0); exact (regression_part_complete _ _ _ _ _ _ Ea)] end.
        cbn -[get_col rows_where regression_part].
        rewrite (regression_part_propagates _ _ _ _ _ _ H). reflexivity.
Qed.
End Iplot.

(** C8: nothing in the module catches or converts a failure.  For every
    entry point and every input, when one of the calls the function makes
    raises an exception [e] after every call made before it has returned,
    the function raises that same [e] and returns no figure.  The calls are
    listed, in the order the code makes them, by [make_hist_fails],
    [make_cum_plot_fails], [make_scatter_plot_fails],
    [make_poly_fits_fails], [make_linear_regression_fails] and
    [make_iplot_fails]: every column lookup (a missing label raises
    [KeyError]), every sort and grouping, every conversion of a column to
    floats and every cumulative sum (a type mismatch raises [TypeError]),
    the indexing of [y] and of the residuals [res], every call of numpy,
    scipy and statsmodels and of [Series.max], [int] and [max], plotly's
    check of the marker sizes, the read of the unbound [annotations], and
    the calls of the nested [make_scatter_plot].  (The two reads of the
    dictionary [annotations] in [make_iplot] read the keys written just
    before and cannot fail.) *)
Theorem failures_propagate
    (polyfit : list Q -> list Q -> nat -> result (list Q * list Q))
    (py_sqrt : Q -> Q) (ols_params : list Q -> list Q -> result (list Q))
    (linregress : list Q -> list Q -> result linregress_result)
    (format_2f : Q -> string) (st : store) (df : loc) (e : exn) :
  (forall x category,
     make_hist_fails (heap st df) x category e ->
     fst (make_hist df x category st) = Err e) /\
  (forall y category,
     make_cum_plot_fails (heap st df) y category e ->
     fst (make_cum_plot df y category st) = Err e) /\
  (forall x y fits xlog ylog category scale sizeref annotations,
     make_scatter_plot_fails (heap st df) x y fits category scale e ->
     fst (make_scatter_plot df x y fits xlog ylog category scale sizeref annotations st)
       = Err e) /\
  (forall x y degree,
     make_poly_fits_fails polyfit (heap st df) x y degree e ->
     fst (make_poly_fits polyfit py_sqrt df x y degree st) = Err e) /\
  (forall x y intercept_0,
     make_linear_regression_fails ols_params linregress (heap st df) x y intercept_0 e ->
     fst (make_linear_regression ols_params linregress format_2f df x y intercept_0 st)
       = Err e) /\
  (forall x y base_title time eq_pos,
     make_iplot_fails linregress (heap st df) x y time e ->
     fst (make_iplot linregress format_2f df x y base_title time eq_pos st) = Err e).
Proof.
  split; [intros; now apply make_hist_propagates|].
  split; [intros; now apply make_cum_plot_propagates|].
  split; [intros; now apply make_scatter_plot_propagates|].
  split; [intros; now apply make_poly_fits_propagates|].
  split; [intros; now apply make_linear_regression_propagates|].
  intros; now apply make_iplot_propagates.
Qed.

(** Proves a list of failure sites on a concrete frame, site by site. *)
Ltac chain_step :=
  first [ left; reflexivity | right; eexists; split; [reflexivity|] ].

Lemma failures_propagate_witness :
  make_hist_fails Samples.articles "reads" (Some "nope") (KeyError "nope") /\
  fst (make_hist 0%nat "reads" (Some "nope") (store_of Samples.articles))
    = Err (KeyError "nope") /\
  make_cum_plot_fails Samples.articles (YCol "nope") None (KeyError "nope") /\
  fst (make_cum_plot 0%nat (YCol "nope") None (store_of Samples.articles))
    = Err (KeyError "nope") /\
  make_scatter_plot_fails Samples.articles "published_date" "reads" None None (Some "tag")
    ValueError /\
  fst (make_scatter_plot 0%nat "published_date" "reads" None false false None (Some "tag") 2
         None (store_of Samples.articles)) = Err ValueError /\
  make_poly_fits_fails NumericQ.polyfit_Q Samples.two_points "x" "y" 1 IndexError /\
  fst (make_poly_fits NumericQ.polyfit_Q NumericQ.sqrt_Q 0%nat "x" "y" 1
         (store_of Samples.two_points)) = Err IndexError /\
  make_linear_regression_fails NumericQ.ols_Q NumericQ.linregress_Q Samples.two_points
    "x" "nope" false (KeyError "nope") /\
  fst (make_linear_regression NumericQ.ols_Q NumericQ.linregress_Q NumericQ.format_2f_Q
         0%nat "x" "nope" false (store_of Samples.two_points)) = Err (KeyError "nope") /\
  make_iplot_fails NumericQ.linregress_Q Samples.same_integer_part "x" "y" false ValueError /\
  fst (make_iplot NumericQ.linregress_Q NumericQ.format_2f_Q 0%nat "x" "y" "t" false
         (3 # 4, 1 # 4) (store_of Samples.same_integer_part)) = Err ValueError.
Proof.
  assert (Hh : make_hist_fails Samples.articles "reads" (Some "nope") (KeyError "nope"))
    by (unfold make_hist_fails, fails_first; chain_step).
  assert (Hc : make_cum_plot_fails Samples.articles (YCol "nope") None (KeyError "nope"))
    by (unfold make_cum_plot_fails, cum_data_fails, fails_first; left; cbn [py_len];
        repeat chain_step).
  assert (Hs : make_scatter_plot_fails Samples.articles "published_date" "reads" None None
                 (Some "tag") ValueError).
  { unfold make_scatter_plot_fails, fails_first. repeat chain_step.
    split; [|reflexivity]. exists (VStr "b"). split; [cbn; auto | reflexivity]. }
  assert (Hp : make_poly_fits_fails NumericQ.polyfit_Q Samples.two_points "x" "y" 1 IndexError).
  { left. exists [], 1%nat, [], Samples.two_points.
    split; [reflexivity|]. split; [reflexivity|].
    unfold fit_pass_fails, fails_first. repeat chain_step. split; reflexivity. }
  assert (Hl : make_linear_regression_fails NumericQ.ols_Q NumericQ.linregress_Q
                 Samples.two_points "x" "nope" false (KeyError "nope"))
    by (unfold make_linear_regression_fails, fails_first; repeat chain_step).
  assert (Hi : make_iplot_fails NumericQ.linregress_Q Samples.same_integer_part "x" "y"
                 false ValueError).
  { unfold make_iplot_fails, fails_first. chain_step. chain_step. cbn [rows].
    repeat chain_step. }
  destruct (failures_propagate NumericQ.polyfit_Q NumericQ.sqrt_Q NumericQ.ols_Q
              NumericQ.linregress_Q NumericQ.format_2f_Q (store_of Samples.articles)
              0%nat (KeyError "nope")) as (H1 & H2 & _).
  destruct (failures_propagate NumericQ.polyfit_Q NumericQ.sqrt_Q NumericQ.ols_Q
              NumericQ.linregress_Q NumericQ.format_2f_Q (store_of Samples.articles)
              0%nat ValueError) as (_ & _ & H3 & _).
  destruct (failures_propagate NumericQ.polyfit_Q NumericQ.sqrt_Q NumericQ.ols_Q
              NumericQ.linregress_Q NumericQ.format_2f_Q (store_of Samples.two_points)
              0%nat IndexError) as (_ & _ & _ & H4 & _).
  destruct (failures_propagate NumericQ.polyfit_Q NumericQ.sqrt_Q NumericQ.ols_Q
              NumericQ.linregress_Q NumericQ.format_2f_Q (store_of Samples.two_points)
              0%nat (KeyError "nope")) as (_ & _ & _ & _ & H5 & _).
  destruct (failures_propagate NumericQ.polyfit_Q NumericQ.sqrt_Q NumericQ.ols_Q
              NumericQ.linregress_Q NumericQ.format_2f_Q (store_of Samples.same_integer_part)
              0%nat ValueError) as (_ & _ & _ & _ & _ & H6).
  split; [exact Hh|]. split; [exact (H1 _ _ Hh)|].
  split; [exact Hc|]. split; [exact (H2 _ _ Hc)|].
  split; [exact Hs|]. split; [exact (H3 _ _ _ _ _ _ _ _ _ Hs)|].
  split; [exact Hp|]. split; [exact (H4 _ _ _ Hp)|].
  split; [exact Hl|]. split; [exact (H5 _ _ _ Hl)|].
  split; [exact Hi|]. exact (H6 _ _ _ _ _ Hi).
Defined.

(** ** C3: the traces of [make_hist] *)

(** Order on cells. *)
Lemma string_compare_trans s1 s2 s3 :
  String.compare s1 s2 <> Gt -> String.compare s2 s3 <> Gt -> String.compare s1 s3 <> Gt.
Proof.
  revert s2 s3; induction s1 as [|a1 r1 IH]; intros [|a2 r2] [|a3 r3]; cbn;
    try congruence; unfold Ascii.compare.
  destruct (N.compare_spec (N_of_ascii a1) (N_of_ascii a2)),
           (N.compare_spec (N_of_ascii a2) (N_of_ascii a3)),
           (N.compare_spec (N_of_ascii a1) (N_of_ascii a3));
    try congruence; try lia; eauto.
Qed.

Lemma string_leb_trans s1 s2 s3 :
  String.leb s1 s2 = true -> String.leb s2 s3 = true -> String.leb s1 s3 = true.
Proof.
  unfold String.leb.
  destruct (String.compare s1 s2) eqn:E1; try discriminate;
  destruct (String.compare s2 s3) eqn:E2; try discriminate;
  destruct (String.compare s1 s3) eqn:E3; try reflexivity;
  exfalso; refine (string_compare_trans s1 s2 s3 _ _ E3); congruence.
Qed.

Lemma vleb_total a b : vleb a b = false -> vleb b a = true.
Proof.
  destruct a as [p|s], b as [q|s']; cbn; try discriminate.
  - intros H. apply Qle_bool_iff. apply Qlt_le_weak, Qnot_le_lt.
    intros H'. apply Qle_bool_iff in H'. congruence.
  - intros H. destruct (String.leb_total s s'); congruence.
Qed.

Lemma vleb_trans a b c :
  is_num a = is_num b -> is_num b = is_num c ->
  vleb a b = true -> vleb b c = true -> vleb a c = true.
Proof.
  destruct a as [p|s], b as [q|s'], c as [r|s'']; cbn; try discriminate; intros _ _.
  - rewrite !Qle_bool_iff. apply Qle_trans.
  - apply string_leb_trans.
Qed.

Lemma vleb_antisym a b :
  is_num a = is_num b -> vleb a b = true -> vleb b a = true -> veqb a b = true.
Proof.
  destruct a as [p|s], b as [q|s']; cbn; try discriminate; intros _.
  - rewrite !Qle_bool_iff, Qeq_bool_iff. apply Qle_antisym.
  - intros H1 H2. apply String.eqb_eq. now apply String.leb_antisym.
Qed.

Lemma veqb_kind a b : veqb a b = true -> is_num a = is_num b.
Proof. destruct a, b; cbn; congruence. Qed.

Lemma veqb_refl a : veqb a a = true.
Proof.
  destruct a as [p|s]; cbn; [apply Qeq_bool_iff; reflexivity | apply String.eqb_refl].
Qed.

Lemma veqb_sym a b : veqb a b = true -> veqb b a = true.
Proof.
  destruct a as [p|s], b as [q|s']; cbn; try discriminate.
  - apply Qeq_bool_sym.
  - rewrite !String.eqb_eq. congruence.
Qed.

Lemma veqb_trans a b c : veqb a b = true -> veqb b c = true -> veqb a c = true.
Proof.
  destruct a as [p|s], b as [q|s'], c as [r|s'']; cbn; try discriminate.
  - apply Qeq_bool_trans.
  - rewrite !String.eqb_eq. congruence.
Qed.

Lemma vleb_veqb_r a b c : vleb a b = true -> veqb b c = true -> vleb a c = true.
Proof.
  destruct a as [p|s], b as [q|s'], c as [r|s'']; cbn; try discriminate; try reflexivity.
  - rewrite !Qle_bool_iff, Qeq_bool_iff. intros H1 H2. now rewrite <- H2.
  - rewrite String.eqb_eq. congruence.
Qed.

(** Insertion sort on cells. *)
Lemma insert_by_sorted a l :
  Sorted vle l -> Sorted vle (insert_by (fun v => v) a l).
Proof.
  induction l as [|b l IH]; cbn; intros H.
  - repeat constructor.
  - destruct (vleb a b) eqn:E.
    + constructor; [exact H | constructor; exact E].
    + inversion H as [|? ? Hl Hhd]; subst. constructor; [now apply IH|].
      destruct l as [|c l]; cbn.
      * constructor. now apply vleb_total.
      * destruct (vleb a c); constructor; [now apply vleb_total|].
        now inversion Hhd.
Qed.

Lemma sort_by_key_sorted l : Sorted vle (sort_by_key (fun v => v) l).
Proof.
  induction l as [|a l IH]; cbn; [constructor | now apply insert_by_sorted].
Qed.

Lemma insert_by_perm {A} (key : A -> value) a l :
  Permutation (a :: l) (insert_by key a l).
Proof.
  induction l as [|b l IH]; cbn; [reflexivity|].
  destruct (vleb (key a) (key b)); [reflexivity|].
  transitivity (b :: a :: l); [constructor|]. now constructor.
Qed.

Lemma sort_by_key_perm {A} (key : A -> value) l :
  Permutation l (sort_by_key key l).
Proof.
  induction l as [|a l IH]; cbn; [reflexivity|].
  transitivity (a :: sort_by_key key l); [now constructor | apply insert_by_perm].
Qed.

Lemma sorted_strongly kd l :
  Forall (fun v => is_num v = kd) l -> Sorted vle l -> StronglySorted vle l.
Proof.
  induction l as [|a l IH]; intros Hk Hs; [constructor|].
  inversion Hk as [|? ? Ha Hk']; inversion Hs as [|? ? Hs' Hhd]; subst.
  constructor; [now apply IH|].
  destruct l as [|b l]; [constructor|].
  inversion Hhd as [|? ? Hab]; subst.
  pose proof (IH Hk' Hs') as Hss. inversion Hss as [|? ? _ Hb]; subst.
  inversion Hk' as [|? ? Hbk Hk'']; subst.
  constructor; [exact Hab|].
  rewrite Forall_forall in Hb, Hk'' |- *. intros c Hc.
  apply (vleb_trans a b c); [congruence | rewrite Hbk, (Hk'' c Hc); reflexivity | exact Hab | now apply Hb].
Qed.

(** Removing adjacent duplicates. *)
Lemma dedup_sorted_cons2 a b l :
  dedup_sorted (a :: b :: l)
  = if veqb a b then dedup_sorted (b :: l) else a :: dedup_sorted (b :: l).
Proof. reflexivity. Qed.

Lemma dedup_sorted_incl l k : In k (dedup_sorted l) -> In k l.
Proof.
  induction l as [|a l IH]; [easy|].
  destruct l as [|b l']; [easy|].
  rewrite dedup_sorted_cons2. destruct (veqb a b).
  - intros H. right. now apply IH.
  - intros [<-|H]; [now left | right; now apply IH].
Qed.

Lemma dedup_sorted_cover l v :
  In v l -> exists k, In k (dedup_sorted l) /\ veqb v k = true.
Proof.
  revert v. induction l as [|a l IH]; intros v; [easy|].
  destruct l as [|b l'].
  - intros [<-|[]]. exists a. split; [now left | apply veqb_refl].
  - rewrite dedup_sorted_cons2. destruct (veqb a b) eqn:E; intros [<-|H].
    + destruct (IH b (or_introl eq_refl)) as (k & Hk & Hbk).
      exists k. split; [exact Hk | eapply veqb_trans; eauto].
    + exact (IH v H).
    + exists a. split; [now left | apply veqb_refl].
    + destruct (IH v H) as (k & Hk & Hvk). exists k. split; [now right | exact Hvk].
Qed.

Lemma dedup_sorted_strict kd l :
  Forall (fun v => is_num v = kd) l -> StronglySorted vle l ->
  StronglySorted vlt (dedup_sorted l).
Proof.
  induction l as [|a l IH]; intros Hk Hs; [constructor|].
  destruct l as [|b l']; [repeat constructor|].
  inversion Hk as [|? ? Ha Hk']; inversion Hs as [|? ? Hs' Hfa]; subst.
  rewrite dedup_sorted_cons2. destruct (veqb a b) eqn:E; [now apply IH|].
  constructor; [now apply IH|].
  apply Forall_forall. intros k Hk0. apply dedup_sorted_incl in Hk0.
  rewrite Forall_forall in Hfa. split; [now apply Hfa|].
  destruct (veqb a k) eqn:Eak; [exfalso|reflexivity].
  destruct Hk0 as [<-|Hk0]; [congruence|].
  inversion Hs' as [|? ? _ Hfb]; subst. rewrite Forall_forall in Hfb.
  assert (Hba : vleb b a = true)
    by (apply (vleb_veqb_r b k a); [now apply Hfb | now apply veqb_sym]).
  inversion Hk' as [|? ? Hbk _]; subst.
  assert (veqb a b = true)
    by (apply vleb_antisym; [congruence | apply Hfa; now left | exact Hba]).
  congruence.
Qed.

Lemma group_part_spec (p : value -> bool) (kd : bool) (ks : list value) :
  (forall v, p v = true -> is_num v = kd) ->
  let l := dedup_sorted (sort_by_key (fun v => v) (filter p ks)) in
  (forall k, In k l -> In k ks /\ p k = true) /\
  (forall v, In v ks -> p v = true -> exists k, In k l /\ veqb v k = true) /\
  StronglySorted vlt l.
Proof.
  intros Hp l.
  pose proof (sort_by_key_perm (fun v => v) (filter p ks)) as Hperm.
  assert (Hkd : Forall (fun v => is_num v = kd) (sort_by_key (fun v => v) (filter p ks))).
  { apply Forall_forall. intros v Hv. apply Hp.
    eapply Permutation_in in Hv; [|symmetry; exact Hperm].
    now apply filter_In in Hv. }
  split; [|split].
  - intros k Hk. apply dedup_sorted_incl in Hk.
    eapply Permutation_in in Hk; [|symmetry; exact Hperm]. now apply filter_In in Hk.
  - intros v Hv Hpv. apply dedup_sorted_cover.
    eapply Permutation_in; [exact Hperm|]. now apply filter_In.
  - apply (dedup_sorted_strict kd); [exact Hkd|].
    apply (sorted_strongly kd); [exact Hkd | apply sort_by_key_sorted].
Qed.

Lemma StronglySorted_app {A} (R : A -> A -> Prop) (l1 l2 : list A) :
  StronglySorted R l1 -> StronglySorted R l2 ->
  (forall a b, In a l1 -> In b l2 -> R a b) -> StronglySorted R (l1 ++ l2).
Proof.
  induction 1 as [|a l1 H1 IH Hf]; intros H2 Hab; cbn; [exact H2|].
  constructor.
  - apply IH; [exact H2|]. intros u v Hu Hv. apply Hab; [now right | exact Hv].
  - apply Forall_app. split; [exact Hf|].
    apply Forall_forall. intros b Hb. apply Hab; [now left | exact Hb].
Qed.

Lemma StronglySorted_weaken {A} (R R' : A -> A -> Prop) (P : A -> Prop) (l : list A) :
  (forall a b, P a -> P b -> R a b -> R' a b) -> Forall P l ->
  StronglySorted R l -> StronglySorted R' l.
Proof.
  intros HR HP Hs. induction Hs as [|a l Hs IH Hf]; [constructor|].
  inversion HP as [|? ? Ha HP']; subst. constructor; [now apply IH|].
  rewrite Forall_forall in Hf, HP' |- *. intros b Hb. apply HR; auto.
Qed.

(** The keys of [groupby] are values of the column, every value of the
    column has its key, and they are strictly increasing for [key_lt]:
    the numbers first, then the strings. *)
Lemma group_keys_spec ks :
  (forall k, In k (group_keys ks) -> In k ks) /\
  (forall v, In v ks -> exists k, In k (group_keys ks) /\ veqb v k = true) /\
  StronglySorted key_lt (group_keys ks).
Proof.
  destruct (group_part_spec is_num true ks) as (N1 & N2 & N3); [auto|].
  destruct (group_part_spec (fun v => negb (is_num v)) false ks) as (S1 & S2 & S3);
    [intros v H; now apply negb_true_iff in H|].
  unfold group_keys. split; [|split].
  - intros k Hk. apply in_app_or in Hk as [Hk|Hk]; [now apply N1 | now apply S1].
  - intros v Hv. destruct (is_num v) eqn:E.
    + destruct (N2 v Hv E) as (k & Hk & Hvk). exists k. split; [apply in_or_app; now left | exact Hvk].
    + destruct (S2 v Hv (f_equal negb E)) as (k & Hk & Hvk).
      exists k. split; [apply in_or_app; now right | exact Hvk].
  - apply StronglySorted_app.
    + apply (StronglySorted_weaken vlt key_lt (fun v => is_num v = true)); [| |exact N3].
      * intros a b Ha Hb H. left. split; [congruence | exact H].
      * apply Forall_forall. intros k Hk. now apply N1.
    + apply (StronglySorted_weaken vlt key_lt (fun v => is_num v = false)); [| |exact S3].
      * intros a b Ha Hb H. left. split; [congruence | exact H].
      * apply Forall_forall. intros k Hk. apply S1 in Hk as [_ Hk]. now apply negb_true_iff.
    + intros a b Ha Hb. right. split; [now apply N1 in Ha|].
      apply S1 in Hb as [_ Hb]. now apply negb_true_iff.
Qed.

Lemma map_res_ok {A B} (f : A -> result B) (g : A -> B) (l : list A) :
  (forall a, In a l -> f a = Ok (g a)) -> map_res f l = Ok (map g l).
Proof.
  induction l as [|a l IH]; intros H; cbn; [reflexivity|].
  rewrite (H a (or_introl eq_refl)). cbn.
  rewrite IH by (intros; apply H; now right). reflexivity.
Qed.

(** C3: the traces of [make_hist].  Without a category there is one
    histogram holding the whole column [x]; with a category there is one
    histogram per group, named by its key and holding the [x] values of the
    rows with that key, in key order.  The keys are values of the category
    column, every value of the column has its key, and they are strictly
    increasing for [key_lt] (the numbers in increasing order, then the
    strings in increasing order, as pandas sorts a column mixing both), so
    no two keys are equal. *)
Theorem make_hist_traces (st : store) (df : loc) (x : string) (ix : nat) :
  col_index (columns (heap st df)) x = Some ix ->
  (exists fig, fst (make_hist df x None st) = Ok fig /\
     fig_data fig = [histogram (map (cell ix) (rows (heap st df))) None]) /\
  (forall c ic, col_index (columns (heap st df)) c = Some ic ->
     let ks := map (cell ic) (rows (heap st df)) in
     exists fig, fst (make_hist df x (Some c) st) = Ok fig /\
       fig_data fig
         = map (fun k => histogram
                           (map (cell ix) (filter (fun r => veqb (cell ic r) k)
                                                  (rows (heap st df))))
                           (Some k))
               (group_keys ks) /\
       (forall k, In k (group_keys ks) -> In k ks) /\
       (forall v, In v ks -> exists k, In k (group_keys ks) /\ veqb v k = true) /\
       StronglySorted key_lt (group_keys ks)).
Proof.
  intros Hx. split.
  - unfold make_hist, bind, load, lift, ret, raise. cbn -[get_col].
    rewrite (get_col_present _ _ _ Hx). cbn. eexists; split; reflexivity.
  - intros c ic Hc ks.
    assert (Hg : groupby (heap st df) c
                 = Ok (map (fun k => (k, group_of (heap st df) ic k)) (group_keys ks)))
      by (unfold groupby; now rewrite Hc).
    unfold make_hist, bind, load, lift, ret, raise. cbn -[groupby map_res].
    rewrite Hg. cbn -[map_res].
    rewrite (map_res_ok _ (fun p => histogram (map (cell ix) (rows (snd p))) (Some (fst p)))).
    + destruct (group_keys_spec ks) as (H1 & H2 & H3).
      eexists; split; [reflexivity|]. cbn. rewrite map_map. cbn.
      repeat split; assumption.
    + intros [k g] Hin. apply in_map_iff in Hin as (k' & Heq & _).
      injection Heq as <- <-.
      rewrite (get_col_present (group_of (heap st df) ic k') x ix Hx). reflexivity.
Qed.

Lemma make_hist_traces_witness :
  col_index (columns Samples.mixed_tags) "reads" = Some 2%nat /\
  col_index (columns Samples.mixed_tags) "tag" = Some 3%nat /\
  exists fig,
    fst (make_hist 0%nat "reads" (Some "tag") (store_of Samples.mixed_tags)) = Ok fig /\
    fig_data fig = [histogram [VNum 7; VNum 1] (Some (VNum 7));
                    histogram [VNum 5] (Some (VStr "a"));
                    histogram [VNum 2] (Some (VStr "b"))].
Proof.
  split; [reflexivity|]. split; [reflexivity|].
  destruct (make_hist_traces (store_of Samples.mixed_tags) 0%nat "reads" 2%nat eq_refl)
    as [_ H].
  destruct (H "tag" 3%nat eq_refl) as (fig & Hf & Hd & _).
  exists fig. split; [exact Hf|]. rewrite Hd. vm_compute. reflexivity.
Defined.

(** ** C7: [make_linear_regression] *)

(** Frames and columns. *)
Lemma col_index_spec (cols : list string) (c : string) (i : nat) :
  col_index cols c = Some i -> (i < length cols)%nat /\ nth i cols "" = c.
Proof.
  revert i; induction cols as [|c' cols IH]; intros i; cbn; [discriminate|].
  destruct (String.eqb_spec c' c) as [->|_].
  - intros [= <-]. split; [lia | reflexivity].
  - destruct (col_index cols c) as [j|]; cbn; [|discriminate].
    intros [= <-]. destruct (IH j eq_refl). split; [lia | assumption].
Qed.

Lemma col_index_app_l (cols l : list string) (c : string) (i : nat) :
  col_index cols c = Some i -> col_index (cols ++ l) c = Some i.
Proof.
  revert i; induction cols as [|c' cols IH]; intros i; cbn; [discriminate|].
  destruct (String.eqb c' c); [tauto|].
  destruct (col_index cols c) as [j|]; cbn; [|discriminate].
  intros [= <-]. now rewrite (IH j eq_refl).
Qed.

Lemma col_index_app_new (cols : list string) (c : string) :
  col_index cols c = None -> col_index (cols ++ [c]) c = Some (length cols).
Proof.
  induction cols as [|c' cols IH]; cbn.
  - now rewrite String.eqb_refl.
  - destruct (String.eqb c' c); [discriminate|].
    destruct (col_index cols c); [discriminate|]. intros _. now rewrite IH.
Qed.

Lemma cell_set_nth_same (i : nat) (r : list value) (v : value) :
  (i < length r)%nat -> cell i (set_nth i r v) = v.
Proof.
  unfold cell. revert i; induction r as [|b r IH]; intros [|i]; cbn; try lia; auto.
  intros H. apply IH. lia.
Qed.

Lemma cell_set_nth_other (i j : nat) (r : list value) (v : value) :
  i <> j -> cell j (set_nth i r v) = cell j r.
Proof.
  unfold cell. revert i j; induction r as [|b r IH]; intros [|i] [|j] H; cbn; auto; try lia.
Qed.

Lemma length_set_nth {A} (i : nat) (r : list A) (v : A) :
  length (set_nth i r v) = length r.
Proof. revert i; induction r; intros [|i]; cbn; auto. Qed.

Lemma cell_app_l (j : nat) (r : list value) (v : value) :
  (j < length r)%nat -> cell j (r ++ [v]) = cell j r.
Proof. unfold cell. intros H. now apply app_nth1. Qed.

Lemma cell_app_new (r : list value) (v : value) : cell (length r) (r ++ [v]) = v.
Proof. unfold cell. rewrite app_nth2, Nat.sub_diag by lia. reflexivity. Qed.

Lemma to_floats_ok (vs : list value) (qs : list Q) :
  to_floats vs = Ok qs -> vs = map VNum qs.
Proof.
  unfold to_floats. revert qs; induction vs as [|v vs IH]; intros qs; cbn.
  - now intros [= <-].
  - destruct v as [q|]; cbn; [|discriminate].
    destruct (map_res to_float vs) as [qs'|]; cbn; [|discriminate].
    intros [= <-]. cbn. now rewrite (IH qs' eq_refl).
Qed.

Lemma rowwise_set_nth (n ic ix : nat) (rws : list (list value)) (xs : list Q)
    (g : Q -> Q) :
  Forall (fun r => length r = n) rws -> (ic < n)%nat -> ic <> ix ->
  map (cell ix) rws = map VNum xs ->
  let rws' := map (fun '(r, v) => set_nth ic r v) (combine rws (map (fun q => VNum (g q)) xs)) in
  Forall (fun r => length r = n) rws' /\ map (cell ix) rws' = map (cell ix) rws /\
  Forall (fun r => exists q, cell ix r = VNum q /\ cell ic r = VNum (g q)) rws'.
Proof.
  intros Hwf Hic Hd. revert xs.
  induction rws as [|r rws IH]; intros [|q xs] Hx rws'; subst rws'; cbn in *;
    try discriminate; [repeat constructor|].
  inversion Hwf as [|? ? Hr Hwf']; subst. injection Hx as Hq Hx.
  destruct (IH Hwf' xs Hx) as (H1 & H2 & H3).
  split; [|split].
  - constructor; [now rewrite length_set_nth | exact H1].
  - f_equal; [now apply cell_set_nth_other | exact H2].
  - constructor; [|exact H3]. exists q.
    rewrite cell_set_nth_other, cell_set_nth_same by lia. split; [exact Hq | reflexivity].
Qed.

Lemma rowwise_app (n ix : nat) (rws : list (list value)) (xs : list Q) (g : Q -> Q) :
  Forall (fun r => length r = n) rws -> (ix < n)%nat ->
  map (cell ix) rws = map VNum xs ->
  let rws' := map (fun '(r, v) => r ++ [v]) (combine rws (map (fun q => VNum (g q)) xs)) in
  Forall (fun r => length r = S n) rws' /\ map (cell ix) rws' = map (cell ix) rws /\
  Forall (fun r => exists q, cell ix r = VNum q /\ cell n r = VNum (g q)) rws'.
Proof.
  intros Hwf Hix. revert xs.
  induction rws as [|r rws IH]; intros [|q xs] Hx rws'; subst rws'; cbn in *;
    try discriminate; [repeat constructor|].
  inversion Hwf as [|? ? Hr Hwf']; subst. injection Hx as Hq Hx.
  destruct (IH Hwf' xs Hx) as (H1 & H2 & H3).
  split; [|split].
  - constructor; [rewrite length_app; cbn; lia | exact H1].
  - f_equal; [now apply cell_app_l | exact H2].
  - constructor; [|exact H3]. exists q.
    rewrite cell_app_l, cell_app_new by lia. split; [exact Hq | reflexivity].
Qed.

(** Adding or overwriting a column [c] whose values are computed from the
    numeric column at [ix], row by row. *)
Lemma set_col_rowwise (t : table) (c : string) (ix : nat) (xs : list Q) (g : Q -> Q) :
  wf_table t -> (ix < length (columns t))%nat -> nth ix (columns t) "" <> c ->
  map (cell ix) (rows t) = map VNum xs ->
  let t' := set_col t c (map (fun q => VNum (g q)) xs) in
  exists ic,
    col_index (columns t') c = Some ic /\
    (forall d j, col_index (columns t) d = Some j -> col_index (columns t') d = Some j) /\
    wf_table t' /\
    map (cell ix) (rows t') = map (cell ix) (rows t) /\
    Forall (fun r => exists q, cell ix r = VNum q /\ cell ic r = VNum (g q)) (rows t').
Proof.
  intros Hwf Hix Hne Hx t'. subst t'. unfold set_col, wf_table in *.
  destruct t as [cols rws]; cbn in *.
  destruct (col_index cols c) as [ic|] eqn:Hc.
  - destruct (col_index_spec _ _ _ Hc) as [Hic Hnth].
    assert (Hd : ic <> ix) by (intros ->; congruence).
    destruct (rowwise_set_nth _ ic ix rws xs g Hwf Hic Hd Hx) as (H1 & H2 & H3).
    exists ic. cbn. repeat split; auto.
  - destruct (rowwise_app _ ix rws xs g Hwf Hix Hx) as (H1 & H2 & H3).
    exists (length cols). cbn. split; [now apply col_index_app_new|].
    split; [intros d j; apply col_index_app_l|].
    rewrite length_app. cbn. rewrite Nat.add_1_r. auto.
Qed.

Lemma sort_by_ok (t t' : table) (c : string) :
  sort_by t c = Ok t' ->
  columns t' = columns t /\ Permutation (rows t) (rows t').
Proof.
  unfold sort_by. destruct (col_index (columns t) c) as [i|]; [|discriminate].
  destruct (comparable _); [|discriminate]. intros [= <-]. cbn.
  split; [reflexivity | apply sort_by_key_perm].
Qed.

Lemma Forall_perm {A} (P : A -> Prop) (l l' : list A) :
  Permutation l l' -> Forall P l -> Forall P l'.
Proof.
  intros Hp H. rewrite Forall_forall in H |- *. intros a Ha.
  apply H. eapply Permutation_in; [symmetry; exact Hp | exact Ha].
Qed.

Lemma map_res_Forall2 {A B} (f : A -> result B) (l : list A) (l' : list B) :
  map_res f l = Ok l' -> Forall2 (fun a b => f a = Ok b) l l'.
Proof.
  revert l'; induction l as [|a l IH]; intros l'; cbn.
  - intros [= <-]. constructor.
  - destruct (f a) as [b|] eqn:Ef; cbn; [|discriminate].
    destruct (map_res f l) as [bs|]; cbn; [|discriminate].
    intros [= <-]. constructor; [exact Ef | now apply IH].
Qed.

Lemma scatter_plot_fits_inv df x y fs sizeref annotations st fig st' :
  make_scatter_plot df x y (Some fs) false false None None sizeref annotations st
    = (Ok fig, st') ->
  exists t', sort_by (heap st df) x = Ok t' /\
    st' = mk_store (fun l => if Nat.eqb l df then t' else heap st l) (next st) /\
    exists xv yv text fts,
      get_col t' x = Ok xv /\ get_col t' y = Ok yv /\ get_col t' "title" = Ok text /\
      Forall2 (fun f tr => exists fv, get_col t' f = Ok fv /\
                             tr = scatter (Col xv) (Col fv) (Some (VStr f)) None "lines+markers")
              fs fts /\
      fig = mk_figure
              (scatter (Col xv) (Col yv) (Some (VStr "observations")) (Some text) "markers"
                 :: fts)
              (mk_layout (Some ((pretty y ++ " vs " ++ pretty x) ++ " with Fit")%string)
                 (axis_titled (pretty x) None) (axis_titled (pretty y) None) None
                 annotations []).
Proof.
  unfold make_scatter_plot, sort_values_inplace, bind, load, lift, store_at, ret, raise.
  cbn -[sort_by get_col map_res].
  destruct (sort_by (heap st df) x) as [t'|e]; [|discriminate].
  cbn [heap]. rewrite Nat.eqb_refl.
  destruct (get_col t' x) as [xv|e] eqn:Ex; cbn -[get_col map_res]; [|discriminate].
  destruct (get_col t' y) as [yv|e] eqn:Ey; cbn -[get_col map_res]; [|discriminate].
  destruct (get_col t' "title") as [text|e] eqn:Et; cbn -[get_col map_res]; [|discriminate].
  destruct (map_res _ fs) as [fts|e] eqn:Ef; [|discriminate].
  intros [= <- <-]. exists t'. split; [reflexivity|]. split; [reflexivity|].
  exists xv, yv, text, fts. repeat split; auto.
  - apply map_res_Forall2 in Ef. eapply Forall2_impl; [|exact Ef].
    intros f tr.
    intros H. cbn beta in H. destruct (get_col t' f) as [fv|]; cbn in H; inversion H; subst; eauto.
  - now rewrite !append_empty_r_local.
Qed.

Lemma load_ok_inv l st a st' : load l st = (Ok a, st') -> a = heap st l /\ st' = st.
Proof. unfold load. intros [= <- <-]. auto. Qed.

Lemma lift_ok_inv {A} (r : result A) st a st' :
  lift r st = (Ok a, st') -> r = Ok a /\ st' = st.
Proof. unfold lift, ret, raise. destruct r; intros [=]; subst; auto. Qed.

Lemma ret_ok_inv {A} (a : A) st b st' : ret a st = (Ok b, st') -> b = a /\ st' = st.
Proof. unfold ret. intros [= <- <-]. auto. Qed.

Lemma assign_col_ok_inv l c vs st u st' :
  assign_col l c vs st = (Ok u, st') ->
  st' = mk_store (fun l' => if Nat.eqb l' l then set_col (heap st l) c vs else heap st l')
                 (next st).
Proof. unfold assign_col, bind, load, store_at. cbn. intros [= _ <-]. reflexivity. Qed.

Lemma res_bind_ok_inv {A B} (m : result A) (k : A -> result B) b :
  res_bind m k = Ok b -> exists a, m = Ok a /\ k a = Ok b.
Proof. destruct m; cbn; [eauto | discriminate]. Qed.

Ltac M_inv :=
  repeat match goal with
  | H : bind _ _ _ = (Ok _, _) |- _ =>
      let a := fresh "a" in let s := fresh "s" in
      let H1 := fresh "Hm" in let H2 := fresh "Hk" in
      destruct (bind_ok_inv _ _ _ _ _ H) as (a & s & H1 & H2); clear H; cbn beta in H2
  | H : res_bind _ _ = Ok _ |- _ =>
      let a := fresh "a" in let H1 := fresh "Hr" in let H2 := fresh "Hr" in
      destruct (res_bind_ok_inv _ _ _ H) as (a & H1 & H2); clear H; cbn beta in H2
  | H : load _ _ = (Ok _, _) |- _ =>
      apply load_ok_inv in H; destruct H as [? ?]; subst
  | H : lift _ _ = (Ok _, _) |- _ =>
      apply lift_ok_inv in H; destruct H as [? ?]; subst
  | H : ret _ _ = (Ok _, _) |- _ =>
      apply ret_ok_inv in H; destruct H as [? ?]; subst
  | H : assign_col _ _ _ _ = (Ok _, _) |- _ =>
      apply assign_col_ok_inv in H; subst
  | H : Ok _ = Ok _ |- _ => injection H as H; subst
  | H : to_floats _ = Ok _ |- _ => apply to_floats_ok in H; subst
  end.

Lemma map_VNum_inj (xs ys : list Q) : map VNum xs = map VNum ys -> xs = ys.
Proof.
  revert ys; induction xs as [|a xs IH]; intros [|b ys]; cbn; try discriminate; auto.
  intros [= -> H]. f_equal. now apply IH.
Qed.

Lemma get_col_ok_index (t : table) (c : string) (vs : list value) :
  get_col t c = Ok vs ->
  exists i, col_index (columns t) c = Some i /\ vs = map (cell i) (rows t).
Proof.
  unfold get_col. destruct (col_index (columns t) c) as [i|]; [|discriminate].
  intros [= <-]. eauto.
Qed.

Lemma map_res_to_float (g : Q -> Q) (xs : list Q) :
  map_res (fun v => let? q := to_float v in Ok (VNum (g q))) (map VNum xs)
  = Ok (map (fun q => VNum (g q)) xs).
Proof. induction xs as [|a xs IH]; cbn; [reflexivity | now rewrite IH]. Qed.


(** ** C6: the fits of [make_poly_fits] *)

(** Decimal names of the fits are distinct. *)
Lemma digits_aux_app f n acc s :
  digits_aux f n (acc ++ s) = (digits_aux f n acc ++ s)%string.
Proof.
  revert n acc; induction f as [|f IH]; intros n acc; cbn [digits_aux]; [reflexivity|].
  destruct (n <? 10)%nat; [reflexivity|]. apply (IH (n / 10)%nat (String _ acc)).
Qed.

Lemma digits_aux_fuel f1 f2 n acc :
  (n < f1)%nat -> (n < f2)%nat -> digits_aux f1 n acc = digits_aux f2 n acc.
Proof.
  revert f2 n acc; induction f1 as [|f1 IH]; intros [|f2] n acc H1 H2; try lia; cbn [digits_aux].
  destruct (n <? 10)%nat eqn:E; [reflexivity|].
  apply Nat.ltb_ge in E. apply IH.
  - assert (n / 10 < n)%nat by (apply Nat.div_lt; lia). lia.
  - assert (n / 10 < n)%nat by (apply Nat.div_lt; lia). lia.
Qed.

Lemma str_nat_small n : (n < 10)%nat -> str_nat n = String (str_of_nat_digit n) "".
Proof.
  intros H. unfold str_nat. cbn [digits_aux].
  replace (n <? 10)%nat with true by (symmetry; now apply Nat.ltb_lt).
  now rewrite Nat.mod_small.
Qed.

Lemma str_nat_big n :
  (10 <= n)%nat ->
  str_nat n = (str_nat (n / 10)%nat ++ String (str_of_nat_digit (n mod 10)%nat) "")%string.
Proof.
  intros H.
  assert (E : str_nat n
              = digits_aux n (n / 10)%nat (String (str_of_nat_digit (n mod 10)%nat) "")).
  { unfold str_nat. cbn [digits_aux].
    replace (n <? 10)%nat with false by (symmetry; now apply Nat.ltb_ge). reflexivity. }
  rewrite E.
  change (String (str_of_nat_digit (n mod 10)%nat) "")
    with ("" ++ String (str_of_nat_digit (n mod 10)%nat) "")%string.
  rewrite digits_aux_app. f_equal. unfold str_nat. apply digits_aux_fuel; [|lia].
  assert (n / 10 < n)%nat by (apply Nat.div_lt; lia). lia.
Qed.

Lemma str_of_nat_digit_inj a b :
  (a < 10)%nat -> (b < 10)%nat -> str_of_nat_digit a = str_of_nat_digit b -> a = b.
Proof.
  unfold str_of_nat_digit. intros Ha Hb H.
  apply (f_equal nat_of_ascii) in H.
  rewrite !nat_ascii_embedding in H by lia. lia.
Qed.

Lemma string_snoc_inj s1 s2 c1 c2 :
  (s1 ++ String c1 "")%string = (s2 ++ String c2 "")%string -> s1 = s2 /\ c1 = c2.
Proof.
  revert s2; induction s1 as [|a s1 IH]; intros [|b s2]; cbn.
  - intros [= ->]. auto.
  - intros [= -> H]. destruct s2; discriminate.
  - intros [= -> H]. destruct s1; discriminate.
  - intros [= -> H]. destruct (IH s2 H) as [-> ->]. auto.
Qed.

Lemma str_nat_not_empty n : str_nat n <> "".
Proof.
  destruct (Nat.lt_ge_cases n 10) as [H|H].
  - rewrite str_nat_small by exact H. discriminate.
  - rewrite str_nat_big by exact H. destruct (str_nat (n / 10)%nat); discriminate.
Qed.

Lemma str_nat_inj a b : str_nat a = str_nat b -> a = b.
Proof.
  revert b. induction a as [a IH] using (well_founded_induction Nat.lt_wf_0).
  intros b H.
  destruct (Nat.lt_ge_cases a 10) as [Ha|Ha], (Nat.lt_ge_cases b 10) as [Hb|Hb].
  - rewrite (str_nat_small a Ha), (str_nat_small b Hb) in H. injection H as H.
    now apply str_of_nat_digit_inj.
  - rewrite (str_nat_small a Ha), (str_nat_big b Hb) in H.
    change (String (str_of_nat_digit a) "")
      with ("" ++ String (str_of_nat_digit a) "")%string in H.
    apply string_snoc_inj in H as [H _]. exfalso. now apply (str_nat_not_empty (b / 10)%nat).
  - rewrite (str_nat_big a Ha), (str_nat_small b Hb) in H.
    change (String (str_of_nat_digit b) "")
      with ("" ++ String (str_of_nat_digit b) "")%string in H.
    apply string_snoc_inj in H as [H _]. exfalso. now apply (str_nat_not_empty (a / 10)%nat).
  - rewrite (str_nat_big a Ha), (str_nat_big b Hb) in H.
    apply string_snoc_inj in H as [H1 H2].
    apply str_of_nat_digit_inj in H2; [|apply Nat.mod_upper_bound; lia ..].
    assert (a / 10 < a)%nat by (apply Nat.div_lt; lia).
    apply IH in H1; [|exact H].
    rewrite (Nat.div_mod_eq a 10), (Nat.div_mod_eq b 10). lia.
Qed.

Lemma string_prefix_cancel p s1 s2 : (p ++ s1)%string = (p ++ s2)%string -> s1 = s2.
Proof. induction p as [|a p IH]; cbn; [auto | intros [= H]; auto]. Qed.

Lemma fit_name_inj i j : fit_name i = fit_name j -> i = j.
Proof. unfold fit_name. intros H. apply string_prefix_cancel in H. now apply str_nat_inj. Qed.

Lemma fit_name_not_title i : fit_name i <> "title".
Proof. unfold fit_name. cbn. discriminate. Qed.

Lemma col_index_app_other (cols : list string) (c d : string) :
  d <> c -> col_index (cols ++ [c]) d = col_index cols d.
Proof.
  intros Hd. induction cols as [|c' cols IH]; cbn.
  - destruct (String.eqb_spec c d); [congruence | reflexivity].
  - destruct (String.eqb c' d); [reflexivity|]. now rewrite IH.
Qed.

Lemma map_cell_combine (upd : list value -> value -> list value) (j : nat)
    (rws : list (list value)) (vals : list value) :
  length vals = length rws -> (forall r v, In r rws -> cell j (upd r v) = cell j r) ->
  map (cell j) (map (fun '(r, v) => upd r v) (combine rws vals)) = map (cell j) rws.
Proof.
  revert vals; induction rws as [|r rws IH]; intros [|v vals] Hl H; cbn [map combine length] in *;
    try discriminate; [reflexivity|].
  rewrite H by now left. f_equal. apply IH; [lia | intros; apply H; now right].
Qed.

Lemma map_cell_combine_new (upd : list value -> value -> list value) (j : nat)
    (rws : list (list value)) (vals : list value) :
  length vals = length rws -> (forall r v, In r rws -> cell j (upd r v) = v) ->
  map (cell j) (map (fun '(r, v) => upd r v) (combine rws vals)) = vals.
Proof.
  revert vals; induction rws as [|r rws IH]; intros [|v vals] Hl H; cbn [map combine length] in *;
    try discriminate; [reflexivity|].
  rewrite H by now left. f_equal. apply IH; [lia | intros; apply H; now right].
Qed.

Lemma Forall_combine_map (upd : list value -> value -> list value) (P Q : list value -> Prop)
    (rws : list (list value)) (vals : list value) :
  (forall r v, P r -> Q (upd r v)) -> Forall P rws ->
  Forall Q (map (fun '(r, v) => upd r v) (combine rws vals)).
Proof.
  intros H. revert vals; induction rws as [|r rws IH]; intros [|v vals] Hf; cbn;
    try constructor; inversion Hf; subst; auto.
Qed.

(** [df[c] = vals] reads back as [vals] and leaves the other columns. *)
Lemma set_col_spec (t : table) (c : string) (vals : list value) :
  wf_table t -> length vals = length (rows t) ->
  wf_table (set_col t c vals) /\
  get_col (set_col t c vals) c = Ok vals /\
  (forall d, d <> c -> get_col (set_col t c vals) d = get_col t d).
Proof.
  intros Hwf Hl. unfold wf_table in *. destruct t as [cols rws]; cbn in *.
  unfold set_col, get_col; cbn.
  destruct (col_index cols c) as [ic|] eqn:Hc.
  - destruct (col_index_spec _ _ _ Hc) as [Hic Hnth]. cbn.
    rewrite Forall_forall in Hwf.
    split; [|split].
    + apply (Forall_combine_map (fun r v => set_nth ic r v)
               (fun r => length r = length cols)); [|now apply Forall_forall].
      intros r v Hr. now rewrite length_set_nth.
    + rewrite Hc. f_equal.
      apply (map_cell_combine_new (fun r v => set_nth ic r v)); [exact Hl|].
      intros r v Hr. apply cell_set_nth_same. rewrite Hwf by exact Hr. exact Hic.
    + intros d Hd. destruct (col_index cols d) as [j|] eqn:Hj; [|reflexivity].
      destruct (col_index_spec _ _ _ Hj) as [_ Hnj].
      f_equal. apply (map_cell_combine (fun r v => set_nth ic r v)); [exact Hl|].
      intros r v _. apply cell_set_nth_other. intros ->. congruence.
  - cbn. rewrite Forall_forall in Hwf. split; [|split].
    + apply (Forall_combine_map (fun r v => r ++ [v])
               (fun r => length r = length cols)); [|now apply Forall_forall].
      intros r v Hr. rewrite !length_app, Hr. reflexivity.
    + rewrite col_index_app_new by exact Hc. f_equal.
      apply (map_cell_combine_new (fun r v => r ++ [v])); [exact Hl|].
      intros r v Hr. rewrite <- (Hwf r Hr). apply cell_app_new.
    + intros d Hd. rewrite col_index_app_other by exact Hd.
      destruct (col_index cols d) as [j|] eqn:Hj; [|reflexivity].
      destruct (col_index_spec _ _ _ Hj) as [Hjl _].
      f_equal. apply (map_cell_combine (fun r v => r ++ [v])); [exact Hl|].
      intros r v Hr. apply cell_app_l. rewrite Hwf by exact Hr. exact Hjl.
Qed.

Lemma to_floats_map_VNum (xs : list Q) : to_floats (map VNum xs) = Ok xs.
Proof. unfold to_floats. induction xs as [|a xs IH]; cbn; [reflexivity | now rewrite IH]. Qed.

Lemma get_col_length (t : table) (c : string) (vs : list value) :
  get_col t c = Ok vs -> length vs = length (rows t).
Proof.
  unfold get_col. destruct (col_index (columns t) c); [|discriminate].
  intros [= <-]. apply length_map.
Qed.

Lemma fits_loop_run polyfit py_sqrt (c : loc) (x y : string) (ds : list nat)
    (fl : list string) (rm : list Q) (fp : list (list Q)) (st : store)
    (xs ys : list Q) (zf : nat -> list Q) (rf : nat -> Q) :
  wf_table (heap st c) ->
  get_col (heap st c) x = Ok (map VNum xs) -> get_col (heap st c) y = Ok (map VNum ys) ->
  NoDup ds ->
  (forall i, In i ds -> fit_name i <> x /\ fit_name i <> y) ->
  (forall i, In i ds -> exists rest, polyfit xs ys i = Ok (zf i, rf i :: rest)) ->
  exists st',
    fits_loop polyfit py_sqrt c x y ds fl rm fp st
      = (Ok (fl ++ map fit_name ds, rm ++ map (fun i => py_sqrt (rf i)) ds,
             fp ++ map zf ds), st') /\
    wf_table (heap st' c) /\
    (forall d, (forall i, In i ds -> fit_name i <> d) ->
               get_col (heap st' c) d = get_col (heap st c) d) /\
    (forall i, In i ds ->
       get_col (heap st' c) (fit_name i) = Ok (map (fun q => VNum (polyval (zf i) q)) xs)).
Proof.
  revert fl rm fp st.
  induction ds as [|i ds IH]; intros fl rm fp st Hwf Hx Hy Hnd Hnames Hfit.
  - exists st. rewrite !app_nil_r. split; [reflexivity|].
    split; [exact Hwf|]. split; [reflexivity | intros i []].
  - destruct (Hfit i (or_introl eq_refl)) as (rest & Hp).
    destruct (Hnames i (or_introl eq_refl)) as [Hix Hiy].
    inversion Hnd as [|? ? Hnin Hnd']; subst.
    set (vals := map (fun q => VNum (polyval (zf i) q)) xs).
    set (st1 := mk_store (fun l' => if Nat.eqb l' c then set_col (heap st c) (fit_name i) vals
                                   else heap st l') (next st)).
    assert (Hrun : fits_loop polyfit py_sqrt c x y (i :: ds) fl rm fp st
                   = fits_loop polyfit py_sqrt c x y ds (fl ++ [fit_name i])
                       (rm ++ [py_sqrt (rf i)]) (fp ++ [zf i]) st1).
    { cbn [fits_loop]. unfold bind, load, lift, ret, raise, assign_col, store_at.
      rewrite Hx, Hy. cbn [res_bind]. rewrite !to_floats_map_VNum. cbn [res_bind].
      rewrite Hp. cbn beta iota. rewrite Hx. cbn [res_bind].
      rewrite to_floats_map_VNum. reflexivity. }
    assert (Hlen : length vals = length (rows (heap st c)))
      by (unfold vals; rewrite length_map; rewrite <- (get_col_length _ _ _ Hx);
          symmetry; apply length_map).
    destruct (set_col_spec (heap st c) (fit_name i) vals Hwf Hlen) as (Hwf1 & Hnew & Hold).
    assert (Hh1 : heap st1 c = set_col (heap st c) (fit_name i) vals)
      by (cbn; now rewrite Nat.eqb_refl).
    destruct (IH (fl ++ [fit_name i]) (rm ++ [py_sqrt (rf i)]) (fp ++ [zf i]) st1)
      as (st' & Hr & Hwf' & Hkeep & Hfits).
    + now rewrite Hh1.
    + rewrite Hh1, Hold by congruence. exact Hx.
    + rewrite Hh1, Hold by congruence. exact Hy.
    + exact Hnd'.
    + intros j Hj. apply Hnames. now right.
    + intros j Hj. apply Hfit. now right.
    + exists st'. rewrite Hrun, Hr. cbn [map]. rewrite <- !app_assoc. split; [reflexivity|].
      split; [exact Hwf'|]. split.
      * intros d Hd. rewrite Hkeep by (intros j Hj; apply Hd; now right).
        rewrite Hh1, Hold; [reflexivity|]. intros ->. apply (Hd i); [now left | reflexivity].
      * intros j [<-|Hj]; [|now apply Hfits].
        rewrite Hkeep, Hh1; [exact Hnew|].
        intros j Hj Heq. apply fit_name_inj in Heq. subst. contradiction.
Qed.

Lemma map_res_exists {A B} (f : A -> result B) (l : list A) :
  (forall a, In a l -> exists b, f a = Ok b) -> exists l', map_res f l = Ok l'.
Proof.
  induction l as [|a l IH]; intros H; cbn; [eauto|].
  destruct (H a (or_introl eq_refl)) as (b & ->). cbn.
  destruct IH as (l' & ->); [intros; apply H; now right|]. cbn. eauto.
Qed.

Lemma scatter_plot_fits_succeeds df x y fs sizeref annotations st t' :
  sort_by (heap st df) x = Ok t' ->
  (exists xv, get_col t' x = Ok xv) -> (exists yv, get_col t' y = Ok yv) ->
  (exists text, get_col t' "title" = Ok text) ->
  (forall f, In f fs -> exists fv, get_col t' f = Ok fv) ->
  exists fig st',
    make_scatter_plot df x y (Some fs) false false None None sizeref annotations st
      = (Ok fig, st').
Proof.
  intros Hs (xv & Hxv) (yv & Hyv) (text & Ht) Hf.
  unfold make_scatter_plot, sort_values_inplace, bind, load, lift, store_at, ret, raise.
  cbn -[sort_by get_col map_res]. rewrite Hs. cbn [heap]. rewrite Nat.eqb_refl.
  rewrite Hxv, Hyv, Ht. cbn -[get_col map_res].
  match goal with
  | |- context [map_res ?F fs] =>
      destruct (map_res_exists F fs) as (fts & Hfts); [|rewrite Hfts; eauto]
  end.
  intros f Hin. destruct (Hf f Hin) as (fv & Hfv). cbn beta.
  rewrite ?Hxv, Hfv. cbn. eauto.
Qed.

Lemma sort_by_numeric (t : table) (c : string) (xs : list Q) :
  get_col t c = Ok (map VNum xs) -> exists t', sort_by t c = Ok t'.
Proof.
  intros H. destruct (get_col_ok_index _ _ _ H) as (i & Hi & Hcells).
  unfold sort_by. rewrite Hi, <- Hcells.
  replace (comparable (map VNum xs)) with true; [eauto|].
  unfold comparable. symmetry. apply orb_true_iff. left.
  apply forallb_forall. intros v Hv. apply in_map_iff in Hv as (q & <- & _). reflexivity.
Qed.

Lemma get_col_sorted (t t' : table) (c a : string) (v : list value) :
  sort_by t c = Ok t' -> get_col t a = Ok v ->
  exists i, col_index (columns t) a = Some i /\ v = map (cell i) (rows t) /\
            get_col t' a = Ok (map (cell i) (rows t')).
Proof.
  intros Hs Ha. destruct (sort_by_ok _ _ _ Hs) as [Hcols _].
  destruct (get_col_ok_index _ _ _ Ha) as (i & Hi & ->).
  exists i. split; [exact Hi|]. split; [reflexivity|].
  apply get_col_present. now rewrite Hcols.
Qed.

Lemma cols_to_rows (f g : list value -> value) (h : Q -> Q) (rws : list (list value))
    (xs : list Q) :
  map f rws = map VNum xs -> map g rws = map (fun q => VNum (h q)) xs ->
  Forall (fun r => exists q, f r = VNum q /\ g r = VNum (h q)) rws.
Proof.
  revert xs; induction rws as [|r rws IH]; intros [|q xs]; cbn; try discriminate;
    [constructor|].
  intros [= Hf Hf'] [= Hg Hg']. constructor; eauto.
Qed.

Lemma rows_to_cols {A} (R : value -> value -> Prop) (f g : A -> value) (l : list A) :
  Forall (fun r => R (f r) (g r)) l -> Forall2 R (map f l) (map g l).
Proof. induction 1; cbn; constructor; auto. Qed.

Lemma combine_map_same {A B C} (f : A -> B) (g : A -> C) (l : list A) :
  combine (map f l) (map g l) = map (fun a => (f a, g a)) l.
Proof. induction l as [|a l IH]; cbn; [reflexivity | now rewrite IH]. Qed.

(** The sort keeps every column paired with the others. *)
Lemma sorted_pairing (t t' : table) (c a b : string) (xs : list Q) (h : Q -> Q)
    (va vb : list value) :
  sort_by t c = Ok t' ->
  get_col t a = Ok (map VNum xs) -> get_col t b = Ok (map (fun q => VNum (h q)) xs) ->
  get_col t' a = Ok va -> get_col t' b = Ok vb ->
  Forall2 (fun u w => exists q, u = VNum q /\ w = VNum (h q)) va vb.
Proof.
  intros Hs Ha Hb Ha' Hb'.
  destruct (get_col_sorted _ _ _ _ _ Hs Ha) as (i & _ & Hi & Hi').
  destruct (get_col_sorted _ _ _ _ _ Hs Hb) as (j & _ & Hj & Hj').
  rewrite Ha' in Hi'. rewrite Hb' in Hj'. injection Hi' as ->. injection Hj' as ->.
  apply rows_to_cols. destruct (sort_by_ok _ _ _ Hs) as [_ Hp].
  apply (Forall_perm _ _ _ Hp). apply (cols_to_rows _ _ h _ xs); auto.
Qed.

Lemma sorted_pairs_perm (t t' : table) (c a b : string) (ua ub va vb : list value) :
  sort_by t c = Ok t' ->
  get_col t a = Ok ua -> get_col t b = Ok ub ->
  get_col t' a = Ok va -> get_col t' b = Ok vb ->
  Permutation (combine ua ub) (combine va vb).
Proof.
  intros Hs Ha Hb Ha' Hb'.
  destruct (get_col_sorted _ _ _ _ _ Hs Ha) as (i & _ & -> & Hi').
  destruct (get_col_sorted _ _ _ _ _ Hs Hb) as (j & _ & -> & Hj').
  rewrite Ha' in Hi'. rewrite Hb' in Hj'. injection Hi' as ->. injection Hj' as ->.
  rewrite !combine_map_same. apply Permutation_map. now apply sort_by_ok in Hs.
Qed.

Lemma zip3_map (ds : list nat) (f : nat -> string) (g : nat -> Q) (h : nat -> list Q) :
  zip3 (map f ds) (map g ds) (map h ds) = map (fun i => mk_fit_stat (f i) (g i) (h i)) ds.
Proof. induction ds as [|i ds IH]; cbn; [reflexivity | now rewrite IH]. Qed.

Lemma Forall2_map_l {A B C} (R : B -> C -> Prop) (f : A -> B) (l : list A) (l' : list C) :
  Forall2 R (map f l) l' -> Forall2 (fun a c => R (f a) c) l l'.
Proof.
  revert l'; induction l as [|a l IH]; intros l' H; cbn in H; inversion H; subst;
    constructor; auto.
Qed.

Lemma insert_by_sorted_key {A} (key : A -> value) a l :
  Sorted (fun u v => vle (key u) (key v)) l ->
  Sorted (fun u v => vle (key u) (key v)) (insert_by key a l).
Proof.
  induction l as [|b l IH]; cbn; intros H.
  - repeat constructor.
  - destruct (vleb (key a) (key b)) eqn:E.
    + constructor; [exact H | constructor; exact E].
    + inversion H as [|? ? Hl Hhd]; subst. constructor; [now apply IH|].
      destruct l as [|c l]; cbn.
      * constructor. now apply vleb_total.
      * destruct (vleb (key a) (key c)); constructor; [now apply vleb_total|].
        now inversion Hhd.
Qed.

Lemma sort_by_key_sorted_key {A} (key : A -> value) l :
  Sorted (fun u v => vle (key u) (key v)) (sort_by_key key l).
Proof. induction l; cbn; [constructor | now apply insert_by_sorted_key]. Qed.

Lemma Sorted_map {A B} (R : B -> B -> Prop) (f : A -> B) l :
  Sorted (fun u v => R (f u) (f v)) l -> Sorted R (map f l).
Proof.
  induction 1 as [|a l Hs IH Hhd]; cbn; constructor; [exact IH|].
  destruct Hhd; constructor. assumption.
Qed.

(** The column a frame was sorted on is in increasing order. *)
Lemma sort_by_sorted (t t' : table) (c : string) (xs : list value) :
  sort_by t c = Ok t' -> get_col t' c = Ok xs -> Sorted vle xs.
Proof.
  unfold sort_by. destruct (col_index (columns t) c) as [i|] eqn:Ei; [|discriminate].
  destruct (comparable _); [|discriminate]. intros [= <-].
  unfold get_col; cbn. rewrite Ei. intros [= <-].
  apply Sorted_map, sort_by_key_sorted_key.
Qed.

(** C6 (amended): [make_poly_fits] on a well-formed frame with numeric
    columns [x] and [y], a [title] column, and fit names different from [x]
    and [y], when every fit of degree [i] in [1..d] returns a non-empty
    residuals array whose first entry is [rf i] and the coefficients
    [zf i]: the call returns one statistics row per degree, named
    "fit degree = i" with [sqrt (rf i)] and [zf i], and a figure whose first
    trace is the observations (the (x, y) pairs of the frame, reordered by
    the sort on [x], so that the x values increase) and whose next [d]
    traces are the fits, each pairing every x value with [polyval (zf i)]
    of it. *)
Theorem make_poly_fits_spec polyfit py_sqrt (st : store) (df : loc) (x y : string) (d : nat)
    (xs ys : list Q) (zf : nat -> list Q) (rf : nat -> Q) :
  wf_table (heap st df) ->
  get_col (heap st df) x = Ok (map VNum xs) ->
  get_col (heap st df) y = Ok (map VNum ys) ->
  In "title" (columns (heap st df)) ->
  (forall i, (1 <= i <= d)%nat -> fit_name i <> x /\ fit_name i <> y) ->
  (forall i, (1 <= i <= d)%nat -> exists rest, polyfit xs ys i = Ok (zf i, rf i :: rest)) ->
  exists fig st',
    make_poly_fits polyfit py_sqrt df x y (Z.of_nat d) st
      = (Ok (map (fun i => mk_fit_stat (fit_name i) (py_sqrt (rf i)) (zf i)) (seq 1 d), fig),
         st') /\
    exists xv yv text fts,
      fig_data fig
        = scatter (Col xv) (Col yv) (Some (VStr "observations")) (Some text) "markers" :: fts /\
      Permutation (combine (map VNum xs) (map VNum ys)) (combine xv yv) /\
      Sorted vle xv /\
      Forall2 (fun i tr =>
                 exists fv,
                   tr = scatter (Col xv) (Col fv) (Some (VStr (fit_name i))) None
                                "lines+markers" /\
                   Forall2 (fun a b => exists q, a = VNum q /\ b = VNum (polyval (zf i) q))
                           xv fv)
              (seq 1 d) fts.
Proof.
  intros Hwf Hx Hy Htitle Hnames Hfit.
  unfold make_poly_fits.
  set (c := next st).
  set (st1 := mk_store (fun l' => if Nat.eqb l' c then heap st df else heap st l') (S c)).
  assert (Hcopy : copy df st = (Ok c, st1)) by reflexivity.
  assert (H1 : heap st1 c = heap st df) by (cbn; now rewrite Nat.eqb_refl).
  rewrite (bind_ok _ _ _ _ _ Hcopy). clearbody st1 c. rewrite Nat2Z.id.
  assert (Hin : forall i, In i (seq 1 d) -> (1 <= i <= d)%nat)
    by (intros i Hi; apply in_seq in Hi; lia).
  destruct (fits_loop_run polyfit py_sqrt c x y (seq 1 d) [] [] [] st1 xs ys zf rf)
    as (st2 & Hrun & Hwf2 & Hkeep & Hfits).
  - now rewrite H1.
  - now rewrite H1.
  - now rewrite H1.
  - apply seq_NoDup.
  - intros i Hi. apply Hnames, Hin, Hi.
  - intros i Hi. apply Hfit, Hin, Hi.
  - rewrite (bind_ok _ _ _ _ _ Hrun). cbn beta iota.
    assert (Hnx : forall i, In i (seq 1 d) -> fit_name i <> x)
      by (intros i Hi; apply Hnames, Hin, Hi).
    assert (Hny : forall i, In i (seq 1 d) -> fit_name i <> y)
      by (intros i Hi; apply Hnames, Hin, Hi).
    assert (Hnt : forall i, In i (seq 1 d) -> fit_name i <> "title")
      by (intros i _; apply fit_name_not_title).
    assert (Hx2 : get_col (heap st2 c) x = Ok (map VNum xs))
      by (rewrite Hkeep, H1 by exact Hnx; exact Hx).
    assert (Hy2 : get_col (heap st2 c) y = Ok (map VNum ys))
      by (rewrite Hkeep, H1 by exact Hny; exact Hy).
    destruct (get_col_In _ _ Htitle) as (text0 & Ht0).
    assert (Ht2 : get_col (heap st2 c) "title" = Ok text0)
      by (rewrite Hkeep, H1 by exact Hnt; exact Ht0).
    destruct (sort_by_numeric _ _ _ Hx2) as (t' & Hs).
    assert (Hcol : forall a v, get_col (heap st2 c) a = Ok v -> exists v', get_col t' a = Ok v').
    { intros a v Ha. destruct (get_col_sorted _ _ _ _ _ Hs Ha) as (i & _ & _ & Hi). eauto. }
    destruct (scatter_plot_fits_succeeds c x y
                ([] ++ map fit_name (seq 1 d)) 2 None st2 t' Hs)
      as (fig & st3 & Hsc).
    + exact (Hcol _ _ Hx2).
    + exact (Hcol _ _ Hy2).
    + exact (Hcol _ _ Ht2).
    + intros f Hf. apply in_map_iff in Hf as (i & <- & Hi). exact (Hcol _ _ (Hfits i Hi)).
    + rewrite (bind_ok _ _ _ _ _ Hsc). exists fig, st3. split.
      { unfold ret. cbn [app]. now rewrite zip3_map. }
      apply scatter_plot_fits_inv in Hsc
        as (t'' & Hs' & _ & xv & yv & text & fts & Hxv & Hyv & Htext & Hf & ->).
      rewrite Hs in Hs'. injection Hs' as <-.
      exists xv, yv, text, fts. cbn [fig_data]. split; [reflexivity|]. split.
      * exact (sorted_pairs_perm _ _ _ _ _ _ _ _ _ Hs Hx2 Hy2 Hxv Hyv).
      * split; [exact (sort_by_sorted _ _ _ _ Hs Hxv)|].
        cbn [app] in Hf. apply Forall2_map_l in Hf.
        assert (Hf' : Forall2 (fun i tr => In i (seq 1 d) /\
                         exists fv, get_col t' (fit_name i) = Ok fv /\
                           tr = scatter (Col xv) (Col fv) (Some (VStr (fit_name i))) None
                                        "lines+markers") (seq 1 d) fts).
        { clear -Hf. induction Hf as [|i tr l l' Hh Ht IH]; constructor.
          - split; [now left | exact Hh].
          - eapply Forall2_impl; [|exact IH]. intros j tr' [Hj H]. split; [now right | exact H]. }
        eapply Forall2_impl; [|exact Hf']. intros i tr (Hi & fv & Hfv & ->).
        exists fv. split; [reflexivity|].
        exact (sorted_pairing _ _ _ _ _ _ (polyval (zf i)) _ _ Hs Hx2 (Hfits i Hi) Hxv Hfv).
Qed.

Lemma make_poly_fits_spec_witness :
  exists stats fig st',
    make_poly_fits NumericQ.polyfit_Q NumericQ.sqrt_Q 0%nat "published_date" "reads" 2
      (store_of Samples.articles) = (Ok (stats, fig), st') /\
    map fs_fit stats = ["fit degree = 1"; "fit degree = 2"] /\
    length (fig_data fig) = 3%nat.
Proof.
  pose (xs := [3; 1; 2; 4] : list Q).
  pose (ys := [5; 2; 7; 1] : list Q).
  pose (zf := fun i => match NumericQ.polyfit_Q xs ys i with Ok (z, _) => z | Err _ => [] end).
  pose (rf := fun i => match NumericQ.polyfit_Q xs ys i with
                       | Ok (_, r :: _) => r | _ => 0 end).
  destruct (make_poly_fits_spec NumericQ.polyfit_Q NumericQ.sqrt_Q (store_of Samples.articles)
              0%nat "published_date" "reads" 2 xs ys zf rf)
    as (fig & st' & Hrun & xv & yv & text & fts & Hd & _ & _ & Hf).
  - repeat constructor.
  - reflexivity.
  - reflexivity.
  - cbn. tauto.
  - intros i Hi. assert (i = 1 \/ i = 2)%nat as [-> | ->] by lia;
      split; intros H; vm_compute in H; discriminate H.
  - intros i Hi. assert (i = 1 \/ i = 2)%nat as [-> | ->] by lia;
      exists []; vm_compute; reflexivity.
  - eexists; exists fig, st'. split; [exact Hrun|]. split; [reflexivity|].
    rewrite Hd. cbn [length]. rewrite <- (Forall2_length Hf). reflexivity.
Defined.

(** ** C7: the fit of [make_linear_regression] *)

(** C7 (amended): a successful [make_linear_regression] on a well-formed
    frame whose columns [x] and [y] are not named [fit_values].  With
    [intercept_0] it calls the least-squares routine on [y] against [x]
    alone and gets one parameter, the slope; otherwise it calls
    [linregress] on [x] and [y] and reads its slope and intercept.  In the
    frame after the call every row's [fit_values] cell is the slope times its
    [x] cell (plus the intercept when fitted).  The figure holds two traces
    over the same x values: the observations, whose (x, y) pairs are those
    of the input columns, sorted on x, and the fitted values, each the
    slope times its x value (plus the intercept when fitted); its one
    annotation states the equation, slope and intercept formatted by
    [format_2f]. *)
Theorem make_linear_regression_fit ols_params linregress format_2f (st : store) (df : loc)
    (x y : string) (intercept_0 : bool) (fig : figure) (summ : summary) (st' : store) :
  wf_table (heap st df) -> x <> "fit_values" -> y <> "fit_values" ->
  make_linear_regression ols_params linregress format_2f df x y intercept_0 st
    = (Ok (fig, summ), st') ->
  exists xs ys slope intercept,
    get_col (heap st df) x = Ok (map VNum xs) /\
    get_col (heap st df) y = Ok (map VNum ys) /\
    (if intercept_0
     then ols_params ys xs = Ok [slope] /\ intercept = 0
     else exists lr, linregress xs ys = Ok lr /\
                     slope = lr_slope lr /\ intercept = lr_intercept lr) /\
    (exists ix ifit,
       col_index (columns (heap st' df)) x = Some ix /\
       col_index (columns (heap st' df)) "fit_values" = Some ifit /\
       Forall (fun r => exists q, cell ix r = VNum q /\
                 cell ifit r = VNum (if intercept_0 then q * slope else q * slope + intercept))
              (rows (heap st' df))) /\
    (exists xv yv text fv,
       get_col (heap st' df) x = Ok xv /\ get_col (heap st' df) y = Ok yv /\
       get_col (heap st' df) "title" = Ok text /\
       get_col (heap st' df) "fit_values" = Ok fv /\
       fig_data fig =
         [scatter (Col xv) (Col yv) (Some (VStr "observations")) (Some text) "markers";
          scatter (Col xv) (Col fv) (Some (VStr "fit_values")) None "lines+markers"] /\
       Permutation (combine (map VNum xs) (map VNum ys)) (combine xv yv) /\
       Sorted vle xv /\
       Forall2 (fun a b => exists q, a = VNum q /\
                  b = VNum (if intercept_0 then q * slope else q * slope + intercept))
               xv fv) /\
    (exists ax ay,
       lo_annotations (fig_layout fig) =
         Some [mk_annotation ax ay
                 (if intercept_0
                  then "$" ++ y ++ " = " ++ format_2f slope ++ " * " ++ replace_us x ++ "$"
                  else "$" ++ y ++ " = " ++ format_2f slope ++ " * " ++ replace_us x
                         ++ " + " ++ format_2f intercept ++ "$")%string]).
Proof.
  intros Hwf Hx Hyf H. unfold make_linear_regression in H.
  destruct intercept_0; M_inv.
  - destruct a1 as [|slope [|? ?]]; cbn in H; try discriminate. injection H as <-.
    assert (a8 = a2) by (apply map_VNum_inj; congruence). subst a8.
    injection H0 as -> ->.
    apply scatter_plot_fits_inv in Hm3
      as (t' & Hs & -> & xv & yv & text & fts & Hxv & Hyv & Htext & Hf & ->).
    cbn [heap] in Hs. rewrite Nat.eqb_refl in Hs.
    destruct (get_col_ok_index _ _ _ Hr) as (ix & Hix & Hxcells).
    destruct (col_index_spec _ _ _ Hix) as [Hixl Hnth].
    destruct (set_col_rowwise (heap st df) "fit_values" ix a2 (fun q => q * slope) Hwf Hixl
                ltac:(congruence) (eq_sym Hxcells))
      as (ifit & Hif & Hkeep & _ & _ & Hrows).
    destruct (sort_by_ok _ _ _ Hs) as [Hcols Hperm].
    inversion Hf as [|? ? ? ? (fv & Hfv & ->) Hnil]; subst. inversion Hnil; subst.
    assert (Hlen : length (map (fun xi => VNum (xi * hd 0 [slope])) a2)
                   = length (rows (heap st df)))
      by (rewrite length_map, <- (get_col_length _ _ _ Hr); symmetry; apply length_map).
    destruct (set_col_spec _ "fit_values" _ Hwf Hlen) as (_ & Hnew & Hold).
    exists a2, a7, slope, 0. cbn [heap]. rewrite Nat.eqb_refl.
    split; [exact Hr|]. split; [exact Hr1|]. split; [auto|]. split; [|split].
    + exists ix, ifit. rewrite Hcols. split; [now apply Hkeep|]. split; [exact Hif|].
      exact (Forall_perm _ _ _ Hperm Hrows).
    + exists xv, yv, text, fv. repeat split; auto.
      * refine (sorted_pairs_perm _ t' _ _ y _ _ xv yv Hs _ _ Hxv Hyv);
          rewrite Hold by assumption; assumption.
      * exact (sort_by_sorted _ _ _ _ Hs Hxv).
      * refine (sorted_pairing _ t' _ _ "fit_values" a2 (fun q => q * slope) xv fv Hs _ _
                  Hxv Hfv); [rewrite Hold by assumption; exact Hr | exact Hnew].
    + eexists; eexists; reflexivity.
  - assert (a0 = map VNum a6) by congruence. subst a0.
    rewrite map_res_to_float in Hr0. injection Hr0 as <-.
    injection H as -> ->.
    apply scatter_plot_fits_inv in Hm2
      as (t' & Hs & -> & xv & yv & text & fts & Hxv & Hyv & Htext & Hf & ->).
    cbn [heap] in Hs. rewrite Nat.eqb_refl in Hs.
    destruct (get_col_ok_index _ _ _ Hr) as (ix & Hix & Hxcells).
    destruct (col_index_spec _ _ _ Hix) as [Hixl Hnth].
    destruct (set_col_rowwise (heap st df) "fit_values" ix a6
                (fun q => q * lr_slope a1 + lr_intercept a1) Hwf Hixl
                ltac:(congruence) (eq_sym Hxcells))
      as (ifit & Hif & Hkeep & _ & _ & Hrows).
    destruct (sort_by_ok _ _ _ Hs) as [Hcols Hperm].
    inversion Hf as [|? ? ? ? (fv & Hfv & ->) Hnil]; subst. inversion Hnil; subst.
    assert (Hlen : length (map (fun q => VNum (q * lr_slope a1 + lr_intercept a1)) a6)
                   = length (rows (heap st df)))
      by (rewrite length_map, <- (get_col_length _ _ _ Hr); symmetry; apply length_map).
    destruct (set_col_spec _ "fit_values" _ Hwf Hlen) as (_ & Hnew & Hold).
    exists a6, a7, (lr_slope a1), (lr_intercept a1). cbn [heap]. rewrite Nat.eqb_refl.
    split; [exact Hr1|]. split; [exact Hr3|]. split; [eauto|]. split; [|split].
    + exists ix, ifit. rewrite Hcols. split; [now apply Hkeep|]. split; [exact Hif|].
      exact (Forall_perm _ _ _ Hperm Hrows).
    + exists xv, yv, text, fv. repeat split; auto.
      * refine (sorted_pairs_perm _ t' _ _ y _ _ xv yv Hs _ _ Hxv Hyv);
          rewrite Hold by assumption; assumption.
      * exact (sort_by_sorted _ _ _ _ Hs Hxv).
      * refine (sorted_pairing _ t' _ _ "fit_values" a6
                  (fun q => q * lr_slope a1 + lr_intercept a1) xv fv Hs _ _ Hxv Hfv);
          [rewrite Hold by assumption; assumption | exact Hnew].
    + eexists; eexists; reflexivity.
Qed.

Lemma make_linear_regression_fit_witness :
  wf_table Samples.articles /\ "published_date" <> "fit_values" /\ "reads" <> "fit_values" /\
  exists fig summ st',
    make_linear_regression NumericQ.ols_Q NumericQ.linregress_Q NumericQ.format_2f_Q
      0%nat "published_date" "reads" false (store_of Samples.articles)
      = (Ok (fig, summ), st') /\
    exists xs ys lr,
      get_col Samples.articles "published_date" = Ok (map VNum xs) /\
      get_col Samples.articles "reads" = Ok (map VNum ys) /\
      NumericQ.linregress_Q xs ys = Ok lr.
Proof.
  assert (Hwf : wf_table Samples.articles) by (repeat constructor).
  assert (Hx : "published_date" <> "fit_values") by discriminate.
  assert (Hy : "reads" <> "fit_values") by discriminate.
  split; [exact Hwf|]. split; [exact Hx|]. split; [exact Hy|].
  destruct (make_linear_regression NumericQ.ols_Q NumericQ.linregress_Q NumericQ.format_2f_Q
              0%nat "published_date" "reads" false (store_of Samples.articles))
    as [[[fig summ]|e] st'] eqn:E; [|vm_compute in E; discriminate E].
  exists fig, summ, st'. split; [reflexivity|].
  destruct (make_linear_regression_fit NumericQ.ols_Q NumericQ.linregress_Q
              NumericQ.format_2f_Q (store_of Samples.articles) 0%nat "published_date" "reads"
              false fig summ st' Hwf Hx Hy E)
    as (xs & ys & slope & intercept & Hxs & Hys & (lr & Hlr & _) & _).
  exists xs, ys, lr. auto.
Defined.

(** C7 (counterexample): when the column [y] is named [fit_values] (the
    values of [x ^ 2] at 0, 1, 2, 3), the code writes the fitted line
    [3 x - 1] into that column before plotting it: the figure's observation
    trace holds the fitted values -1, 2, 5, 8 instead of the data 0, 1, 4,
    9, and both of its traces are the same line. *)
Theorem make_linear_regression_fit_values_label :
  get_col Samples.fit_values_column "fit_values" = Ok [VNum 0; VNum 1; VNum 4; VNum 9] /\
  exists fig summ,
    fst (make_linear_regression NumericQ.ols_Q NumericQ.linregress_Q NumericQ.format_2f_Q
           0%nat "x" "fit_values" false (store_of Samples.fit_values_column))
      = Ok (fig, summ) /\
    map tr_y (fig_data fig)
      = [Some (Col [VNum (-1); VNum 2; VNum 5; VNum 8]);
         Some (Col [VNum (-1); VNum 2; VNum 5; VNum 8])].
Proof. split; [reflexivity|]. vm_compute. do 2 eexists. split; reflexivity. Qed.

(* ------------------------------------------------------------------ *)
(** * Further properties of the module *)

(** ** Calls that leave the store as they found it *)


Lemma reads_only_ret {A} (a : A) : reads_only (ret a).
Proof. intros st. reflexivity. Qed.
Lemma reads_only_raise {A} e : reads_only (@raise A e).
Proof. intros st. reflexivity. Qed.
Lemma reads_only_lift {A} (r : result A) : reads_only (lift r).
Proof. destruct r; intros st; reflexivity. Qed.
Lemma reads_only_load l : reads_only (load l).
Proof. intros st. reflexivity. Qed.
Lemma reads_only_bind {A B} (m : M A) (k : A -> M B) :
  reads_only m -> (forall a, reads_only (k a)) -> reads_only (bind m k).
Proof.
  intros Hm Hk st. unfold bind. specialize (Hm st).
  destruct (m st) as [[a|e] st0]; cbn in *; subst; [apply Hk | reflexivity].
Qed.

Create HintDb reads.
#[local] Hint Resolve reads_only_ret reads_only_raise reads_only_lift reads_only_load : reads.

Ltac reads_tac :=
  repeat match goal with
         | |- reads_only (bind _ _) => apply reads_only_bind; [|intros ?]
         | |- reads_only (match ?x with _ => _ end) => destruct x
         | |- reads_only (let '(_, _) := ?x in _) => destruct x
         | |- reads_only (if ?b then _ else _) => destruct b
         | |- reads_only _ => solve [eauto with reads]
         end.

(** X1: [make_hist] changes no object of the store, whatever its outcome:
    grouping builds new frames and the caller's frame is only read. *)
Theorem make_hist_keeps_store (df : loc) (x : string) (category : option string) (st : store) :
  snd (make_hist df x category st) = st.
Proof. revert st. change (reads_only (make_hist df x category)). unfold make_hist. reads_tac. Qed.

(** X2: [make_iplot] changes no object of the store, whatever its outcome:
    it only reads [data] and the filtered copies it makes. *)
Theorem make_iplot_keeps_store linregress format_2f (data : loc) (x y base_title : string)
    (time : bool) (eq_pos : Q * Q) (st : store) :
  snd (make_iplot linregress format_2f data x y base_title time eq_pos st) = st.
Proof. revert st. change (reads_only (make_iplot linregress format_2f data x y base_title time eq_pos)).
  unfold make_iplot. reads_tac. Qed.

(** X3: with a category, [make_cum_plot] changes no object of the store:
    the in-place sort applies to each group, a new frame. *)
Theorem make_cum_plot_grouped_keeps_store (df : loc) (y : ysel) (c : string) (st : store) :
  snd (make_cum_plot df y (Some c) st) = st.
Proof. revert st. change (reads_only (make_cum_plot df y (Some c))). unfold make_cum_plot. reads_tac. Qed.

(** X4: with a category, or with a scale and no category,
    [make_scatter_plot] changes no object of the store; only the branch
    without both sorts the caller's frame. *)
Theorem make_scatter_plot_grouped_or_scaled_keeps_store (df : loc) (x y : string)
    (fits : option (list string)) (xlog ylog : bool) (c s : string) (scale : option string)
    (sizeref : Q) (annotations : option (list annotation)) (st : store) :
  snd (make_scatter_plot df x y fits xlog ylog (Some c) scale sizeref annotations st) = st /\
  snd (make_scatter_plot df x y fits xlog ylog None (Some s) sizeref annotations st) = st.
Proof.
  split; revert st;
  [change (reads_only (make_scatter_plot df x y fits xlog ylog (Some c) scale sizeref annotations))
  |change (reads_only (make_scatter_plot df x y fits xlog ylog None (Some s) sizeref annotations))];
  unfold make_scatter_plot; reads_tac.
Qed.

(** ** [make_cum_plot], [make_scatter_plot] and [make_poly_fits] *)


Lemma Qplus_0_l_eq (q : Q) : (0 + q)%Q = q.
Proof. destruct q as [n d]. unfold Qplus. cbn. now rewrite Z.mul_1_r. Qed.

Lemma cumsum_from_num (a : Q) (qs : list Q) :
  cumsum_from (VNum a) (map VNum qs)
  = Ok (map (fun k => VNum (fold_left Qplus (firstn (S k) qs) a)) (seq 0 (length qs))).
Proof.
  revert a; induction qs as [|q qs IH]; intros a; [reflexivity|].
  cbn [map cumsum_from py_add res_bind]. rewrite IH. cbn [res_bind].
  cbn [length seq map firstn fold_left]. rewrite <- seq_shift, map_map. reflexivity.
Qed.

Lemma cumsum_num (qs : list Q) : cumsum (map VNum qs) = Ok (map VNum (prefix_sums qs)).
Proof.
  destruct qs as [|q qs]; [reflexivity|].
  cbn [map cumsum]. rewrite cumsum_from_num. cbn [res_bind].
  unfold prefix_sums. cbn [length seq map firstn fold_left].
  rewrite Qplus_0_l_eq, <- seq_shift, !map_map. reflexivity.
Qed.


(** X5: without a category and for a column label [c] whose length is not
    2, a successful [make_cum_plot] leaves the caller's frame sorted by
    [published_date] and returns one trace: the sorted dates (in increasing
    order) against the running sums of column [c] over the sorted rows (the
    prefix sums when the column is numeric), titled "Cumulative <C>". *)
Theorem make_cum_plot_single_column (df : loc) (c : string) (st st' : store) (fig : figure) :
  String.length c <> 2%nat ->
  make_cum_plot df (YCol c) None st = (Ok fig, st') ->
  exists t' xs vs cs text,
    sort_by (heap st df) "published_date" = Ok t' /\ heap st' df = t' /\
    get_col t' "published_date" = Ok xs /\ Sorted vle xs /\
    get_col t' c = Ok vs /\ cumsum vs = Ok cs /\
    (forall qs, vs = map VNum qs -> cs = map VNum (prefix_sums qs)) /\
    get_col t' "title" = Ok text /\
    fig_data fig = [cum_trace xs (Col cs) None text None None] /\
    lo_title (fig_layout fig) = Some ("Cumulative " ++ pretty c)%string.
Proof.
  intros Hlen. apply Nat.eqb_neq in Hlen.
  unfold make_cum_plot, sort_values_inplace, bind, load, lift, store_at, ret, raise.
  cbn -[sort_by get_col cumsum].
  destruct (sort_by (heap st df) "published_date") as [t'|e] eqn:Hs; [|discriminate].
  cbn [heap]. rewrite Nat.eqb_refl. cbn [py_len]. rewrite Hlen.
  destruct (get_col t' "published_date") as [xs|e] eqn:Ex; cbn -[get_col cumsum]; [|discriminate].
  destruct (get_col t' c) as [vs|e] eqn:Ev; cbn -[get_col cumsum]; [|discriminate].
  destruct (cumsum vs) as [cs|e] eqn:Ec; cbn -[get_col cumsum]; [|discriminate].
  destruct (get_col t' "title") as [text|e] eqn:Et; cbn -[get_col cumsum]; [|discriminate].
  cbn.
  intros [= <- <-]. exists t', xs, vs, cs, text. cbn. rewrite Nat.eqb_refl.
  repeat match goal with |- _ /\ _ => split end; try reflexivity; try assumption.
  - eapply sort_by_sorted; eassumption.
  - intros qs ->. rewrite cumsum_num in Ec. congruence.
Qed.

Lemma make_cum_plot_single_column_witness :
  String.length "reads" <> 2%nat /\
  exists fig st',
    make_cum_plot 0%nat (YCol "reads") None (store_of Samples.articles) = (Ok fig, st') /\
    exists cs,
      fig_data fig = [cum_trace [VNum 1; VNum 2; VNum 3; VNum 4] (Col cs) None
                                [VStr "a"; VStr "b"; VStr "c"; VStr "d"] None None] /\
      cs = map VNum (prefix_sums [2; 7; 5; 1]%Q).
Proof.
  split; [discriminate|].
  eexists; eexists. run_call E.
  destruct (make_cum_plot_single_column 0%nat "reads" _ _ _ ltac:(discriminate) E)
    as (t' & xs & vs & cs & text & Hs & _ & Hx & _ & Hv & _ & Hpre & Ht & Hd & _).
  vm_compute in Hs. injection Hs as <-.
  vm_compute in Hx, Hv, Ht. injection Hx as <-. injection Ht as <-. injection Hv as <-.
  exists cs. split; [exact Hd|]. apply Hpre. reflexivity.
Defined.

Lemma map_res_i_nth {A B} (f : nat -> A -> result B) (i0 : nat) (l : list A) (l' : list B) :
  map_res_i f i0 l = Ok l' ->
  length l' = length l /\
  forall j a, nth_error l j = Some a ->
    exists b, f (i0 + j)%nat a = Ok b /\ nth_error l' j = Some b.
Proof.
  revert i0 l'; induction l as [|a l IH]; intros i0 l'; cbn.
  - intros [= <-]. split; [reflexivity|]. intros [|j]; discriminate.
  - destruct (f i0 a) as [b|] eqn:Ef; cbn; [|discriminate].
    destruct (map_res_i f (S i0) l) as [bs|] eqn:Er; cbn; [|discriminate].
    intros [= <-]. destruct (IH (S i0) bs Er) as [Hl Hn].
    split; [cbn; congruence|].
    intros [|j] a' Ha; cbn in Ha.
    + injection Ha as <-. exists b. rewrite Nat.add_0_r. auto.
    + destruct (Hn j a' Ha) as (b' & Hb & Hb'). exists b'.
      rewrite <- Nat.add_succ_comm. auto.
Qed.

(** X6: with a category and a column label [y] whose length is not 2, a
    successful [make_cum_plot] returns one trace per group of the category,
    in group order: the [i]-th holds the group's dates sorted increasingly
    against the running sums of [y] over the group's rows in that order,
    is named by the group's key and uses marker symbol [i + 2]. *)
Theorem make_cum_plot_grouped (df : loc) (y c : string) (st st' : store) (fig : figure) :
  String.length y <> 2%nat ->
  make_cum_plot df (YCol y) (Some c) st = (Ok fig, st') ->
  exists groups,
    groupby (heap st df) c = Ok groups /\
    length (fig_data fig) = length groups /\
    (forall i k g, nth_error groups i = Some (k, g) ->
       exists g' xs vs cs text,
         sort_by g "published_date" = Ok g' /\
         get_col g' "published_date" = Ok xs /\ Sorted vle xs /\
         get_col g' y = Ok vs /\ cumsum vs = Ok cs /\
         (forall qs, vs = map VNum qs -> cs = map VNum (prefix_sums qs)) /\
         get_col g' "title" = Ok text /\
         nth_error (fig_data fig) i
           = Some (cum_trace xs (Col cs) (Some k) text None (Some (i + 2)%nat))) /\
    lo_title (fig_layout fig) = Some ("Cumulative " ++ pretty y ++ " by " ++ pretty c)%string.
Proof.
  intros Hlen. apply Nat.eqb_neq in Hlen.
  unfold make_cum_plot, bind, load, lift, ret, raise.
  cbn -[groupby map_res_i sort_by get_col cumsum]. cbn [py_len]. rewrite Hlen.
  destruct (groupby (heap st df) c) as [groups|e] eqn:Hg; [|discriminate].
  cbn -[map_res_i sort_by get_col cumsum].
  destruct (map_res_i _ 0%nat groups) as [trs|e] eqn:Hm; [|discriminate].
  cbn. intros [= <- <-]. exists groups. cbn.
  destruct (map_res_i_nth _ _ _ _ Hm) as [Hl Hn].
  split; [reflexivity|]. split; [exact Hl|]. split; [|reflexivity].
  intros i k g Hi. destruct (Hn i (k, g) Hi) as (tr & Htr & Hnth). cbn beta iota in Htr.
  destruct (sort_by g "published_date") as [g'|] eqn:Hs; cbn in Htr; [|discriminate].
  destruct (get_col g' "published_date") as [xs|] eqn:Hx; cbn in Htr; [|discriminate].
  destruct (get_col g' y) as [vs|] eqn:Hv; cbn in Htr; [|discriminate].
  destruct (cumsum vs) as [cs|] eqn:Hc; cbn in Htr; [|discriminate].
  destruct (get_col g' "title") as [text|] eqn:Ht; cbn in Htr; [|discriminate].
  injection Htr as <-. exists g', xs, vs, cs, text.
  repeat match goal with |- _ /\ _ => split end; try assumption; try reflexivity.
  - eapply sort_by_sorted; eassumption.
  - intros qs ->. rewrite cumsum_num in Hc. congruence.
Qed.

Lemma make_cum_plot_grouped_witness :
  String.length "reads" <> 2%nat /\
  exists fig st',
    make_cum_plot 0%nat (YCol "reads") (Some "tag") (store_of Samples.articles)
      = (Ok fig, st') /\
    exists cs,
      nth_error (fig_data fig) 1
        = Some (cum_trace [VNum 2; VNum 3] (Col cs) (Some (VStr "b"))
                          [VStr "b"; VStr "c"] None (Some 3%nat)) /\
      cs = map VNum (prefix_sums [7; 5]%Q).
Proof.
  split; [discriminate|].
  eexists; eexists. run_call E.
  destruct (make_cum_plot_grouped 0%nat "reads" "tag" _ _ _ ltac:(discriminate) E)
    as (groups & Hg & _ & Hall & _).
  vm_compute in Hg. injection Hg as <-.
  edestruct (Hall 1%nat) as (g' & xs & vs & cs & text & Hs & Hx & _ & Hv & _ & Hpre & Ht & Hd);
    [reflexivity|].
  vm_compute in Hs. injection Hs as <-.
  vm_compute in Hx, Hv, Ht. injection Hx as <-. injection Ht as <-. injection Hv as <-.
  exists cs. split; [exact Hd|]. apply Hpre. reflexivity.
Defined.

(** X7: without a category and for a list of two labels [a; b], a
    successful [make_cum_plot] sorts the caller's frame by [published_date]
    and returns two traces over the sorted dates: the running sums of [a],
    then those of [b] on the second y axis; names and axis titles use
    [str.title] without replacing underscores. *)
Theorem make_cum_plot_two_columns (df : loc) (a b : string) (st st' : store) (fig : figure) :
  make_cum_plot df (YList [a; b]) None st = (Ok fig, st') ->
  exists t' xs va vb sa sb text,
    sort_by (heap st df) "published_date" = Ok t' /\ heap st' df = t' /\
    get_col t' "published_date" = Ok xs /\ Sorted vle xs /\
    get_col t' a = Ok va /\ cumsum va = Ok sa /\
    (forall qs, va = map VNum qs -> sa = map VNum (prefix_sums qs)) /\
    get_col t' b = Ok vb /\ cumsum vb = Ok sb /\
    (forall qs, vb = map VNum qs -> sb = map VNum (prefix_sums qs)) /\
    get_col t' "title" = Ok text /\
    fig_data fig = [cum_trace xs (Col sa) (Some (VStr (py_title a))) text None None;
                    cum_trace xs (Col sb) (Some (VStr (py_title b))) text (Some "y2") None] /\
    lo_title (fig_layout fig)
      = Some ("Cumulative " ++ py_title a ++ " and " ++ py_title b)%string /\
    lo_yaxis (fig_layout fig) = axis_titled (py_title a) None /\
    lo_yaxis2 (fig_layout fig) = Some (axis_titled (py_title b) None).
Proof.
  unfold make_cum_plot, sort_values_inplace, bind, load, lift, store_at, ret, raise.
  cbn -[sort_by get_col cumsum].
  destruct (sort_by (heap st df) "published_date") as [t'|e] eqn:Hs; [|discriminate].
  cbn [heap]. rewrite Nat.eqb_refl. cbn -[get_col cumsum].
  destruct (get_col t' "published_date") as [xs|e] eqn:Hx; cbn -[get_col cumsum]; [|discriminate].
  destruct (get_col t' a) as [va|e] eqn:Ha; cbn -[get_col cumsum]; [|discriminate].
  destruct (cumsum va) as [sa|e] eqn:Hca; cbn -[get_col cumsum]; [|discriminate].
  destruct (get_col t' "title") as [text|e] eqn:Ht; cbn -[get_col cumsum]; [|discriminate].
  destruct (get_col t' b) as [vb|e] eqn:Hb; cbn -[get_col cumsum]; [|discriminate].
  destruct (cumsum vb) as [sb|e] eqn:Hcb; cbn -[get_col cumsum]; [|discriminate].
  intros [= <- <-]. exists t', xs, va, vb, sa, sb, text. cbn. rewrite Nat.eqb_refl.
  repeat match goal with |- _ /\ _ => split end; try assumption; try reflexivity.
  - eapply sort_by_sorted; eassumption.
  - intros qs ->. rewrite cumsum_num in Hca. congruence.
  - intros qs ->. rewrite cumsum_num in Hcb. congruence.
Qed.

(** X8: [make_cum_plot] never returns a figure for a list of labels whose
    length is not 2: the layout calls [y.replace], which lists lack
    (AttributeError), unless an earlier step has already raised. *)
Theorem make_cum_plot_list_not_two (df : loc) (l : list string) (category : option string)
    (st : store) :
  length l <> 2%nat ->
  exists e, fst (make_cum_plot df (YList l) category st) = Err e.
Proof.
  intros Hlen. apply Nat.eqb_neq in Hlen.
  unfold make_cum_plot, bind at 1.
  destruct (_ st) as [[data|e] st1]; [|exists e; reflexivity].
  unfold bind, lift, raise. cbn [py_len y_pretty]. rewrite Hlen. cbn.
  exists AttributeError. reflexivity.
Qed.

Lemma make_cum_plot_two_columns_witness :
  exists fig st',
    make_cum_plot 0%nat (YList ["reads"; "published_date"]) None (store_of Samples.articles)
      = (Ok fig, st') /\
    exists sa,
      fig_data fig
        = [cum_trace [VNum 1; VNum 2; VNum 3; VNum 4] (Col sa) (Some (VStr "Reads"))
                     [VStr "a"; VStr "b"; VStr "c"; VStr "d"] None None;
           cum_trace [VNum 1; VNum 2; VNum 3; VNum 4]
                     (Col (map VNum (prefix_sums [1; 2; 3; 4]%Q)))
                     (Some (VStr "Published_Date"))
                     [VStr "a"; VStr "b"; VStr "c"; VStr "d"] (Some "y2") None] /\
      sa = map VNum (prefix_sums [2; 7; 5; 1]%Q) /\
      lo_yaxis2 (fig_layout fig) = Some (axis_titled "Published_Date" None).
Proof.
  eexists; eexists. run_call E.
  destruct (make_cum_plot_two_columns 0%nat "reads" "published_date" _ _ _ E)
    as (t' & xs & va & vb & sa & sb & text & Hs & _ & Hx & _ & Ha & _ & Hpa & Hb & _ & Hpb
        & Ht & Hd & _ & _ & Hy2).
  vm_compute in Hs. injection Hs as <-.
  vm_compute in Hx, Ha, Hb, Ht. injection Hx as <-. injection Ht as <-.
  injection Ha as <-. injection Hb as <-.
  exists sa. rewrite Hd, (Hpb [1; 2; 3; 4]%Q eq_refl).
  split; [reflexivity|]. split; [apply Hpa; reflexivity | exact Hy2].
Defined.

Lemma make_cum_plot_list_not_two_witness :
  length ["reads"] <> 2%nat /\
  exists e, fst (make_cum_plot 0%nat (YList ["reads"]) None (store_of Samples.articles)) = Err e.
Proof.
  split; [discriminate|].
  exact (make_cum_plot_list_not_two 0%nat ["reads"] None _ ltac:(discriminate)).
Defined.

Lemma string_app_assoc (a b c : string) : ((a ++ b) ++ c)%string = (a ++ b ++ c)%string.
Proof. induction a as [|ch a IH]; cbn; [reflexivity | now rewrite IH]. Qed.

Lemma scatter_plot_fits_shape df x y fs xlog ylog sizeref annotations st fig st' :
  make_scatter_plot df x y (Some fs) xlog ylog None None sizeref annotations st
    = (Ok fig, st') ->
  exists t' xs,
    sort_by (heap st df) x = Ok t' /\ heap st' df = t' /\
    get_col t' x = Ok xs /\ Sorted vle xs /\
    map tr_name (fig_data fig) = Some (VStr "observations") :: map (fun f => Some (VStr f)) fs /\
    Forall (fun tr => tr_x tr = Some (Col xs)) (fig_data fig) /\
    lo_title (fig_layout fig) = Some (pretty y ++ " vs " ++ pretty x ++ " with Fit")%string.
Proof.
  unfold make_scatter_plot, sort_values_inplace, bind, load, lift, store_at, ret, raise.
  cbn -[sort_by get_col map_res].
  destruct (sort_by (heap st df) x) as [t'|e] eqn:Hs; [|discriminate].
  cbn [heap]. rewrite Nat.eqb_refl.
  destruct (get_col t' x) as [xv|e] eqn:Ex; cbn -[get_col map_res]; [|discriminate].
  destruct (get_col t' y) as [yv|e] eqn:Ey; cbn -[get_col map_res]; [|discriminate].
  destruct (get_col t' "title") as [text|e] eqn:Et; cbn -[get_col map_res]; [|discriminate].
  destruct (map_res _ fs) as [fts|e] eqn:Ef; [|discriminate].
  intros [= <- <-]. exists t', xv. cbn. rewrite Nat.eqb_refl.
  apply map_res_Forall2 in Ef.
  repeat match goal with |- _ /\ _ => split end; try reflexivity; try assumption.
  - eapply sort_by_sorted; eassumption.
  - f_equal. induction Ef as [|f tr fs fts Hf _ IH]; [reflexivity|].
    cbn beta in Hf. try rewrite Ex in Hf. cbn in Hf.
    destruct (get_col t' f); cbn in Hf; [|discriminate]. injection Hf as <-. cbn. now f_equal.
  - constructor; [reflexivity|].
    induction Ef as [|f tr fs fts Hf _ IH]; constructor; [|exact IH].
    cbn beta in Hf. try rewrite Ex in Hf. cbn in Hf.
    destruct (get_col t' f); cbn in Hf; [|discriminate]. injection Hf as <-. reflexivity.
  - now rewrite string_app_assoc.
Qed.

(** X9: without a category or a scale and with a list [fs] of fit columns,
    a successful [make_scatter_plot] sorts the caller's frame by [x] and
    returns the observations followed by one trace per fit, named by it,
    all over the sorted [x] column; the title ends in " with Fit" even when
    [fs] is empty. *)
Theorem make_scatter_plot_fit_traces df x y fs xlog ylog sizeref annotations st fig st' :
  make_scatter_plot df x y (Some fs) xlog ylog None None sizeref annotations st
    = (Ok fig, st') ->
  exists t' xs,
    sort_by (heap st df) x = Ok t' /\ heap st' df = t' /\
    get_col t' x = Ok xs /\ Sorted vle xs /\
    map tr_name (fig_data fig) = Some (VStr "observations") :: map (fun f => Some (VStr f)) fs /\
    Forall (fun tr => tr_x tr = Some (Col xs)) (fig_data fig) /\
    lo_title (fig_layout fig) = Some (pretty y ++ " vs " ++ pretty x ++ " with Fit")%string.
Proof. apply scatter_plot_fits_shape. Qed.

(** X10: for a degree of at most 0, a successful [make_poly_fits] computes
    no fit: the statistics are empty and the figure holds the observations
    alone, although its title ends in " with Fit". *)
Theorem make_poly_fits_nonpositive_degree polyfit py_sqrt (df : loc) (x y : string) (degree : Z)
    (st st' : store) (stats : list fit_stat) (fig : figure) :
  (degree <= 0)%Z ->
  make_poly_fits polyfit py_sqrt df x y degree st = (Ok (stats, fig), st') ->
  stats = [] /\
  map tr_name (fig_data fig) = [Some (VStr "observations")] /\
  lo_title (fig_layout fig) = Some (pretty y ++ " vs " ++ pretty x ++ " with Fit")%string.
Proof.
  intros Hd.
  unfold make_poly_fits. unfold bind at 1.
  destruct (copy df st) as [[c|e] st1]; [|discriminate].
  replace (Z.to_nat degree) with 0%nat by lia. cbn [seq fits_loop].
  unfold bind at 1, ret at 1. cbn iota beta zeta.
  unfold bind. destruct (make_scatter_plot c x y (Some []) false false None None 2 None st1)
    as [[f|e] st2] eqn:Hs; [|discriminate].
  unfold ret. intros [= <- <- _]. split; [reflexivity|].
  destruct (scatter_plot_fits_shape _ _ _ _ _ _ _ _ _ _ _ Hs) as (t' & xs & _ & _ & _ & _ & Hn & _ & Ht).
  split; assumption.
Qed.

Lemma make_scatter_plot_fit_traces_witness :
  exists fig st',
    make_scatter_plot 0%nat "published_date" "reads" (Some []) false false None None 2 None
      (store_of Samples.articles) = (Ok fig, st') /\
    map tr_name (fig_data fig) = [Some (VStr "observations")] /\
    lo_title (fig_layout fig) = Some "Reads vs Published Date with Fit".
Proof.
  eexists; eexists. run_call E.
  destruct (make_scatter_plot_fit_traces _ _ _ _ _ _ _ _ _ _ _ E)
    as (t' & xs & _ & _ & _ & _ & Hn & _ & Ht).
  split; [exact Hn | rewrite Ht; reflexivity].
Defined.

Lemma make_poly_fits_nonpositive_degree_witness :
  exists stats fig st',
    make_poly_fits NumericQ.polyfit_Q NumericQ.sqrt_Q 0%nat "published_date" "reads" 0
      (store_of Samples.articles) = (Ok (stats, fig), st') /\
    stats = [] /\
    map tr_name (fig_data fig) = [Some (VStr "observations")] /\
    lo_title (fig_layout fig) = Some "Reads vs Published Date with Fit".
Proof.
  eexists; eexists; eexists. run_call E.
  destruct (make_poly_fits_nonpositive_degree NumericQ.polyfit_Q NumericQ.sqrt_Q
              0%nat "published_date" "reads" 0%Z _ _ _ _ ltac:(lia) E) as (Hs & Hn & Ht).
  split; [exact Hs|]. split; [exact Hn | rewrite Ht; reflexivity].
Defined.

(** X11: with a category, a successful [make_scatter_plot] returns one
    marker trace per group of the category, in group order: the [i]-th
    holds the group's [x], [y] and [title] columns, is named by the group's
    key and uses marker symbol [i + 2]; [fits] and [scale] play no part. *)
Theorem make_scatter_plot_grouped (df : loc) (x y c : string) (fits : option (list string))
    (xlog ylog : bool) (scale : option string) (sizeref : Q)
    (annotations : option (list annotation)) (st st' : store) (fig : figure) :
  make_scatter_plot df x y fits xlog ylog (Some c) scale sizeref annotations st
    = (Ok fig, st') ->
  exists groups,
    groupby (heap st df) c = Ok groups /\
    length (fig_data fig) = length groups /\
    (forall i k g, nth_error groups i = Some (k, g) ->
       exists xs ys text,
         get_col g x = Ok xs /\ get_col g y = Ok ys /\ get_col g "title" = Ok text /\
         nth_error (fig_data fig) i
           = Some (mk_trace Scatter (Some (Col xs)) (Some (Col ys)) (Some k) (Some text)
                            (Some "markers") None (Some (i + 2)%nat) None)) /\
    lo_title (fig_layout fig)
      = Some (pretty y ++ " vs " ++ pretty x ++ " by " ++ pretty c)%string.
Proof.
  unfold make_scatter_plot, bind, load, lift, ret, raise.
  cbn -[groupby map_res_i get_col].
  destruct (groupby (heap st df) c) as [groups|e] eqn:Hg; [|discriminate].
  cbn -[map_res_i get_col].
  destruct (map_res_i _ 0%nat groups) as [trs|e] eqn:Hm; [|discriminate].
  cbn. intros [= <- <-]. exists groups. cbn.
  destruct (map_res_i_nth _ _ _ _ Hm) as [Hl Hn].
  split; [reflexivity|]. split; [exact Hl|]. split; [|reflexivity].
  intros i k g Hi. destruct (Hn i (k, g) Hi) as (tr & Htr & Hnth). cbn beta iota in Htr.
  destruct (get_col g x) as [xs|] eqn:Hx; cbn in Htr; [|discriminate].
  destruct (get_col g y) as [ys|] eqn:Hy; cbn in Htr; [|discriminate].
  destruct (get_col g "title") as [text|] eqn:Ht; cbn in Htr; [|discriminate].
  injection Htr as <-. exists xs, ys, text. auto.
Qed.

Lemma make_scatter_plot_grouped_witness :
  exists fig st',
    make_scatter_plot 0%nat "published_date" "reads" None false false (Some "tag") None 2 None
      (store_of Samples.articles) = (Ok fig, st') /\
    nth_error (fig_data fig) 1
      = Some (mk_trace Scatter (Some (Col [VNum 3; VNum 2])) (Some (Col [VNum 5; VNum 7]))
                       (Some (VStr "b")) (Some [VStr "c"; VStr "b"]) (Some "markers") None
                       (Some 3%nat) None).
Proof.
  eexists; eexists. run_call E.
  destruct (make_scatter_plot_grouped _ _ _ _ _ _ _ _ _ _ _ _ _ E) as (groups & Hg & _ & Hall & _).
  vm_compute in Hg. injection Hg as <-.
  edestruct (Hall 1%nat) as (xs & ys & text & Hx & Hy & Ht & Hd); [reflexivity|].
  vm_compute in Hx, Hy, Ht. injection Hx as <-. injection Hy as <-. injection Ht as <-.
  exact Hd.
Defined.

(** ** [make_iplot] *)

Lemma rangeZ_In (lo hi z : Z) : In z (rangeZ lo hi) <-> (lo <= z < hi)%Z.
Proof.
  unfold rangeZ. rewrite in_map_iff. split.
  - intros (k & <- & Hk). apply in_seq in Hk. lia.
  - intros Hz. exists (Z.to_nat (z - lo)). split; [lia|]. apply in_seq. lia.
Qed.

Lemma rangeZ_sorted (lo hi : Z) : Sorted Z.lt (rangeZ lo hi).
Proof.
  unfold rangeZ. generalize 0%nat. induction (Z.to_nat (hi - lo)) as [|m IH]; intros s; cbn.
  - constructor.
  - constructor; [apply IH|]. destruct m; cbn; constructor. lia.
Qed.

Lemma fold_left_max_spec (l : list Z) (a : Z) :
  In (fold_left Z.max l a) (a :: l) /\ forall z, In z (a :: l) -> (z <= fold_left Z.max l a)%Z.
Proof.
  revert a; induction l as [|b l IH]; intros a; cbn.
  - split; [auto|]. intros z [<-|[]]. lia.
  - destruct (IH (Z.max a b)) as [H1 H2]. split.
    + destruct H1 as [H1|H1]; [|auto]. rewrite <- H1.
      destruct (Z.max_spec a b) as [[_ ->]|[_ ->]]; auto.
    + intros z [<-|[<-|Hz]].
      * etransitivity; [|apply H2; left; reflexivity]. lia.
      * etransitivity; [|apply H2; left; reflexivity]. lia.
      * apply H2. now right.
Qed.

Lemma builtin_max_rangeZ (lo hi : Z) :
  (lo < hi)%Z -> builtin_max (rangeZ lo hi) = Ok (hi - 1)%Z.
Proof.
  intros Hlt. destruct (rangeZ lo hi) as [|a l] eqn:E.
  - exfalso. assert (Hin : In lo (rangeZ lo hi)) by (apply rangeZ_In; lia).
    rewrite E in Hin. exact Hin.
  - cbn. f_equal. destruct (fold_left_max_spec l a) as [H1 H2].
    rewrite <- E in H1, H2.
    apply rangeZ_In in H1. assert (H3 : (hi - 1 <= fold_left Z.max l a)%Z)
      by (apply H2, rangeZ_In; lia). lia.
Qed.

Lemma rangeZ_empty (lo hi : Z) : (hi <= lo)%Z -> rangeZ lo hi = [].
Proof. intros H. unfold rangeZ. replace (Z.to_nat (hi - lo)) with 0%nat by lia. reflexivity. Qed.

Lemma fold_left_sel_In (f : Q -> Q -> Q) (l : list Q) (a : Q) :
  (forall u v, f u v = u \/ f u v = v) -> In (fold_left f l a) (a :: l).
Proof.
  intros Hf. revert a; induction l as [|b l IH]; intros a; cbn; [auto|].
  destruct (IH (f a b)) as [H|H]; [|auto]. rewrite <- H.
  destruct (Hf a b) as [E|E]; rewrite E; auto.
Qed.

Lemma qmin_sel u v : qmin u v = u \/ qmin u v = v.
Proof. unfold qmin. destruct (Qle_bool u v); auto. Qed.
Lemma qmax_sel u v : qmax u v = u \/ qmax u v = v.
Proof. unfold qmax. destruct (Qle_bool u v); auto. Qed.

(** When the [x] values of a frame all truncate to the same integer, the
    range of the fitted line is empty and [max(xi)] raises. *)
Lemma regression_part_flat linregress format_2f (df : table) (x y name : string)
    (eq_pos : Q * Q) (xv : list value) (n : Z) :
  get_col df x = Ok xv ->
  Forall (fun v => forall q, v = VNum q -> py_int q = n) xv ->
  exists e, regression_part linregress format_2f df x y name eq_pos = Err e.
Proof.
  intros Hx Hall. unfold regression_part. rewrite Hx. cbn [res_bind].
  destruct (get_col df y) as [yv|e]; cbn [res_bind]; [|eauto].
  destruct (to_floats xv) as [xs|e] eqn:Hxs; cbn [res_bind]; [|eauto].
  destruct (to_floats yv) as [ys|e]; cbn [res_bind]; [|eauto].
  destruct (linregress xs ys) as [lr|e]; cbn [res_bind]; [|eauto].
  apply to_floats_ok in Hxs. subst xv.
  unfold int_of_min, int_of_max. rewrite to_floats_map_VNum. cbn [res_bind].
  destruct xs as [|q qs]; cbn [res_bind]; [eexists; reflexivity|].
  assert (Hn : forall p, In p (q :: qs) -> py_int p = n).
  { intros p Hp. rewrite Forall_forall in Hall. apply (Hall (VNum p)); [|reflexivity].
    now apply in_map. }
  rewrite (Hn _ (fold_left_sel_In qmin qs q qmin_sel)).
  rewrite (Hn _ (fold_left_sel_In qmax qs q qmax_sel)).
  rewrite rangeZ_empty by lia. cbn. eauto.
Qed.

Lemma rows_where_miss (t : table) (c s : string) :
  (forall vs, get_col t c = Ok vs -> ~ In (VStr s) vs) ->
  match rows_where t c (VStr s) with
  | Ok t' => rows t' = []
  | Err _ => True
  end.
Proof.
  unfold get_col, rows_where. destruct (col_index (columns t) c) as [i|]; [|trivial].
  intros H. specialize (H _ eq_refl). cbn.
  destruct (filter _ (rows t)) as [|r rs] eqn:E; [reflexivity|].
  exfalso. apply H. assert (Hr : In r (filter (fun r => veqb (cell i r) (VStr s)) (rows t)))
    by (rewrite E; left; reflexivity).
  apply filter_In in Hr as [Hin Heq]. apply in_map_iff. exists r. split; [|exact Hin].
  destruct (cell i r) as [q|s']; cbn in Heq; [discriminate|]. apply String.eqb_eq in Heq. now subst.
Qed.

(** X12: when no row of the frame has the response "response" and every
    numeric [x] value truncates to the same integer (in particular for an
    empty frame or a single row), [make_iplot] raises:
    [range(int(min), int(max))] is empty and [max(xi)] fails. *)
Theorem make_iplot_flat_x_raises linregress format_2f (data : loc) (x y base_title : string)
    (time : bool) (eq_pos : Q * Q) (st : store) (n : Z) :
  (forall vs, get_col (heap st data) "response" = Ok vs -> ~ In (VStr "response") vs) ->
  (forall xv, get_col (heap st data) x = Ok xv ->
              Forall (fun v => forall q, v = VNum q -> py_int q = n) xv) ->
  exists e, fst (make_iplot linregress format_2f data x y base_title time eq_pos st) = Err e.
Proof.
  intros Hno Hflat. pose proof (rows_where_miss _ _ _ Hno) as Hm.
  unfold make_iplot, bind, load, lift, ret, raise.
  cbn -[rows_where get_col regression_part].
  destruct (rows_where (heap st data) "response" (VStr "response")) as [rs|e];
    cbn -[rows_where get_col regression_part]; [|eauto].
  destruct (rows_where (heap st data) "response" (VStr "article")) as [arts|e];
    cbn -[rows_where get_col regression_part]; [|eauto].
  rewrite Hm. cbn -[get_col regression_part].
  destruct (get_col (heap st data) x) as [xv|e] eqn:Hx; cbn -[get_col regression_part]; [|eauto].
  destruct (get_col (heap st data) y) as [yv|e]; cbn -[get_col regression_part]; [|eauto].
  destruct (get_col (heap st data) "title") as [text|e]; cbn -[get_col regression_part]; [|eauto].
  destruct (regression_part_flat linregress format_2f _ x y "linear fit" eq_pos xv n Hx (Hflat xv eq_refl))
    as [e He].
  rewrite He. cbn. eauto.
Qed.

(** X13: when the frame has responses and every numeric [x] value of the
    articles, or of the responses, truncates to the same integer (for
    example a single response), [make_iplot] raises, whatever [time]. *)
Theorem make_iplot_flat_subset_raises linregress format_2f (data : loc) (x y base_title : string)
    (time : bool) (eq_pos : Q * Q) (st : store) (label : string) (n : Z) :
  In label ["article"; "response"] ->
  (exists vs, get_col (heap st data) "response" = Ok vs /\ In (VStr "response") vs) ->
  (forall sub xv, rows_where (heap st data) "response" (VStr label) = Ok sub ->
                  get_col sub x = Ok xv ->
                  Forall (fun v => forall q, v = VNum q -> py_int q = n) xv) ->
  exists e, fst (make_iplot linregress format_2f data x y base_title time eq_pos st) = Err e.
Proof.
  intros Hlabel (vs & Hvs & Hin) Hflat.
  destruct (rows_where_hit _ _ _ _ Hvs Hin) as (rs & Hrs & Hne).
  unfold make_iplot, bind, load, lift, ret, raise.
  cbn -[rows_where get_col regression_part map_res].
  rewrite Hrs. cbn -[rows_where get_col regression_part map_res].
  destruct (rows_where (heap st data) "response" (VStr "article")) as [arts|e] eqn:Harts;
    cbn -[get_col regression_part map_res]; [|eauto].
  destruct (rows rs) as [|r0 rws] eqn:Hr; [congruence|].
  cbn -[get_col regression_part map_res].
  destruct (res_bind (get_col arts x) _) as [pd|e]; cbn -[regression_part map_res]; [|eauto].
  destruct time; cbn -[regression_part map_res]; [eauto|].
  destruct (map_res _ [(arts, "articles"); (rs, "responses")]) as [parts|e] eqn:Hp;
    cbn; [|eauto].
  exfalso.
  assert (Hflat' : forall sub nm, rows_where (heap st data) "response" (VStr label) = Ok sub ->
                     exists e, regression_part linregress format_2f sub x y nm eq_pos = Err e).
  { intros sub nm Hsub.
    destruct (get_col sub x) as [xv|e] eqn:Hx.
    - exact (regression_part_flat _ _ _ _ _ _ _ xv n Hx (Hflat sub xv Hsub Hx)).
    - unfold regression_part. rewrite Hx. eexists; reflexivity. }
  cbn [map_res] in Hp.
  destruct Hlabel as [<-|[<-|[]]].
  - destruct (Hflat' arts ("articles" ++ " linear fit")%string Harts) as [e He].
    rewrite He in Hp. discriminate.
  - destruct (regression_part _ _ arts _ _ _ _); cbn [res_bind] in Hp; [|discriminate].
    destruct (Hflat' rs ("responses" ++ " linear fit")%string Hrs) as [e He].
    rewrite He in Hp. discriminate.
Qed.

(** X14: when no row has the response "response", a successful
    [make_iplot] without [time] returns the observations of the whole frame
    (articles and rows of any other label alike) and the line
    [slope * z + intercept] at the integers [z] from [int(min x)] to
    [int(max x) - 1], in increasing order; its one annotation gives
    [R^2], slope and intercept and sits at [(int(max x) - 1) * eq_pos[0]];
    there is no update menu. *)
Theorem make_iplot_single_regression linregress format_2f (data : loc) (x y base_title : string)
    (eq_pos : Q * Q) (st : store) (fig : figure) :
  (forall vs, get_col (heap st data) "response" = Ok vs -> ~ In (VStr "response") vs) ->
  fst (make_iplot linregress format_2f data x y base_title false eq_pos st) = Ok fig ->
  exists xv yv xs ys lr lo hi zs an,
    get_col (heap st data) x = Ok xv /\ get_col (heap st data) y = Ok yv /\
    to_floats xv = Ok xs /\ to_floats yv = Ok ys /\ linregress xs ys = Ok lr /\
    int_of_min xv = Ok lo /\ int_of_max xv = Ok hi /\ (lo < hi)%Z /\
    (forall z, In z zs <-> (lo <= z < hi)%Z) /\ Sorted Z.lt zs /\
    map tr_name (fig_data fig) = [Some (VStr "observations"); Some (VStr "linear fit")] /\
    map tr_x (fig_data fig)
      = [Some (Col xv); Some (Col (map (fun z => VNum (inject_Z z)) zs))] /\
    map tr_y (fig_data fig)
      = [Some (Col yv);
         Some (Col (map (fun z => VNum (inject_Z z * lr_slope lr + lr_intercept lr)) zs))] /\
    lo_annotations (fig_layout fig) = Some [an] /\
    an_x an = Some (inject_Z (hi - 1) * fst eq_pos) /\
    an_text an = ("$R^2 = " ++ format_2f (lr_rvalue lr) ++ "; Y = " ++ format_2f (lr_slope lr)
                  ++ "X + " ++ format_2f (lr_intercept lr) ++ "$")%string /\
    lo_title (fig_layout fig) = Some base_title /\
    lo_updatemenus (fig_layout fig) = [].
Proof.
  intros Hno. pose proof (rows_where_miss _ _ _ Hno) as Hm.
  unfold make_iplot, bind, load, lift, ret, raise.
  cbn -[rows_where get_col regression_part].
  destruct (rows_where (heap st data) "response" (VStr "response")) as [rs|e];
    cbn -[rows_where get_col regression_part]; [|discriminate].
  destruct (rows_where (heap st data) "response" (VStr "article")) as [arts|e];
    cbn -[rows_where get_col regression_part]; [|discriminate].
  rewrite Hm. cbn -[get_col regression_part].
  destruct (get_col (heap st data) x) as [xv|e] eqn:Hx; cbn -[get_col regression_part]; [|discriminate].
  destruct (get_col (heap st data) y) as [yv|e] eqn:Hy; cbn -[get_col regression_part]; [|discriminate].
  destruct (get_col (heap st data) "title") as [text|e]; cbn -[get_col regression_part]; [|discriminate].
  unfold regression_part. rewrite Hx, Hy. cbn [res_bind].
  destruct (to_floats xv) as [xs|e] eqn:Hxs; cbn [res_bind]; [|discriminate].
  destruct (to_floats yv) as [ys|e] eqn:Hys; cbn [res_bind]; [|discriminate].
  destruct (linregress xs ys) as [lr|e] eqn:Hlr; cbn [res_bind]; [|discriminate].
  destruct (int_of_min xv) as [lo|e] eqn:Hlo; cbn [res_bind]; [|discriminate].
  destruct (int_of_max xv) as [hi|e] eqn:Hhi; cbn [res_bind]; [|discriminate].
  destruct (Z_lt_le_dec lo hi) as [Hlt|Hle];
    [|rewrite (rangeZ_empty lo hi Hle); cbn; discriminate].
  rewrite (builtin_max_rangeZ lo hi Hlt). cbn [res_bind].
  destruct (num_max yv) as [my|e]; cbn; [|discriminate].
  intros [= <-].
  exists xv, yv, xs, ys, lr, lo, hi, (rangeZ lo hi).
  eexists. cbn.
  repeat match goal with |- _ /\ _ => split end; try reflexivity; try assumption.
  - intros z. apply rangeZ_In.
  - apply rangeZ_sorted.
  - now rewrite map_map.
Qed.

Lemma regression_part_name linregress format_2f (df : table) (x y nm : string) eq_pos tr an :
  regression_part linregress format_2f df x y nm eq_pos = Ok (tr, an) ->
  tr_name tr = Some (VStr nm).
Proof.
  unfold regression_part.
  destruct (get_col df x); cbn [res_bind]; [|discriminate].
  destruct (get_col df y); cbn [res_bind]; [|discriminate].
  destruct (to_floats _); cbn [res_bind]; [|discriminate].
  destruct (to_floats _); cbn [res_bind]; [|discriminate].
  destruct (linregress _ _); cbn [res_bind]; [|discriminate].
  destruct (int_of_min _); cbn [res_bind]; [|discriminate].
  destruct (int_of_max _); cbn [res_bind]; [|discriminate].
  destruct (builtin_max _); cbn [res_bind]; [|discriminate].
  destruct (num_max _); cbn [res_bind]; [|discriminate].
  intros [= <- _]. reflexivity.
Qed.

(** X15: when the frame has responses, a successful [make_iplot] without
    [time] returns four traces: the articles, the responses, then the
    regression line of each group; the layout's annotations are the two
    regressions' in that order, and the update menu is built from them. *)
Theorem make_iplot_two_regressions linregress format_2f (data : loc) (x y base_title : string)
    (eq_pos : Q * Q) (st : store) (fig : figure) :
  (exists vs, get_col (heap st data) "response" = Ok vs /\ In (VStr "response") vs) ->
  fst (make_iplot linregress format_2f data x y base_title false eq_pos st) = Ok fig ->
  exists arts rsps ax rx ta aa tr ar,
    rows_where (heap st data) "response" (VStr "article") = Ok arts /\
    rows_where (heap st data) "response" (VStr "response") = Ok rsps /\
    get_col arts x = Ok ax /\ get_col rsps x = Ok rx /\
    regression_part linregress format_2f arts x y "articles linear fit" eq_pos = Ok (ta, aa) /\
    regression_part linregress format_2f rsps x y "responses linear fit" eq_pos = Ok (tr, ar) /\
    map tr_name (fig_data fig)
      = [Some (VStr "articles"); Some (VStr "responses");
         Some (VStr "articles linear fit"); Some (VStr "responses linear fit")] /\
    map tr_x (firstn 2 (fig_data fig)) = [Some (Col ax); Some (Col rx)] /\
    skipn 2 (fig_data fig) = [ta; tr] /\
    lo_annotations (fig_layout fig) = Some [aa; ar] /\
    lo_title (fig_layout fig) = Some base_title /\
    lo_updatemenus (fig_layout fig) = make_update_menu base_title (Some aa) (Some ar).
Proof.
  intros (vs & Hvs & Hin).
  destruct (rows_where_hit _ _ _ _ Hvs Hin) as (rs & Hrs & Hne).
  unfold make_iplot, bind, load, lift, ret, raise.
  cbn -[rows_where get_col regression_part map_res].
  rewrite Hrs. cbn -[rows_where get_col regression_part map_res].
  destruct (rows_where (heap st data) "response" (VStr "article")) as [arts|e] eqn:Harts;
    cbn -[get_col regression_part map_res]; [|discriminate].
  destruct (rows rs) as [|r0 rws] eqn:Hr; [congruence|].
  cbn -[get_col regression_part map_res].
  destruct (get_col arts x) as [ax|e] eqn:Hax; cbn -[get_col regression_part map_res]; [|discriminate].
  destruct (get_col arts y) as [ay|e]; cbn -[get_col regression_part map_res]; [|discriminate].
  destruct (get_col arts "title") as [atext|e]; cbn -[get_col regression_part map_res]; [|discriminate].
  destruct (get_col rs x) as [rx|e] eqn:Hrx; cbn -[get_col regression_part map_res]; [|discriminate].
  destruct (get_col rs y) as [ry|e]; cbn -[get_col regression_part map_res]; [|discriminate].
  cbn [map_res res_bind].
  destruct (regression_part linregress format_2f arts x y ("articles" ++ " linear fit")%string eq_pos)
    as [[ta aa]|e] eqn:Ha; cbn [res_bind]; [|discriminate].
  destruct (regression_part linregress format_2f rs x y ("responses" ++ " linear fit")%string eq_pos)
    as [[tr ar]|e] eqn:Hb; cbn; [|discriminate].
  intros [= <-].
  exists arts, rs, ax, rx, ta, aa, tr, ar.
  cbn in Ha, Hb. cbn [map fig_data firstn skipn app].
  rewrite (regression_part_name _ _ _ _ _ _ _ _ _ Ha), (regression_part_name _ _ _ _ _ _ _ _ _ Hb).
  repeat match goal with |- _ /\ _ => split end; reflexivity || assumption.
Qed.

(** X16: a successful [make_iplot] with [time] returns the figure of the
    same call without [time], except that its x axis gets the range
    selector and the range slider; it has no update menu. *)
Theorem make_iplot_time_range_controls linregress format_2f (data : loc)
    (x y base_title : string) (eq_pos : Q * Q) (st : store) (fig : figure) :
  fst (make_iplot linregress format_2f data x y base_title true eq_pos st) = Ok fig ->
  exists fig0,
    fst (make_iplot linregress format_2f data x y base_title false eq_pos st) = Ok fig0 /\
    fig_data fig = fig_data fig0 /\
    fig_layout fig
      = mk_layout (lo_title (fig_layout fig0)) (with_range_controls (lo_xaxis (fig_layout fig0)))
                  (lo_yaxis (fig_layout fig0)) (lo_yaxis2 (fig_layout fig0))
                  (lo_annotations (fig_layout fig0)) (lo_updatemenus (fig_layout fig0)) /\
    ax_rangeselector (lo_xaxis (fig_layout fig)) = true /\
    ax_rangeslider (lo_xaxis (fig_layout fig)) = true /\
    lo_updatemenus (fig_layout fig) = [].
Proof.
  unfold make_iplot, bind, load, lift, ret, raise.
  cbn -[rows_where get_col regression_part map_res].
  destruct (rows_where (heap st data) "response" (VStr "response")) as [rs|e];
    cbn -[rows_where get_col regression_part map_res]; [|discriminate].
  destruct (rows_where (heap st data) "response" (VStr "article")) as [arts|e];
    cbn -[rows_where get_col regression_part map_res]; [|discriminate].
  destruct (rows rs) as [|r0 rws].
  - cbn -[get_col regression_part].
    destruct (res_bind (get_col (heap st data) x) _) as [obs|e]; cbn -[regression_part]; [|discriminate].
    destruct (regression_part _ _ _ _ _ _ _) as [[tr an]|e]; cbn; [|discriminate].
    intros [= <-]. eexists. split; [reflexivity|]. cbn.
    repeat match goal with |- _ /\ _ => split end; reflexivity.
  - cbn -[get_col regression_part map_res].
    destruct (res_bind (get_col arts x) _); cbn; discriminate.
Qed.


Lemma make_iplot_single_regression_witness :
  (forall vs, get_col Samples.all_articles "response" = Ok vs -> ~ In (VStr "response") vs) /\
  exists fig,
    fst (make_iplot NumericQ.linregress_Q NumericQ.format_2f_Q 0%nat "published_date" "reads"
           "Reads" false (3 # 4, 1 # 4) (store_of Samples.all_articles)) = Ok fig /\
    exists zs,
      (forall z, In z zs <-> (1 <= z < 4)%Z) /\
      map tr_x (fig_data fig)
        = [Some (Col [VNum 1; VNum 2; VNum 4]); Some (Col (map (fun z => VNum (inject_Z z)) zs))].
Proof.
  assert (Hno : forall vs, get_col Samples.all_articles "response" = Ok vs -> ~ In (VStr "response") vs).
  { intros vs H. vm_compute in H. injection H as <-. intros [H|[H|[H|[]]]]; discriminate. }
  split; [exact Hno|].
  destruct (make_iplot NumericQ.linregress_Q NumericQ.format_2f_Q 0%nat "published_date" "reads"
              "Reads" false (3 # 4, 1 # 4) (store_of Samples.all_articles)) as [r st'] eqn:E.
  destruct r as [fig|e]; [|vm_compute in E; discriminate].
  exists fig. split; [reflexivity|].
  assert (E' : fst (make_iplot NumericQ.linregress_Q NumericQ.format_2f_Q 0%nat "published_date"
                      "reads" "Reads" false (3 # 4, 1 # 4) (store_of Samples.all_articles)) = Ok fig)
    by (rewrite E; reflexivity).
  destruct (make_iplot_single_regression NumericQ.linregress_Q NumericQ.format_2f_Q 0%nat
              "published_date" "reads" "Reads" (3 # 4, 1 # 4) (store_of Samples.all_articles) fig
              Hno E')
    as (xv & yv & xs & ys & lr & lo & hi & zs & an & Hx & _ & _ & _ & _ & Hlo & Hhi & _ & Hz & _
        & _ & Htx & _).
  vm_compute in Hx. injection Hx as <-. vm_compute in Hlo, Hhi.
  injection Hlo as <-. injection Hhi as <-.
  exists zs. split; [exact Hz | exact Htx].
Defined.

Lemma make_iplot_flat_x_raises_witness :
  (forall vs, get_col Samples.same_integer_part "response" = Ok vs -> ~ In (VStr "response") vs) /\
  (forall xv, get_col Samples.same_integer_part "x" = Ok xv ->
              Forall (fun v => forall q, v = VNum q -> py_int q = 3%Z) xv) /\
  exists e, fst (make_iplot NumericQ.linregress_Q NumericQ.format_2f_Q 0%nat "x" "y" "T" false
                   (3 # 4, 1 # 4) (store_of Samples.same_integer_part)) = Err e.
Proof.
  assert (Hno : forall vs, get_col Samples.same_integer_part "response" = Ok vs ->
                           ~ In (VStr "response") vs).
  { intros vs H. vm_compute in H. injection H as <-. intros [H|[H|[]]]; discriminate. }
  assert (Hflat : forall xv, get_col Samples.same_integer_part "x" = Ok xv ->
                             Forall (fun v => forall q, v = VNum q -> py_int q = 3%Z) xv).
  { intros xv H. vm_compute in H. injection H as <-.
    repeat constructor; intros q Hq; injection Hq as <-; reflexivity. }
  split; [exact Hno|]. split; [exact Hflat|].
  exact (make_iplot_flat_x_raises NumericQ.linregress_Q NumericQ.format_2f_Q 0%nat "x" "y" "T"
           false (3 # 4, 1 # 4) (store_of Samples.same_integer_part) 3%Z Hno Hflat).
Defined.

Lemma make_iplot_flat_subset_raises_witness :
  In "response" ["article"; "response"] /\
  (exists vs, get_col Samples.articles "response" = Ok vs /\ In (VStr "response") vs) /\
  (forall sub xv, rows_where Samples.articles "response" (VStr "response") = Ok sub ->
                  get_col sub "published_date" = Ok xv ->
                  Forall (fun v => forall q, v = VNum q -> py_int q = 1%Z) xv) /\
  exists e, fst (make_iplot NumericQ.linregress_Q NumericQ.format_2f_Q 0%nat "published_date"
                   "reads" "T" false (3 # 4, 1 # 4) (store_of Samples.articles)) = Err e.
Proof.
  assert (Hl : In "response" ["article"; "response"]) by (right; left; reflexivity).
  assert (Hr : exists vs, get_col Samples.articles "response" = Ok vs /\ In (VStr "response") vs).
  { eexists. split; [reflexivity|]. right; left; reflexivity. }
  assert (Hflat : forall sub xv, rows_where Samples.articles "response" (VStr "response") = Ok sub ->
                  get_col sub "published_date" = Ok xv ->
                  Forall (fun v => forall q, v = VNum q -> py_int q = 1%Z) xv).
  { intros sub xv Hs Hx. vm_compute in Hs. injection Hs as <-. vm_compute in Hx.
    injection Hx as <-. repeat constructor; intros q Hq; injection Hq as <-; reflexivity. }
  split; [exact Hl|]. split; [exact Hr|]. split; [exact Hflat|].
  exact (make_iplot_flat_subset_raises NumericQ.linregress_Q NumericQ.format_2f_Q 0%nat
           "published_date" "reads" "T" false (3 # 4, 1 # 4) (store_of Samples.articles)
           "response" 1%Z Hl Hr Hflat).
Defined.

Lemma make_iplot_two_regressions_witness :
  (exists vs, get_col Samples.mixed "response" = Ok vs /\ In (VStr "response") vs) /\
  exists fig,
    fst (make_iplot NumericQ.linregress_Q NumericQ.format_2f_Q 0%nat "published_date" "reads"
           "Reads" false (3 # 4, 1 # 4) (store_of Samples.mixed)) = Ok fig /\
    map tr_name (fig_data fig)
      = [Some (VStr "articles"); Some (VStr "responses");
         Some (VStr "articles linear fit"); Some (VStr "responses linear fit")].
Proof.
  assert (Hr : exists vs, get_col Samples.mixed "response" = Ok vs /\ In (VStr "response") vs).
  { eexists. split; [reflexivity|]. right; right; right; left; reflexivity. }
  split; [exact Hr|].
  destruct (make_iplot NumericQ.linregress_Q NumericQ.format_2f_Q 0%nat "published_date" "reads"
              "Reads" false (3 # 4, 1 # 4) (store_of Samples.mixed)) as [r st'] eqn:E.
  destruct r as [fig|e]; [|vm_compute in E; discriminate].
  exists fig. split; [reflexivity|].
  assert (E' : fst (make_iplot NumericQ.linregress_Q NumericQ.format_2f_Q 0%nat "published_date"
                      "reads" "Reads" false (3 # 4, 1 # 4) (store_of Samples.mixed)) = Ok fig)
    by (rewrite E; reflexivity).
  destruct (make_iplot_two_regressions NumericQ.linregress_Q NumericQ.format_2f_Q 0%nat
              "published_date" "reads" "Reads" (3 # 4, 1 # 4) (store_of Samples.mixed) fig Hr E')
    as (arts & rsps & ax & rx & ta & aa & tr & ar & _ & _ & _ & _ & _ & _ & Hn & _).
  exact Hn.
Defined.

Lemma make_iplot_time_range_controls_witness :
  exists fig,
    fst (make_iplot NumericQ.linregress_Q NumericQ.format_2f_Q 0%nat "published_date" "reads"
           "Reads" true (3 # 4, 1 # 4) (store_of Samples.all_articles)) = Ok fig /\
    ax_rangeslider (lo_xaxis (fig_layout fig)) = true.
Proof.
  destruct (make_iplot NumericQ.linregress_Q NumericQ.format_2f_Q 0%nat "published_date" "reads"
              "Reads" true (3 # 4, 1 # 4) (store_of Samples.all_articles)) as [r st'] eqn:E.
  destruct r as [fig|e]; [|vm_compute in E; discriminate].
  exists fig. split; [reflexivity|].
  assert (E' : fst (make_iplot NumericQ.linregress_Q NumericQ.format_2f_Q 0%nat "published_date"
                      "reads" "Reads" true (3 # 4, 1 # 4) (store_of Samples.all_articles)) = Ok fig)
    by (rewrite E; reflexivity).
  destruct (make_iplot_time_range_controls _ _ _ _ _ _ _ _ _ E')
    as (fig0 & _ & _ & _ & _ & Hs & _).
  exact Hs.
Defined.

(** ** Titles *)








Lemma marker_sizes_ok (size : list value) :
  forallb marker_size_ok size = true -> Forall (fun v => exists q, v = VNum q /\ 0 <= q) size.
Proof.
  intros H. apply Forall_forall. intros v Hv. rewrite forallb_forall in H.
  specialize (H v Hv). destruct v as [q|]; [|discriminate].
  exists q. split; [reflexivity|]. now apply Qle_bool_iff.
Qed.

(** X18: with a scale [s] and no category, a successful
    [make_scatter_plot] returns one marker trace holding the frame's [x],
    [y] and [title] columns in the caller's row order, unsorted, with the
    marker sizes taken from column [s], which holds numbers of at least 0
    (plotly refuses other sizes); the title is
    "<Y> vs <X> Scaled by " followed by [s.title()]. *)
Theorem make_scatter_plot_scaled (df : loc) (x y : string) (fits : option (list string))
    (xlog ylog : bool) (s : string) (sizeref : Q) (annotations : option (list annotation))
    (st st' : store) (fig : figure) :
  make_scatter_plot df x y fits xlog ylog None (Some s) sizeref annotations st = (Ok fig, st') ->
  exists xs ys text size,
    get_col (heap st df) x = Ok xs /\ get_col (heap st df) y = Ok ys /\
    get_col (heap st df) "title" = Ok text /\ get_col (heap st df) s = Ok size /\
    Forall (fun v => exists q, v = VNum q /\ 0 <= q) size /\
    fig_data fig = [mk_trace Scatter (Some (Col xs)) (Some (Col ys)) None (Some text)
                             (Some "markers") None None (Some size)] /\
    lo_title (fig_layout fig)
      = Some (pretty y ++ " vs " ++ pretty x ++ " Scaled by " ++ py_title s)%string.
Proof.
  unfold make_scatter_plot, bind, load, lift, ret, raise. cbn -[get_col].
  destruct (get_col (heap st df) x) as [xs|e]; cbn -[get_col]; [|discriminate].
  destruct (get_col (heap st df) y) as [ys|e]; cbn -[get_col]; [|discriminate].
  destruct (get_col (heap st df) "title") as [text|e]; cbn -[get_col]; [|discriminate].
  destruct (get_col (heap st df) s) as [size|e]; cbn -[get_col]; [|discriminate].
  destruct (forallb marker_size_ok size) eqn:Hs; cbn; [|discriminate].
  intros [= <- _]. exists xs, ys, text, size. cbn.
  repeat match goal with |- _ /\ _ => split end; try reflexivity.
  now apply marker_sizes_ok.
Qed.

(** X19: with a scale [s] and no category, when the frame has the columns
    [x], [y], [title] and [s] and column [s] holds a string or a negative
    number, [make_scatter_plot] raises [ValueError]: plotly refuses the
    marker sizes. *)
Theorem make_scatter_plot_bad_scale (df : loc) (x y : string) (fits : option (list string))
    (xlog ylog : bool) (s : string) (sizeref : Q) (annotations : option (list annotation))
    (st : store) (xs ys text size : list value) :
  get_col (heap st df) x = Ok xs -> get_col (heap st df) y = Ok ys ->
  get_col (heap st df) "title" = Ok text -> get_col (heap st df) s = Ok size ->
  (exists v, In v size /\ (is_num v = false \/ exists q, v = VNum q /\ q < 0)) ->
  fst (make_scatter_plot df x y fits xlog ylog None (Some s) sizeref annotations st)
    = Err ValueError.
Proof.
  intros Hx Hy Ht Hs (v & Hv & Hbad).
  unfold make_scatter_plot, bind, load, lift, ret, raise. cbn -[get_col].
  rewrite Hx, Hy, Ht, Hs. cbn -[forallb].
  replace (forallb marker_size_ok size) with false; [reflexivity|].
  symmetry. apply not_true_iff_false. rewrite forallb_forall. intros H.
  specialize (H v Hv). destruct Hbad as [Hb|(q & -> & Hq)].
  - destruct v; discriminate.
  - cbn in H. apply Qle_bool_iff in H. apply (Qlt_not_le _ _ Hq H).
Qed.

Lemma make_scatter_plot_scaled_witness :
  exists fig st',
    make_scatter_plot 0%nat "published_date" "reads" None false false None (Some "reads") 2 None
      (store_of Samples.articles) = (Ok fig, st') /\
    fig_data fig
      = [mk_trace Scatter (Some (Col [VNum 3; VNum 1; VNum 2; VNum 4]))
                  (Some (Col [VNum 5; VNum 2; VNum 7; VNum 1])) None
                  (Some [VStr "c"; VStr "a"; VStr "b"; VStr "d"]) (Some "markers") None None
                  (Some [VNum 5; VNum 2; VNum 7; VNum 1])].
Proof.
  eexists; eexists. run_call E.
  destruct (make_scatter_plot_scaled _ _ _ _ _ _ _ _ _ _ _ _ E)
    as (xs & ys & text & size & Hx & Hy & Ht & Hs & _ & Hd & _).
  vm_compute in Hx, Hy, Ht, Hs. injection Hx as <-. injection Hy as <-. injection Ht as <-.
  injection Hs as <-. exact Hd.
Defined.

Lemma make_scatter_plot_bad_scale_witness :
  fst (make_scatter_plot 0%nat "published_date" "reads" None false false None (Some "tag") 2
         None (store_of Samples.articles)) = Err ValueError.
Proof.
  apply (make_scatter_plot_bad_scale 0%nat "published_date" "reads" None false false "tag" 2
           None (store_of Samples.articles) [VNum 3; VNum 1; VNum 2; VNum 4]
           [VNum 5; VNum 2; VNum 7; VNum 1] [VStr "c"; VStr "a"; VStr "b"; VStr "d"]
           [VStr "b"; VStr "a"; VStr "b"; VStr "a"]);
    [vm_compute; reflexivity ..|].
  exists (VStr "b"). split; [now left | now left].
Defined.
